(** * Neurcode core: diff parser, rule evaluator and policy manager

    A shallow embedding of the TypeScript sources
    - [diff-parser/src/index.ts]     ([parseDiff]),
    - [policy-engine/src/types.ts]   (rules, violations, policies),
    - [policy-engine/src/evaluator.ts] ([evaluateRule], [evaluateRules]),
    - [policy-engine/src/default-rules.ts] ([defaultRules]),
    - [policy-engine/src/policy.ts]  ([loadPolicy], [createPolicy],
      [createDefaultPolicy], [mergePolicies]),
    and the properties of them that the specification states.

    Conventions of the embedding.
    - A JavaScript string is a [string]: each character stands for one
      UTF-16 code unit below 256.  In that range the line terminators that
      the regular-expression dot refuses are LF and CR.
    - A JavaScript number that the code uses as a count, a threshold or a
      line position is a [Z]; the model is exact for integers of magnitude
      below 2^53.
    - A function that may raise returns a [result]; [Throw] carries the
      kind of the exception.
    - Objects that the parser mutates after they were stored elsewhere live
      in an explicit heap and are named by references. *)

From Stdlib Require Import ZArith Ascii String List Bool Lia.
From Stdlib Require Import DecimalString DecimalN.
From stdpp Require Import base option list.
Import ListNotations.

Local Open Scope string_scope.
Local Open Scope list_scope.
Set Warnings "-register-all".

(** ** JavaScript primitives used by the sources *)

Module Js.

(** Exceptions the modelled code can raise. *)
Inductive exn : Type :=
  | SyntaxError            (* new RegExp(p) on an invalid pattern, JSON.parse *)
  | TypeError              (* property read on null *)
  | Error (message : string).

Inductive result (A : Type) : Type :=
  | Ok (a : A)
  | Throw (e : exn).
Arguments Ok {A} a.
Arguments Throw {A} e.

#[global] Instance result_ret : MRet result := fun A a => Ok a.
#[global] Instance result_bind : MBind result := fun A B k m =>
  match m with
  | Ok a => k a
  | Throw e => Throw e
  end.

(** [xs.map(f)] where [f] may raise: the first exception aborts the map.
    It is stdpp's [mapM] at the monad [result]. *)
Definition mapR {A B} (f : A -> result B) (xs : list A) : result (list B) :=
  mapM f xs.

Definition is_Ok {A} (m : result A) : bool :=
  match m with Ok _ => true | Throw _ => false end.

(** [s.length] *)
Definition length (s : string) : Z := Z.of_nat (String.length s).

(** [s.startsWith(p)] *)
Definition startsWith (s p : string) : bool := String.prefix p s.

(** [s.substring(n)] for a literal [n]: the string without its first [n]
    code units. *)
Fixpoint substring_from (n : nat) (s : string) : string :=
  match n, s with
  | O, _ => s
  | S n', String _ s' => substring_from n' s'
  | S _, EmptyString => EmptyString
  end.

(** [s.substring(0, n)] *)
Fixpoint substring_to (n : nat) (s : string) : string :=
  match n, s with
  | S n', String c s' => String c (substring_to n' s')
  | _, _ => EmptyString
  end.

(** [s.includes(sub)] *)
Fixpoint includes (s sub : string) : bool :=
  String.prefix sub s ||
  match s with
  | EmptyString => false
  | String _ s' => includes s' sub
  end.

Definition LF : ascii := ascii_of_nat 10.
Definition CR : ascii := ascii_of_nat 13.

(** [s.split('\n')]: never empty, [''.split('\n')] is [['']]. *)
Fixpoint split_lines_aux (cur : string) (s : string) : list string :=
  match s with
  | EmptyString => [cur]
  | String c s' =>
      if Ascii.eqb c LF then cur :: split_lines_aux EmptyString s'
      else split_lines_aux (cur ++ String c EmptyString) s'
  end.

Definition split_lines (s : string) : list string :=
  split_lines_aux EmptyString s.

(** [xs.join(sep)] *)
Definition join (sep : string) (xs : list string) : string :=
  String.concat sep xs.

(** [c.toLowerCase()] on one code unit below 256: A-Z and the Latin-1
    capitals (U+00C0..U+00DE without the multiplication sign) move by 32. *)
Definition lower_ascii (c : ascii) : ascii :=
  let n := nat_of_ascii c in
  if (65 <=? n)%nat && (n <=? 90)%nat then ascii_of_nat (n + 32)
  else if (192 <=? n)%nat && (n <=? 222)%nat && negb (n =? 215)%nat
       then ascii_of_nat (n + 32)
  else c.

(** [s.toLowerCase()] *)
Fixpoint toLowerCase (s : string) : string :=
  match s with
  | EmptyString => EmptyString
  | String c s' => String (lower_ascii c) (toLowerCase s')
  end.

(** The text of an integral number inside a template literal. *)
Definition number_to_string (n : Z) : string :=
  NilZero.string_of_int (Z.to_int n).

(** [a || b] on an optional string: [undefined] and [''] are falsy. *)
Definition or_else (a : option string) (b : string) : string :=
  match a with
  | Some s => if String.eqb s EmptyString then b else s
  | None => b
  end.

(** [\d] *)
Definition is_digit (c : ascii) : bool :=
  let n := nat_of_ascii c in (48 <=? n)%nat && (n <=? 57)%nat.

(** A character the regular-expression dot does not match. *)
Definition is_line_terminator (c : ascii) : bool :=
  Ascii.eqb c LF || Ascii.eqb c CR.

(** The greedy [\d*] at the head of [s]: the digits and what follows them. *)
Fixpoint take_digits (s : string) : string * string :=
  match s with
  | String c s' =>
      if is_digit c then
        let '(ds, rest) := take_digits s' in (String c ds, rest)
      else (EmptyString, s)
  | EmptyString => (EmptyString, EmptyString)
  end.

(** [parseInt(ds, 10)] on a string of decimal digits. *)
Definition parseInt_digits (ds : string) : Z :=
  fold_left
    (fun acc c => (10 * acc + Z.of_nat (nat_of_ascii c - 48))%Z)
    (list_ascii_of_string ds) 0%Z.

End Js.

(** ** diff-parser/src/index.ts *)

Module DiffParser.
Import Js.

Inductive ChangeType : Type := add | delete | modify | rename.

Inductive LineType : Type := context | added | removed.

Record DiffLine : Type := {
  type : LineType;
  content : string;
  lineNumber : option Z
}.

Record DiffHunk : Type := {
  oldStart : Z;
  oldLines : Z;
  newStart : Z;
  newLines : Z;
  lines : list DiffLine
}.

Record DiffFile : Type := {
  path : string;
  oldPath : option string;
  changeType : ChangeType;
  addedLines : Z;
  removedLines : Z;
  hunks : list DiffHunk
}.

Definition ChangeType_eqb (a b : ChangeType) : bool :=
  match a, b with
  | add, add | delete, delete | modify, modify | rename, rename => true
  | _, _ => false
  end.

Definition LineType_eqb (a b : LineType) : bool :=
  match a, b with
  | context, context | added, added | removed, removed => true
  | _, _ => false
  end.

(** *** The two regular expressions with capture groups *)

(** The lazy [(.+?)] of the file-header expression, run after at least one
    character went into the first group [g1]: the group stops at the first
    place where [" b/"] follows and a non-empty rest without line
    terminator reaches the end of the line; otherwise it takes one more
    character, which must not be a line terminator. *)
Fixpoint lazy_old_path (g1 rest : string) : option (string * string) :=
  let g2 := substring_from 3 rest in
  if startsWith rest " b/" && negb (String.eqb g2 "")
     && forallb (fun c => negb (is_line_terminator c)) (list_ascii_of_string g2)
  then Some (g1, g2)
  else
    match rest with
    | String c rest' =>
        if is_line_terminator c then None
        else lazy_old_path (g1 ++ String c "") rest'
    | EmptyString => None
    end.

(** [line.match(/^diff --git a\/(.+?) b\/(.+?)$/)]: the two groups. *)
Definition match_file_header (line : string) : option (string * string) :=
  if startsWith line "diff --git a/" then
    match substring_from 13 line with
    | String c rest =>
        if is_line_terminator c then None
        else lazy_old_path (String c "") rest
    | EmptyString => None
    end
  else None.

(** The optional [(?:,(\d+))?]: the group's digits when a comma and at
    least one digit stand at the head of [s], and what is left to match. *)
Definition optional_count (s : string) : option string * string :=
  match s with
  | String c s' =>
      if Ascii.eqb c "," then
        let '(ds, rest) := take_digits s' in
        if String.eqb ds "" then (None, s) else (Some ds, rest)
      else (None, s)
  | EmptyString => (None, s)
  end.

(** [line.match(/^@@ -(\d+)(?:,(\d+))? \+(\d+)(?:,(\d+))? @@/)]: the four
    groups.  Each run of digits is followed by a character that is not a
    digit, so the greedy choices are the only ones that can succeed. *)
Definition match_hunk_header (line : string)
  : option (string * option string * string * option string) :=
  if startsWith line "@@ -" then
    let '(g1, r1) := take_digits (substring_from 4 line) in
    if String.eqb g1 "" then None else
    let '(g2, r2) := optional_count r1 in
    if startsWith r2 " +" then
      let '(g3, r3) := take_digits (substring_from 2 r2) in
      if String.eqb g3 "" then None else
      let '(g4, r4) := optional_count r3 in
      if startsWith r4 " @@" then Some (g1, g2, g3, g4) else None
    else None
  else None.

(** *** The objects under construction

    [currentFile] and [currentHunk] are references: the parser keeps
    writing through them after the same object was pushed onto [files] or
    onto a file's [hunks].  A file object therefore holds references to its
    hunks, and the result list holds references to files. *)

Abbreviation hunk_ref := nat (only parsing).
Abbreviation file_ref := nat (only parsing).

Record FileObj : Type := {
  o_path : string;
  o_oldPath : option string;
  o_changeType : ChangeType;
  o_addedLines : Z;
  o_removedLines : Z;
  o_hunks : list hunk_ref
}.

Record State : Type := {
  hunkHeap : list DiffHunk;     (* every hunk object created so far *)
  fileHeap : list FileObj;      (* every file object created so far *)
  files : list file_ref;
  currentFile : option file_ref;
  currentHunk : option hunk_ref
}.

Definition initial : State :=
  {| hunkHeap := []; fileHeap := []; files := [];
     currentFile := None; currentHunk := None |}.

Definition update_file (f : file_ref) (g : FileObj -> FileObj) (st : State)
  : State :=
  {| hunkHeap := hunkHeap st; fileHeap := alter g f (fileHeap st);
     files := files st; currentFile := currentFile st;
     currentHunk := currentHunk st |}.

Definition update_hunk (h : hunk_ref) (g : DiffHunk -> DiffHunk) (st : State)
  : State :=
  {| hunkHeap := alter g h (hunkHeap st); fileHeap := fileHeap st;
     files := files st; currentFile := currentFile st;
     currentHunk := currentHunk st |}.

(** [currentFile.hunks.push(currentHunk)] *)
Definition push_hunk (f : file_ref) (h : hunk_ref) : State -> State :=
  update_file f (fun o =>
    {| o_path := o_path o; o_oldPath := o_oldPath o;
       o_changeType := o_changeType o; o_addedLines := o_addedLines o;
       o_removedLines := o_removedLines o; o_hunks := o_hunks o ++ [h] |}).

(** [files.push(currentFile)] *)
Definition push_file (f : file_ref) (st : State) : State :=
  {| hunkHeap := hunkHeap st; fileHeap := fileHeap st;
     files := files st ++ [f]; currentFile := currentFile st;
     currentHunk := currentHunk st |}.

(** [currentFile.changeType = t] *)
Definition set_changeType (f : file_ref) (t : ChangeType) : State -> State :=
  update_file f (fun o =>
    {| o_path := o_path o; o_oldPath := o_oldPath o; o_changeType := t;
       o_addedLines := o_addedLines o; o_removedLines := o_removedLines o;
       o_hunks := o_hunks o |}).

(** [currentFile.addedLines = (currentFile.addedLines || 0) + 1] *)
Definition count_added (f : file_ref) : State -> State :=
  update_file f (fun o =>
    {| o_path := o_path o; o_oldPath := o_oldPath o;
       o_changeType := o_changeType o;
       o_addedLines := (o_addedLines o + 1)%Z;
       o_removedLines := o_removedLines o; o_hunks := o_hunks o |}).

(** [currentFile.removedLines = (currentFile.removedLines || 0) + 1] *)
Definition count_removed (f : file_ref) : State -> State :=
  update_file f (fun o =>
    {| o_path := o_path o; o_oldPath := o_oldPath o;
       o_changeType := o_changeType o; o_addedLines := o_addedLines o;
       o_removedLines := (o_removedLines o + 1)%Z; o_hunks := o_hunks o |}).

(** [currentHunk.lines.push({ type: t, content: line.substring(1) })] *)
Definition push_line (h : hunk_ref) (t : LineType) (line : string)
  : State -> State :=
  update_hunk h (fun k =>
    {| oldStart := oldStart k; oldLines := oldLines k;
       newStart := newStart k; newLines := newLines k;
       lines := lines k ++
         [ {| type := t; content := substring_from 1 line;
              lineNumber := None |} ] |}).

(** [currentFile = { ... }; currentHunk = null] with a fresh file object. *)
Definition open_file (o : FileObj) (st : State) : State :=
  {| hunkHeap := hunkHeap st; fileHeap := fileHeap st ++ [o];
     files := files st;
     currentFile := Some (List.length (fileHeap st));
     currentHunk := None |}.

(** [currentHunk = { ... }] with a fresh hunk object. *)
Definition open_hunk (k : DiffHunk) (st : State) : State :=
  {| hunkHeap := hunkHeap st ++ [k]; fileHeap := fileHeap st;
     files := files st; currentFile := currentFile st;
     currentHunk := Some (List.length (hunkHeap st)) |}.

(** The file object a matching file header creates. *)
Definition new_file (oldP newP : string) : FileObj :=
  let changeType :=
    if String.eqb oldP "/dev/null" || String.eqb oldP "a" then add
    else if String.eqb newP "/dev/null" || String.eqb newP "b" then delete
    else if negb (String.eqb oldP newP) then rename
    else modify in
  {| o_path := if ChangeType_eqb changeType delete then oldP else newP;
     o_oldPath :=
       if negb (String.eqb oldP newP)
          && negb (ChangeType_eqb changeType add)
          && negb (ChangeType_eqb changeType delete)
       then Some oldP else None;
     o_changeType := changeType;
     o_addedLines := 0;
     o_removedLines := 0;
     o_hunks := [] |}.

(** The hunk object a matching hunk header creates. *)
Definition new_hunk (g : string * option string * string * option string)
  : DiffHunk :=
  let '(g1, g2, g3, g4) := g in
  {| oldStart := parseInt_digits g1;
     oldLines := match g2 with Some ds => parseInt_digits ds | None => 0%Z end;
     newStart := parseInt_digits g3;
     newLines := match g4 with Some ds => parseInt_digits ds | None => 0%Z end;
     lines := [] |}.

(** One turn of the [while] loop: every branch ends in [i++], so the loop
    is a left fold of [step] over the lines. *)
Definition step (st : State) (line : string) : State :=
  if startsWith line "diff --git" then
    (* Save previous file if exists *)
    let st1 :=
      match currentFile st, currentHunk st with
      | Some f, Some h => push_file f (push_hunk f h st)
      | _, _ => st
      end in
    match match_file_header line with
    | Some (oldP, newP) => open_file (new_file oldP newP) st1
    | None => st1
    end
  else if startsWith line "index " then st
  else if startsWith line "new file mode" then
    match currentFile st with
    | Some f => set_changeType f add st
    | None => st
    end
  else if startsWith line "deleted file mode" then
    match currentFile st with
    | Some f => set_changeType f delete st
    | None => st
    end
  else if startsWith line "rename from" then st
  else if startsWith line "rename to" then st
  else if startsWith line "@@" then
    (* Save previous hunk if exists *)
    let st1 :=
      match currentHunk st, currentFile st with
      | Some h, Some f => push_hunk f h st
      | _, _ => st
      end in
    match match_hunk_header line, currentFile st1 with
    | Some g, Some _ => open_hunk (new_hunk g) st1
    | _, _ => st1
    end
  else
    match currentHunk st, currentFile st with
    | Some h, Some f =>
        if startsWith line "+" && negb (startsWith line "+++") then
          count_added f (push_line h added line st)
        else if startsWith line "-" && negb (startsWith line "---") then
          count_removed f (push_line h removed line st)
        else if startsWith line " " then
          push_line h context line st
        else st
    | _, _ => st
    end.

(** The two statements after the loop: save last file and hunk. *)
Definition finish (st : State) : State :=
  let st1 :=
    match currentHunk st, currentFile st with
    | Some h, Some f => push_hunk f h st
    | _, _ => st
    end in
  match currentFile st1 with
  | Some f => push_file f st1
  | None => st1
  end.

Definition run (lines : list string) : State :=
  finish (fold_left step lines initial).

(** The value a reference denotes when the function returns.  [None]
    would be a reference to an object that was never created. *)
Definition read_file (st : State) (f : file_ref) : option DiffFile :=
  o ← fileHeap st !! f;
  hs ← mapM (fun h => hunkHeap st !! h) (o_hunks o);
  Some {| path := o_path o; oldPath := o_oldPath o;
          changeType := o_changeType o; addedLines := o_addedLines o;
          removedLines := o_removedLines o; hunks := hs |}.

Definition read_files (st : State) : option (list DiffFile) :=
  mapM (read_file st) (files st).

(** [parseDiff(diffText)]: the returned array, read once the function is
    done.  No statement of the function can raise; [None] would be a
    reference without object, which [read_files_wf] rules out. *)
Definition parseDiff (diffText : string) : option (list DiffFile) :=
  read_files (run (split_lines diffText)).

(** The lines of kind [t] over all hunks of a file. *)
Definition count_lines (t : LineType) (f : DiffFile) : Z :=
  Z.of_nat
    (List.length
       (List.filter (fun l => LineType_eqb (type l) t)
          (concat (map lines (hunks f))))).

(** Every reference held by the state names an object of the heap. *)
Record wf (st : State) : Prop := {
  wf_files : Forall (fun f => f < List.length (fileHeap st)) (files st);
  wf_currentFile :
    forall f, currentFile st = Some f -> f < List.length (fileHeap st);
  wf_currentHunk :
    forall h, currentHunk st = Some h -> h < List.length (hunkHeap st);
  wf_hunks :
    Forall
      (fun o => Forall (fun h => h < List.length (hunkHeap st)) (o_hunks o))
      (fileHeap st)
}.

(** The lines of kind [t] in a list of lines. *)
Definition count_in (t : LineType) (ls : list DiffLine) : Z :=
  Z.of_nat
    (List.length (List.filter (fun l => LineType_eqb (type l) t) ls)).

(** A line that starts like a file header or a hunk header is one. *)
Definition header_ok (line : string) : bool :=
  (if startsWith line "diff --git"
   then bool_decide (is_Some (match_file_header line)) else true)
  && (if startsWith line "@@"
      then bool_decide (is_Some (match_hunk_header line)) else true).

Definition well_formed_headers (lines : list string) : bool :=
  forallb header_ok lines.

(** The lines of kind [t] of the hunk object [h], and of a list of hunk
    objects. *)
Definition hcount (t : LineType) (heap : list DiffHunk) (h : hunk_ref) : Z :=
  from_option (fun k => count_in t (lines k)) 0%Z (heap !! h).

Definition total (t : LineType) (heap : list DiffHunk) (hs : list hunk_ref)
  : Z :=
  foldr (fun h acc => (hcount t heap h + acc)%Z) 0%Z hs.

(** The counter a file object keeps for the lines of kind [t]. *)
Definition o_count (t : LineType) (o : FileObj) : Z :=
  match t with
  | added => o_addedLines o
  | removed => o_removedLines o
  | context => 0%Z
  end.

(** The lines of kind [t] of the open hunk, seen from the file object
    [i]: they count for the open file only. *)
Definition open_count (t : LineType) (st : State) (i : file_ref) : Z :=
  match currentFile st, currentHunk st with
  | Some f, Some h => if bool_decide (f = i) then hcount t (hunkHeap st) h
                      else 0%Z
  | _, _ => 0%Z
  end.

(** Between two lines of a text with well-formed headers: the open hunk
    belongs to an open file and is in no file's list yet, and the
    counters of every file object are the lines of its listed hunks plus
    those of the open hunk. *)
Record counted (st : State) : Prop := {
  counted_wf : wf st;
  counted_open :
    forall h, currentHunk st = Some h ->
      is_Some (currentFile st) /\
      Forall (fun o => h ∉ o_hunks o) (fileHeap st);
  counted_files :
    forall i o t, fileHeap st !! i = Some o -> t <> context ->
      o_count t o
      = (total t (hunkHeap st) (o_hunks o) + open_count t st i)%Z
}.

(** A text given by its lines: [ls.join('\n')]. *)
Definition text_of (ls : list string) : string :=
  join (String LF "") ls.

End DiffParser.

(** ** Parsed JSON documents *)

Module Json.

(** What [JSON.parse] returns.  The fields of an object are kept in the
    order of the text; a property read finds the first field of that name
    (an object that [JSON.parse] built has each name once).  A number is
    an integer here: the code only asks whether a number is zero. *)
Inductive value : Type :=
  | Null
  | Bool (b : bool)
  | Number (n : Z)
  | Str (s : string)
  | Array (xs : list value)
  | Object (fields : list (string * value)).

(** [data.k] on a value that is not [null]: [None] is [undefined].
    Primitives and arrays have no property of the names read here. *)
Definition get (data : value) (k : string) : option value :=
  match data with
  | Object fields =>
      match find (fun kv => String.eqb (fst kv) k) fields with
      | Some kv => Some (snd kv)
      | None => None
      end
  | _ => None
  end.

(** The truth value JavaScript gives [v] in a condition: [undefined],
    [null], [false], [0] and [''] are falsy, all else is truthy. *)
Definition truthy (v : option value) : bool :=
  match v with
  | None | Some Null => false
  | Some (Bool b) => b
  | Some (Number n) => negb (n =? 0)%Z
  | Some (Str s) => negb (String.eqb s "")
  | Some (Array _) | Some (Object _) => true
  end.

(** [Array.isArray(v)] *)
Definition isArray (v : option value) : bool :=
  match v with
  | Some (Array _) => true
  | _ => false
  end.

End Json.

(** ** policy-engine/src/types.ts *)

Module Types.

Inductive Severity : Type := allow | warn | block.

(** [Decision] is the same union of literals as [Severity]. *)
Definition Decision : Type := Severity.

Definition Severity_eqb (a b : Severity) : bool :=
  match a, b with
  | allow, allow | warn, warn | block, block => true
  | _, _ => false
  end.

Record RuleViolation : Type := {
  rule : string;
  file : string;
  severity : Severity;
  message : option string;
  line : option Z;
  column : option Z
}.

Record RuleResult : Type := {
  decision : Decision;
  violations : list RuleViolation
}.

Inductive PathMatchType : Type := include | exclude.

Inductive LineMatchType : Type := added | removed | both.

(** The discriminated union [Rule]: the constructor is the [type] tag and
    holds the fields of that interface. *)
Inductive RuleKind : Type :=
  | sensitive_file (patterns : list string)
  | large_change (threshold : Z)
  | suspicious_keywords (keywords : list string)
  | potential_secret (patterns : list string)
  | large_migration (threshold : Z) (migrationPatterns : list string)
  | path_pattern (pattern : string) (matchType : PathMatchType)
  | line_pattern (pattern : string) (matchType : LineMatchType)
  | file_size (maxSize : Z)
  | custom (evaluator : string) (config : Json.value).

(** [BaseRule] and the fields of the variant. *)
Record Rule : Type := {
  id : string;
  name : string;
  description : option string;
  enabled : bool;
  r_severity : Severity;
  kind : RuleKind
}.

Record Policy : Type := {
  p_id : string;
  p_name : string;
  p_description : option string;
  version : string;
  rules : list Rule;
  createdAt : option string;
  updatedAt : option string
}.

End Types.

(** ** policy-engine/src/evaluator.ts *)

(** The regular-expression engine of the host.  [RegExp_new p] is
    [new RegExp(p, 'i')]: [None] when the constructor raises its
    [SyntaxError] because [p] is not a valid pattern.  [RegExp_test] is
    [pattern.test(s)]; the expressions are built without the [g] and [y]
    flags, so a test reads and writes no state. *)
Class RegExpEngine : Type := {
  RegExp : Type;
  RegExp_new : string -> option RegExp;
  RegExp_test : RegExp -> string -> bool
}.

Module Evaluator.
Import Js Types.

Section WithEngine.
Context {E : RegExpEngine}.

(** [new RegExp(p, 'i')] *)
Definition compile (p : string) : result RegExp :=
  match RegExp_new p with
  | Some re => Ok re
  | None => Throw SyntaxError
  end.

(** [file.hunks.flatMap(hunk => hunk.lines)] *)
Definition all_lines (file : DiffParser.DiffFile) : list DiffParser.DiffLine :=
  concat (map DiffParser.lines (DiffParser.hunks file)).

Definition is_added (l : DiffParser.DiffLine) : bool :=
  DiffParser.LineType_eqb (DiffParser.type l) DiffParser.added.

Definition is_removed (l : DiffParser.DiffLine) : bool :=
  DiffParser.LineType_eqb (DiffParser.type l) DiffParser.removed.

(** The one-element array every matcher returns on a match; [fallback] is
    the message used when [rule.description] is falsy. *)
Definition report (rule : Rule) (file : DiffParser.DiffFile)
    (fallback : string) : list RuleViolation :=
  [ {| rule := id rule;
       file := DiffParser.path file;
       severity := r_severity rule;
       message := Some (or_else (description rule) fallback);
       line := None;
       column := None |} ].

(** [s.substring(0, 50) + (s.length > 50 ? '...' : '')] *)
Definition preview (s : string) : string :=
  substring_to 50 s ++ (if (50 <? Js.length s)%Z then "..." else "").

Definition evaluateSensitiveFileRule (r : Rule) (f : DiffParser.DiffFile)
  : result (list RuleViolation) :=
  match kind r with
  | sensitive_file patterns =>
      patterns' ← mapR compile patterns;
      let matches :=
        existsb (fun p => RegExp_test p (DiffParser.path f)) patterns' in
      if matches then
        Ok (report r f "Modification of sensitive file detected")
      else Ok []
  | _ => Ok []
  end.

Definition evaluateLargeChangeRule (r : Rule) (f : DiffParser.DiffFile)
  : result (list RuleViolation) :=
  match kind r with
  | large_change threshold =>
      let totalChanges :=
        (DiffParser.addedLines f + DiffParser.removedLines f)%Z in
      if (threshold <? totalChanges)%Z then
        Ok (report r f
              ("Large change detected: " ++ number_to_string totalChanges
               ++ " lines modified (threshold: "
               ++ number_to_string threshold ++ ")"))
      else Ok []
  | _ => Ok []
  end.

(** The keywords that the loop of [evaluateSuspiciousKeywordsRule] pushes
    onto [found]. *)
Definition found_keywords (keywords : list string) (f : DiffParser.DiffFile)
  : list string :=
  let addedContent :=
    map (fun l => toLowerCase (DiffParser.content l))
        (List.filter is_added (all_lines f)) in
  List.filter
    (fun keyword =>
       existsb (fun content => includes content (toLowerCase keyword))
               addedContent)
    keywords.

Definition evaluateSuspiciousKeywordsRule (r : Rule) (f : DiffParser.DiffFile)
  : result (list RuleViolation) :=
  match kind r with
  | suspicious_keywords keywords =>
      let found := found_keywords keywords f in
      if (0 <? List.length found)%nat then
        Ok (report r f
              ("Suspicious keywords found: " ++ join ", " found))
      else Ok []
  | _ => Ok []
  end.

(** The previews that the nested loops of [evaluatePotentialSecretRule]
    push onto [found]: one for each added line some pattern matches. *)
Definition found_secrets (patterns' : list RegExp) (f : DiffParser.DiffFile)
  : list string :=
  let addedContent :=
    map DiffParser.content (List.filter is_added (all_lines f)) in
  map preview
    (List.filter
       (fun line => existsb (fun p => RegExp_test p line) patterns')
       addedContent).

Definition evaluatePotentialSecretRule (r : Rule) (f : DiffParser.DiffFile)
  : result (list RuleViolation) :=
  match kind r with
  | potential_secret patterns =>
      patterns' ← mapR compile patterns;
      let found := found_secrets patterns' f in
      if (0 <? List.length found)%nat then
        Ok (report r f
              ("Potential secrets detected: "
               ++ number_to_string (Z.of_nat (List.length found))
               ++ " occurrence(s)"))
      else Ok []
  | _ => Ok []
  end.

Definition evaluateLargeMigrationRule (r : Rule) (f : DiffParser.DiffFile)
  : result (list RuleViolation) :=
  match kind r with
  | large_migration threshold migrationPatterns =>
      migrationPatterns' ← mapR compile migrationPatterns;
      let isMigration :=
        existsb (fun p => RegExp_test p (DiffParser.path f))
                migrationPatterns' in
      let totalChanges :=
        (DiffParser.addedLines f + DiffParser.removedLines f)%Z in
      if isMigration && (threshold <? totalChanges)%Z then
        Ok (report r f
              ("Large database migration detected: "
               ++ number_to_string totalChanges ++ " lines (threshold: "
               ++ number_to_string threshold ++ ")"))
      else Ok []
  | _ => Ok []
  end.

Definition evaluatePathPatternRule (r : Rule) (f : DiffParser.DiffFile)
  : result (list RuleViolation) :=
  match kind r with
  | path_pattern pattern matchType =>
      pattern' ← compile pattern;
      let matches := RegExp_test pattern' (DiffParser.path f) in
      if match matchType with
         | include => matches
         | exclude => negb matches
         end
      then Ok (report r f ("File path matches pattern: " ++ pattern))
      else Ok []
  | _ => Ok []
  end.

(** The previews that the loop of [evaluateLinePatternRule] pushes onto
    [found]: one for each line in scope that the pattern matches. *)
Definition found_lines (pattern' : RegExp) (matchType : LineMatchType)
    (f : DiffParser.DiffFile) : list string :=
  let linesToCheck :=
    List.filter
      (fun l =>
         match matchType with
         | added => is_added l
         | removed => is_removed l
         | both => true
         end)
      (all_lines f) in
  map (fun l => preview (DiffParser.content l))
      (List.filter (fun l => RegExp_test pattern' (DiffParser.content l))
                   linesToCheck).

Definition evaluateLinePatternRule (r : Rule) (f : DiffParser.DiffFile)
  : result (list RuleViolation) :=
  match kind r with
  | line_pattern pattern matchType =>
      pattern' ← compile pattern;
      let found := found_lines pattern' matchType f in
      if (0 <? List.length found)%nat then
        Ok (report r f
              ("Line pattern matched: "
               ++ number_to_string (Z.of_nat (List.length found))
               ++ " occurrence(s)"))
      else Ok []
  | _ => Ok []
  end.

Definition evaluateFileSizeRule (r : Rule) (f : DiffParser.DiffFile)
  : result (list RuleViolation) :=
  match kind r with
  | file_size maxSize =>
      let fileSize :=
        fold_left
          (fun size l => (size + Js.length (DiffParser.content l) + 1)%Z)
          (List.filter is_added (all_lines f)) 0%Z in
      if (maxSize <? fileSize)%Z then
        Ok (report r f
              ("File size exceeds limit: " ++ number_to_string fileSize
               ++ " bytes (max: " ++ number_to_string maxSize ++ " bytes)"))
      else Ok []
  | _ => Ok []
  end.

(** [evaluateRule]: the violations pushed are those of the matcher the
    [switch] selects. *)
Definition evaluateRule (r : Rule) (f : DiffParser.DiffFile)
  : result (list RuleViolation) :=
  if negb (enabled r) then Ok []
  else
    match kind r with
    | sensitive_file _ => evaluateSensitiveFileRule r f
    | large_change _ => evaluateLargeChangeRule r f
    | suspicious_keywords _ => evaluateSuspiciousKeywordsRule r f
    | potential_secret _ => evaluatePotentialSecretRule r f
    | large_migration _ _ => evaluateLargeMigrationRule r f
    | path_pattern _ _ => evaluatePathPatternRule r f
    | line_pattern _ _ => evaluateLinePatternRule r f
    | file_size _ => evaluateFileSizeRule r f
    | custom _ _ => Ok []
    end.

(** [violations.some(v => v.severity === s)] *)
Definition has_severity (s : Severity) (vs : list RuleViolation) : bool :=
  existsb (fun v => Severity_eqb (severity v) s) vs.

Definition decide_on (vs : list RuleViolation) : Decision :=
  let hasBlock := has_severity block vs in
  let hasWarn := has_severity warn vs in
  if hasBlock then block else if hasWarn then warn else allow.

(** The inner loop of [evaluateRules] for one file. *)
Definition evaluateFile (rules : list Rule) (f : DiffParser.DiffFile)
  : result (list RuleViolation) :=
  vss ← mapR (fun r => evaluateRule r f) rules;
  Ok (concat vss).

(** [evaluateRules(diffFiles, rules)]: the violations of every pair in
    file-major order; an exception of a matcher ends the call. *)
Definition evaluateRules (diffFiles : list DiffParser.DiffFile)
    (rules : list Rule) : result RuleResult :=
  vss ← mapR (evaluateFile rules) diffFiles;
  let violations := concat vss in
  Ok {| decision := decide_on violations; violations := violations |}.

(** The patterns [evaluateRule] hands to [new RegExp] for a rule. *)
Definition rule_patterns (r : Rule) : list string :=
  match kind r with
  | sensitive_file ps | potential_secret ps | large_migration _ ps => ps
  | path_pattern p _ | line_pattern p _ => [p]
  | _ => []
  end.

(** Some configured pattern of the rule is not a valid regular
    expression. *)
Definition has_invalid_pattern (r : Rule) : bool :=
  existsb (fun p => negb (is_Ok (compile p))) (rule_patterns r).

Definition is_custom (r : Rule) : bool :=
  match kind r with
  | custom _ _ => true
  | _ => false
  end.

End WithEngine.

(** An engine for the examples.  It agrees with JavaScript on the patterns
    the examples use: a pattern made of letters, digits, [_] and [-] only
    is valid and, under the [i] flag, matches the strings that contain it
    up to case; the pattern ["("] is invalid (unterminated group).  Every
    other pattern is refused here, whatever JavaScript does with it. *)
Definition is_plain (c : ascii) : bool :=
  let n := nat_of_ascii c in
  is_digit c
  || ((65 <=? n)%nat && (n <=? 90)%nat)
  || ((97 <=? n)%nat && (n <=? 122)%nat)
  || Ascii.eqb c "_" || Ascii.eqb c "-".

Definition plain_engine : RegExpEngine :=
  {| RegExp := string;
     RegExp_new := fun p =>
       if forallb is_plain (list_ascii_of_string p)
       then Some (toLowerCase p) else None;
     RegExp_test := fun re s => includes (toLowerCase s) re |}.

End Evaluator.

(** ** policy-engine/src/default-rules.ts *)

Module DefaultRules.
Import Types.

(** The double quote, which the patterns below contain. *)
Definition dq : string := String (ascii_of_nat 34) "".

Definition defaultRules : list Rule :=
  [
  {| id := "sensitive-file-default";
     name := "Sensitive File Detection";
     description := Some "Blocks modification of sensitive files like .env, .key, secrets files";
     enabled := true;
     r_severity := block;
     kind :=
       sensitive_file
         [ "\.env$";
           "\.env\.";
           "secrets?\.(json|yaml|yml|toml)$";
           "config/secrets?";
           "\.pem$";
           "\.key$";
           "\.p12$";
           "\.pfx$";
           "id_rsa$";
           "id_dsa$";
           "\.credentials$";
           "\.aws$";
           "\.gcp$";
           "\.azure$" ] |};
  {| id := "large-change-default";
     name := "Large Change Warning";
     description := Some "Warns on changes larger than 1000 lines of code";
     enabled := true;
     r_severity := warn;
     kind :=
       large_change 1000 |};
  {| id := "suspicious-keywords-default";
     name := "Suspicious Keywords Detection";
     description := Some "Warns on potentially dangerous code patterns";
     enabled := true;
     r_severity := warn;
     kind :=
       suspicious_keywords
         [ "eval(";
           "exec(";
           "dangerouslySetInnerHTML";
           "innerHTML";
           "document.write";
           "Function(";
           "setTimeout(";
           "setInterval(";
           "XMLHttpRequest";
           "fetch(";
           "localStorage";
           "sessionStorage";
           "cookie";
           "document.cookie" ] |};
  {| id := "potential-secret-default";
     name := "Potential Secret Detection";
     description := Some "Blocks potential secrets like API keys, passwords, tokens";
     enabled := true;
     r_severity := block;
     kind :=
       potential_secret
         [ ("(?:api[_-]?key|apikey)\s*[=:]\s*['" ++ dq ++ "]?[a-zA-Z0-9_-]{20,}['" ++ dq ++ "]?")%string;
           ("(?:secret|password|passwd|pwd)\s*[=:]\s*['" ++ dq ++ "]?[a-zA-Z0-9_-]{12,}['" ++ dq ++ "]?")%string;
           "(?:token|bearer)\s+[a-zA-Z0-9_-]{20,}";
           ("(?:aws[_-]?access[_-]?key[_-]?id|aws[_-]?secret[_-]?access[_-]?key)\s*[=:]\s*['" ++ dq ++ "]?[a-zA-Z0-9_+/=]{20,}['" ++ dq ++ "]?")%string;
           ("(?:private[_-]?key|privatekey)\s*[=:]\s*['" ++ dq ++ "]?-----BEGIN")%string;
           "(?:mongodb|postgres|mysql|redis)://[^:]+:[^@]+@";
           "(?:ghp_|gho_|ghu_|ghs_|ghr_)[a-zA-Z0-9]{36}";
           "(?:xox[baprs]-)[a-zA-Z0-9-]{10,}";
           "sk_[a-zA-Z0-9]{32,}";
           "pk_[a-zA-Z0-9]{32,}" ] |};
  {| id := "large-migration-default";
     name := "Large Migration Warning";
     description := Some "Warns on database migrations larger than 100 lines";
     enabled := true;
     r_severity := warn;
     kind :=
       large_migration 100
         [ "migrations?/.*\.(sql|ts|js)$";
           ".*migration.*\.(sql|ts|js)$";
           "schema\.(sql|ts|js)$" ] |}
  ].

End DefaultRules.

(** ** policy-engine/src/policy.ts *)

Module PolicyManager.
Import Js Types.

(** The argument of [loadPolicy]: [string | object]. *)
Inductive PolicyInput : Type :=
  | JsonText (json : string)
  | JsonObject (data : Json.value).

(** [data.k]: reading a property of [null] raises a [TypeError]. *)
Definition read (data : Json.value) (k : string)
  : result (option Json.value) :=
  match data with
  | Json.Null => Throw TypeError
  | _ => Ok (Json.get data k)
  end.

Definition invalid_format : exn :=
  Error "Invalid policy format: missing required fields".

Section Load.
(** [JSON.parse]: [None] when it raises its [SyntaxError]. *)
Variable JSON_parse : string -> option Json.value.

(** [loadPolicy(json)]: the operands of [||] are read from left to right
    and the first truthy one ends the test.  The document is returned as
    it is ([data as Policy] is a cast). *)
Definition loadPolicy (json : PolicyInput) : result Json.value :=
  data ←
    match json with
    | JsonText s =>
        match JSON_parse s with
        | Some d => Ok d
        | None => Throw SyntaxError
        end
    | JsonObject d => Ok d
    end;
  v_id ← read data "id";
  if negb (Json.truthy v_id) then Throw invalid_format else
  v_name ← read data "name";
  if negb (Json.truthy v_name) then Throw invalid_format else
  v_version ← read data "version";
  if negb (Json.truthy v_version) then Throw invalid_format else
  v_rules ← read data "rules";
  if negb (Json.isArray v_rules) then Throw invalid_format else
  Ok data.

End Load.

Section WithClock.
(** [clock n] is what the [n]-th evaluation of
    [new Date().toISOString()] inside the call returns. *)
Variable clock : nat -> string.

(** [createPolicy(id, name, rules, description?, version = '1.0.0')] *)
Definition createPolicy (id name : string) (rules : list Rule)
    (description : option string) (version : option string) : Policy :=
  {| p_id := id;
     p_name := name;
     p_description := description;
     version := match version with Some v => v | None => "1.0.0" end;
     rules := rules;
     createdAt := Some (clock 0);
     updatedAt := Some (clock 1) |}.

(** [createDefaultPolicy(projectId?)] *)
Definition createDefaultPolicy (projectId : option string) : Policy :=
  createPolicy
    (match projectId with
     | Some p => if String.eqb p "" then "default" else ("default-" ++ p)%string
     | None => "default"
     end)
    "Default Neurcode Policy"
    DefaultRules.defaultRules
    (Some "Default policy with built-in security and quality rules")
    (Some "1.0.0").

(** A [Map<string, Rule>]: the entries in insertion order. *)
Definition RuleMap : Type := list (string * Rule).

(** [ruleMap.set(k, v)]: an existing key keeps its place and takes the new
    value; a new key goes to the end. *)
Fixpoint map_set (k : string) (v : Rule) (m : RuleMap) : RuleMap :=
  match m with
  | [] => [(k, v)]
  | (k', v') :: m' =>
      if String.eqb k' k then (k', v) :: m'
      else (k', v') :: map_set k v m'
  end.

(** The two nested loops of [mergePolicies]. *)
Definition collect (policies : list Policy) : RuleMap :=
  fold_left
    (fun m policy =>
       fold_left (fun m rule => map_set (id rule) rule m) (rules policy) m)
    policies [].

(** [mergePolicies(...policies)] *)
Definition mergePolicies (policies : list Policy) : Policy :=
  match policies with
  | [] => createDefaultPolicy None
  | mergedPolicy :: _ =>
      {| p_id := p_id mergedPolicy;
         p_name := p_name mergedPolicy;
         p_description := p_description mergedPolicy;
         version := version mergedPolicy;
         rules := map snd (collect policies);
         createdAt := createdAt mergedPolicy;
         updatedAt := Some (clock 0) |}
  end.

End WithClock.

(** One more id seen: it is noted unless it was noted before. *)
Definition see (acc : list string) (k : string) : list string :=
  if existsb (String.eqb k) acc then acc else acc ++ [k].

(** The ids of a list in the order in which each is first seen. *)
Definition first_seen (ks : list string) : list string :=
  fold_left see ks [].

(** [ruleMap.get(k)] *)
Definition map_get (k : string) (m : RuleMap) : option Rule :=
  snd <$> find (fun kv => String.eqb (fst kv) k) m.

(** What the loops of [mergePolicies] do to a map, rule after rule. *)
Definition set_all (rs : list Rule) (m : RuleMap) : RuleMap :=
  fold_left (fun m rule => map_set (id rule) rule m) rs m.

(** The last rule of [rs] whose id is [k]. *)
Definition last_with_id (k : string) (rs : list Rule) : option Rule :=
  find (fun r => String.eqb (id r) k) (rev rs).

End PolicyManager.

(** ** Inputs of the examples *)

Module Examples.
Import Js Types.

Definition added_line (s : string) : DiffParser.DiffLine :=
  {| DiffParser.type := DiffParser.added; DiffParser.content := s;
     DiffParser.lineNumber := None |}.

(** A new file [.env] with two added lines. *)
Definition env_file : DiffParser.DiffFile :=
  {| DiffParser.path := ".env"; DiffParser.oldPath := None;
     DiffParser.changeType := DiffParser.add;
     DiffParser.addedLines := 2; DiffParser.removedLines := 0;
     DiffParser.hunks :=
       [ {| DiffParser.oldStart := 0; DiffParser.oldLines := 0;
            DiffParser.newStart := 1; DiffParser.newLines := 2;
            DiffParser.lines := [added_line "A=1"; added_line "B=2"] |} ] |}.

(** A script with two added lines, each with a suspicious keyword. *)
Definition script_file : DiffParser.DiffFile :=
  {| DiffParser.path := "script.js"; DiffParser.oldPath := None;
     DiffParser.changeType := DiffParser.modify;
     DiffParser.addedLines := 2; DiffParser.removedLines := 0;
     DiffParser.hunks :=
       [ {| DiffParser.oldStart := 1; DiffParser.oldLines := 0;
            DiffParser.newStart := 1; DiffParser.newLines := 2;
            DiffParser.lines :=
              [ added_line "eval(userInput);";
                added_line "element.innerHTML = userContent;" ] |} ] |}.

(** A file with 1500 added and 200 removed lines and no hunk, as the
    tests of the evaluator build it. *)
Definition large_file : DiffParser.DiffFile :=
  {| DiffParser.path := "large.js"; DiffParser.oldPath := None;
     DiffParser.changeType := DiffParser.modify;
     DiffParser.addedLines := 1500; DiffParser.removedLines := 200;
     DiffParser.hunks := [] |}.

(** A sensitive-file rule whose only pattern is an unterminated group. *)
Definition broken_rule (enabled : bool) : Rule :=
  {| id := "broken"; name := "Broken pattern"; description := None;
     enabled := enabled; r_severity := block;
     kind := sensitive_file ["("] |}.

(** A sensitive-file rule with a valid pattern that matches [.env]. *)
Definition env_rule : Rule :=
  {| id := "env"; name := "Env files"; description := None;
     enabled := true; r_severity := block;
     kind := sensitive_file ["env"] |}.

(** A large-change rule without description. *)
Definition size_rule : Rule :=
  {| id := "size"; name := "Large change"; description := None;
     enabled := true; r_severity := warn;
     kind := large_change 1000 |}.

(** The keywords rule of the default catalogue, which has a description. *)
Definition default_keywords_rule : Rule :=
  {| id := "suspicious-keywords-default";
     name := "Suspicious Keywords Detection";
     description := Some "Warns on potentially dangerous code patterns";
     enabled := true;
     r_severity := warn;
     kind :=
       suspicious_keywords
         [ "eval("; "exec("; "dangerouslySetInnerHTML"; "innerHTML";
           "document.write"; "Function("; "setTimeout("; "setInterval(";
           "XMLHttpRequest"; "fetch("; "localStorage"; "sessionStorage";
           "cookie"; "document.cookie" ] |}.

(** The large-change rule of the default catalogue. *)
Definition default_size_rule : Rule :=
  {| id := "large-change-default"; name := "Large Change Warning";
     description := Some "Warns on changes larger than 1000 lines of code";
     enabled := true; r_severity := warn; kind := large_change 1000 |}.

(** A keywords rule without description. *)
Definition plain_keywords_rule : Rule :=
  {| id := "kw"; name := "Keywords"; description := None;
     enabled := true; r_severity := warn;
     kind := suspicious_keywords ["eval("; "fetch("; "innerHTML"] |}.

(** The violation [plain_keywords_rule] reports for [script_file]. *)
Definition keywords_violation : RuleViolation :=
  {| rule := "kw"; file := "script.js"; severity := warn;
     message := Some "Suspicious keywords found: eval(, innerHTML";
     line := None; column := None |}.

(** What [size_rule] and [env_rule] report for [large_file] and
    [env_file]. *)
Definition two_violations : RuleResult :=
  {| decision := block;
     violations :=
       [ {| rule := "size"; file := "large.js"; severity := warn;
            message :=
              Some "Large change detected: 1700 lines modified (threshold: 1000)";
            line := None; column := None |};
         {| rule := "env"; file := ".env"; severity := block;
            message := Some "Modification of sensitive file detected";
            line := None; column := None |} ] |}.

(** A custom rule, enabled and blocking. *)
Definition custom_rule : Rule :=
  {| id := "mine"; name := "Custom"; description := None;
     enabled := true; r_severity := block;
     kind := custom "myEvaluator" (Json.Object []) |}.

(** A diff that adds the file [.env] with two lines. *)
Definition env_text : string :=
  DiffParser.text_of
    [ "diff --git a/.env b/.env"; "new file mode 100644";
      "index 0000000..abc1234"; "--- /dev/null"; "+++ b/.env";
      "@@ -0,0 +1,2 @@"; "+A=1"; "+B=2"; "" ].

(** A diff that modifies [file.js]: a hunk with two context lines and
    one added line. *)
Definition modify_text : string :=
  DiffParser.text_of
    [ "diff --git a/file.js b/file.js"; "index abc1234..def5678 100644";
      "--- a/file.js"; "+++ b/file.js"; "@@ -1,2 +1,3 @@";
      " console.log('hello');"; "+const y = 2;"; " const z = 3;"; "" ].

Definition modify_file : DiffParser.DiffFile :=
  {| DiffParser.path := "file.js"; DiffParser.oldPath := None;
     DiffParser.changeType := DiffParser.modify;
     DiffParser.addedLines := 1; DiffParser.removedLines := 0;
     DiffParser.hunks :=
       [ {| DiffParser.oldStart := 1; DiffParser.oldLines := 2;
            DiffParser.newStart := 1; DiffParser.newLines := 3;
            DiffParser.lines :=
              [ {| DiffParser.type := DiffParser.context;
                   DiffParser.content := "console.log('hello');";
                   DiffParser.lineNumber := None |};
                added_line "const y = 2;";
                {| DiffParser.type := DiffParser.context;
                   DiffParser.content := "const z = 3;";
                   DiffParser.lineNumber := None |} ] |} ] |}.

(** The hunk of [modify_file]. *)
Definition modify_hunk : DiffParser.DiffHunk :=
  {| DiffParser.oldStart := 1; DiffParser.oldLines := 2;
     DiffParser.newStart := 1; DiffParser.newLines := 3;
     DiffParser.lines :=
       [ {| DiffParser.type := DiffParser.context;
            DiffParser.content := "console.log('hello');";
            DiffParser.lineNumber := None |};
         added_line "const y = 2;";
         {| DiffParser.type := DiffParser.context;
            DiffParser.content := "const z = 3;";
            DiffParser.lineNumber := None |} ] |}.

(** The diff of a pure rename, as the tests of the parser give it. *)
Definition rename_text : string :=
  DiffParser.text_of
    [ "diff --git a/oldname.js b/newname.js"; "similarity index 100%";
      "rename from oldname.js"; "rename to newname.js"; "" ].

Definition rename_file : DiffParser.DiffFile :=
  {| DiffParser.path := "newname.js";
     DiffParser.oldPath := Some "oldname.js";
     DiffParser.changeType := DiffParser.rename;
     DiffParser.addedLines := 0; DiffParser.removedLines := 0;
     DiffParser.hunks := [] |}.

(** A document whose four fields are present and whose id is the empty
    string. *)
Definition empty_id_document : Json.value :=
  Json.Object
    [ ("id", Json.Str ""); ("name", Json.Str "Team policy");
      ("version", Json.Str "1.0.0"); ("rules", Json.Array []) ].

(** A well-formed document. *)
Definition team_document : Json.value :=
  Json.Object
    [ ("id", Json.Str "team"); ("name", Json.Str "Team policy");
      ("version", Json.Str "1.0.0"); ("rules", Json.Array []) ].

(** A [JSON.parse] for calls that pass an object: it is never asked. *)
Definition no_text : string -> option Json.value := fun _ => None.

Definition noon : nat -> string := fun _ => "2024-01-01T12:00:00.000Z".

(** The large-change rule of the default catalogue, redeclared as
    blocking. *)
Definition strict_size_rule : Rule :=
  {| id := "large-change-default"; name := "Large Change Block";
     description := None; enabled := true; r_severity := block;
     kind := large_change 1000 |}.

Definition base_policy : Policy :=
  {| p_id := "base"; p_name := "Base"; p_description := None;
     version := "1.0.0"; rules := [env_rule; size_rule; custom_rule];
     createdAt := None; updatedAt := None |}.

Definition override_policy : Policy :=
  {| p_id := "override"; p_name := "Override"; p_description := None;
     version := "2.0.0";
     rules :=
       [ {| id := "size"; name := "Large change"; description := None;
            enabled := true; r_severity := block;
            kind := large_change 500 |};
         plain_keywords_rule ];
     createdAt := None; updatedAt := None |}.

End Examples.

(** ** Where the parts of a parsed file come from *)

Module Provenance.
Import Js DiffParser.

(** Some line of [seen] is a file header whose paths give the path, the
    old path and, unless a later mode line set it to [add] or [delete],
    the change type. *)
Definition header_describes (seen : list string) (p : string)
    (op : option string) (c : ChangeType) : Prop :=
  exists line oldP newP,
    line ∈ seen /\ match_file_header line = Some (oldP, newP) /\
    p = o_path (new_file oldP newP) /\
    op = o_oldPath (new_file oldP newP) /\
    (c = o_changeType (new_file oldP newP) \/ c = add \/ c = delete).

(** The first character of a content line of kind [t]. *)
Definition marker (t : LineType) : string :=
  match t with
  | added => "+"
  | removed => "-"
  | context => " "
  end.

(** The recorded line [l] is some line of [seen] without its marker; an
    added line is no [+++] line and a removed line no [---] line. *)
Definition line_from (seen : list string) (l : DiffLine) : Prop :=
  exists s,
    s ∈ seen /\ startsWith s (marker (type l)) = true /\
    content l = substring_from 1 s /\ lineNumber l = None /\
    (type l = added -> startsWith s "+++" = false) /\
    (type l = removed -> startsWith s "---" = false).

(** The numbers of the hunk are those of some hunk header of [seen], and
    its lines are lines of [seen]. *)
Definition hunk_from (seen : list string) (k : DiffHunk) : Prop :=
  (exists s g,
     s ∈ seen /\ match_hunk_header s = Some g /\
     oldStart k = oldStart (new_hunk g) /\
     oldLines k = oldLines (new_hunk g) /\
     newStart k = newStart (new_hunk g) /\
     newLines k = newLines (new_hunk g)) /\
  Forall (line_from seen) (lines k).

Definition file_obj_from (seen : list string) (o : FileObj) : Prop :=
  header_describes seen (o_path o) (o_oldPath o) (o_changeType o) /\
  (0 <= o_addedLines o)%Z /\ (0 <= o_removedLines o)%Z.

(** What holds of the two heaps after the lines [seen]. *)
Definition heaps_from (seen : list string) (st : State) : Prop :=
  Forall (file_obj_from seen) (fileHeap st) /\
  Forall (hunk_from seen) (hunkHeap st).

End Provenance.

(** ** diff-parser/src/index.ts: the summary *)

Module DiffSummary.
Import Js DiffParser.

(** An element of [DiffSummary.files]. *)
Record FileSummary : Type := {
  s_path : string;
  s_changeType : ChangeType;
  s_added : Z;
  s_removed : Z
}.

Record DiffSummary : Type := {
  totalFiles : Z;
  totalAdded : Z;
  totalRemoved : Z;
  s_files : list FileSummary
}.

(** [getDiffSummary(files)] *)
Definition getDiffSummary (files : list DiffFile) : DiffSummary :=
  let totalAdded :=
    fold_left (fun sum file => (sum + addedLines file)%Z) files 0%Z in
  let totalRemoved :=
    fold_left (fun sum file => (sum + removedLines file)%Z) files 0%Z in
  {| totalFiles := Z.of_nat (List.length files);
     totalAdded := totalAdded;
     totalRemoved := totalRemoved;
     s_files :=
       map (fun file =>
              {| s_path := path file; s_changeType := changeType file;
                 s_added := addedLines file;
                 s_removed := removedLines file |})
           files |}.

(** The sum of a list of numbers. *)
Definition sum_list (xs : list Z) : Z := foldr Z.add 0%Z xs.

(** The lines of all hunks of all files. *)
Definition lines_of (files : list DiffFile) : list DiffLine :=
  concat (map (fun f => concat (map lines (hunks f))) files).

(** The state of the parser between two lines, as far as the result list
    goes: the files pushed so far, and one more if a file is open. *)
Definition pending (st : State) : nat :=
  List.length (files st)
  + match currentFile st with Some _ => 1 | None => 0 end.

(** The lines that start like a file header. *)
Definition marker_lines (lines : list string) : list string :=
  List.filter (fun line => startsWith line "diff --git") lines.

End DiffSummary.

(** ** Header lines as git writes them *)

Module Headers.
Import Js DiffParser.

(** [diff --git a/<old> b/<new>] *)
Definition file_header_line (oldP newP : string) : string :=
  "diff --git a/" ++ oldP ++ " b/" ++ newP.



Definition no_line_terminator (s : string) : bool :=
  forallb (fun c => negb (is_line_terminator c)) (list_ascii_of_string s).

End Headers.

(** ** Notions used to state what [evaluateRules] returns *)

Module Verdict.
Import Js Types Evaluator.

(** The stricter of two decisions: [allow] below [warn] below [block]. *)
Definition stricter (a b : Decision) : Decision :=
  match a, b with
  | block, _ | _, block => block
  | warn, _ | _, warn => warn
  | allow, allow => allow
  end.

Section WithEngine.
Context {E : RegExpEngine}.

(** The violations of one rule for one file, none if the matcher
    raises. *)
Definition violations_of (r : Rule) (f : DiffParser.DiffFile)
  : list RuleViolation :=
  match evaluateRule r f with
  | Ok vs => vs
  | Throw _ => []
  end.

(** All pairs in file-major, rule-minor order. *)
Definition all_violations (files : list DiffParser.DiffFile)
    (rules : list Rule) : list RuleViolation :=
  concat (map (fun f => concat (map (fun r => violations_of r f) rules))
              files).

(** No enabled rule of the list has a pattern that does not compile. *)
Definition patterns_valid (rules : list Rule) : bool :=
  forallb (fun r => negb (enabled r && has_invalid_pattern r)) rules.

End WithEngine.
End Verdict.

(** ** policy-engine/src/policy.ts: validation *)

Module Validate.
Import Js Types PolicyManager.

(** The object [validatePolicy] returns. *)
Record ValidationResult : Type := {
  valid : bool;
  errors : list string
}.

(** [errors.push(msg)] under [if (!v)]. *)
Definition unless (v : option Json.value) (msg : string) : list string :=
  if negb (Json.truthy v) then [msg] else [].

Definition rule_message (i : nat) (what : string) : string :=
  "Rule at index " ++ number_to_string (Z.of_nat i) ++ " must have " ++ what.

(** The body of the loop for [policy.rules[i]]: reading a property of a
    [null] element raises. *)
Definition validate_rule (i : nat) (rule : Json.value)
  : result (list string) :=
  v_id ← read rule "id";
  v_name ← read rule "name";
  v_type ← read rule "type";
  v_severity ← read rule "severity";
  Ok (unless v_id (rule_message i "an id")
      ++ unless v_name (rule_message i "a name")
      ++ unless v_type (rule_message i "a type")
      ++ unless v_severity (rule_message i "a severity")).

(** The loop from index [i] on. *)
Fixpoint validate_rules (i : nat) (rules : list Json.value)
  : result (list string) :=
  match rules with
  | [] => Ok []
  | rule :: rest =>
      e ← validate_rule i rule;
      es ← validate_rules (S i) rest;
      Ok (e ++ es)
  end.

(** [validatePolicy(policy)] on the object it is given, whatever its
    shape. *)
Definition validatePolicy (policy : Json.value) : result ValidationResult :=
  v_id ← read policy "id";
  v_name ← read policy "name";
  v_version ← read policy "version";
  v_rules ← read policy "rules";
  rule_errors ←
    match v_rules with
    | Some (Json.Array rules) => validate_rules 0 rules
    | _ => Ok ["Policy must have a rules array"]
    end;
  let errors :=
    unless v_id "Policy must have an id"
    ++ unless v_name "Policy must have a name"
    ++ unless v_version "Policy must have a version"
    ++ rule_errors in
  Ok {| valid := (List.length errors =? 0)%nat; errors := errors |}.

(** *** A typed policy as the object it is at run time *)

Definition severity_text (s : Severity) : string :=
  match s with
  | allow => "allow"
  | warn => "warn"
  | block => "block"
  end.

Definition strings (xs : list string) : Json.value :=
  Json.Array (map Json.Str xs).

(** The [type] tag and the fields of the variant. *)
Definition kind_fields (k : RuleKind) : list (string * Json.value) :=
  match k with
  | sensitive_file patterns =>
      [("type", Json.Str "sensitive-file"); ("patterns", strings patterns)]
  | large_change threshold =>
      [("type", Json.Str "large-change"); ("threshold", Json.Number threshold)]
  | suspicious_keywords keywords =>
      [("type", Json.Str "suspicious-keywords");
       ("keywords", strings keywords)]
  | potential_secret patterns =>
      [("type", Json.Str "potential-secret"); ("patterns", strings patterns)]
  | large_migration threshold migrationPatterns =>
      [("type", Json.Str "large-migration");
       ("threshold", Json.Number threshold);
       ("migrationPatterns", strings migrationPatterns)]
  | path_pattern pattern matchType =>
      [("type", Json.Str "path-pattern"); ("pattern", Json.Str pattern);
       ("matchType",
        Json.Str match matchType with
                 | include => "include"
                 | exclude => "exclude"
                 end)]
  | line_pattern pattern matchType =>
      [("type", Json.Str "line-pattern"); ("pattern", Json.Str pattern);
       ("matchType",
        Json.Str match matchType with
                 | added => "added"
                 | removed => "removed"
                 | both => "both"
                 end)]
  | file_size maxSize =>
      [("type", Json.Str "file-size"); ("maxSize", Json.Number maxSize)]
  | custom evaluator config =>
      [("type", Json.Str "custom"); ("evaluator", Json.Str evaluator);
       ("config", config)]
  end.

(** An optional property: absent when [undefined]. *)
Definition optional (k : string) (v : option string)
  : list (string * Json.value) :=
  match v with
  | Some s => [(k, Json.Str s)]
  | None => []
  end.

Definition rule_value (r : Rule) : Json.value :=
  Json.Object
    ([("id", Json.Str (id r)); ("name", Json.Str (name r))]
     ++ optional "description" (description r)
     ++ [("enabled", Json.Bool (enabled r));
         ("severity", Json.Str (severity_text (r_severity r)))]
     ++ kind_fields (kind r)).

Definition policy_value (p : Policy) : Json.value :=
  Json.Object
    ([("id", Json.Str (p_id p)); ("name", Json.Str (p_name p))]
     ++ optional "description" (p_description p)
     ++ [("version", Json.Str (version p));
         ("rules", Json.Array (map rule_value (rules p)))]
     ++ optional "createdAt" (createdAt p)
     ++ optional "updatedAt" (updatedAt p)).

(** What [validatePolicy] asks of a typed policy. *)
Definition well_named (p : Policy) : bool :=
  negb (String.eqb (p_id p) "") && negb (String.eqb (p_name p) "")
  && negb (String.eqb (version p) "")
  && forallb (fun r => negb (String.eqb (id r) "")
                       && negb (String.eqb (name r) ""))
             (rules p).

End Validate.

(** ** cli/src/rules.ts and cli/src/commands/check.ts *)

Module Cli.
Import Js Types.

(** The code units below 256 that [trim] removes: tab, line feed,
    vertical tab, form feed, carriage return, space and no-break space. *)
Definition is_white_space (c : ascii) : bool :=
  let n := nat_of_ascii c in
  ((n =? 9) || (n =? 10) || (n =? 11) || (n =? 12) || (n =? 13)
   || (n =? 32) || (n =? 160))%nat.

Fixpoint trimStart (s : string) : string :=
  match s with
  | String c s' => if is_white_space c then trimStart s' else s
  | EmptyString => EmptyString
  end.

Definition reverse (s : string) : string :=
  string_of_list_ascii (rev (list_ascii_of_string s)).

Definition trimEnd (s : string) : string := reverse (trimStart (reverse s)).

(** [s.trim()] *)
Definition trim (s : string) : string := trimEnd (trimStart s).

Definition exit_code (d : Decision) : Z :=
  match d with
  | block => 2
  | warn => 1
  | allow => 0
  end.

Section WithEngine.
Context {E : RegExpEngine}.
Variable clock : nat -> string.

(** rules.ts, [evaluateRules(diffFiles)]: the rules of the default
    policy. *)
Definition evaluateRules (diffFiles : list DiffParser.DiffFile)
  : result RuleResult :=
  let defaultPolicy := PolicyManager.createDefaultPolicy clock None in
  Evaluator.evaluateRules diffFiles (rules defaultPolicy).

(** [checkCommand(options)]: the code the process exits with.  What the
    call gets from outside is given: [git] is the outcome of the
    [execSync] calls that capture the diff, and [api] that of the online
    mode, [None] when [options.online] is not set, otherwise the decision
    of the response or the exception of one of its steps.  Printing
    changes no exit code. *)
Definition checkCommand (git : result string)
    (api : option (result Decision)) : Z :=
  match git with
  | Throw _ => 1
  | Ok diffText =>
      if String.eqb (trim diffText) "" then 0 else
      match api with
      | Some (Ok d) => exit_code d
      | _ =>
          match DiffParser.parseDiff diffText with
          | None => 1
          | Some diffFiles =>
              if (List.length diffFiles =? 0)%nat then 0 else
              match evaluateRules diffFiles with
              | Ok result => exit_code (decision result)
              | Throw _ => 1
              end
          end
      end
  end.

End WithEngine.

End Cli.

(** ** github-action/src/index.ts *)

Module Action.
Import Js Types.

Record AnalysisResult : Type := {
  decision : Decision;
  violations : list RuleViolation;
  summary : DiffSummary.DiffSummary;
  diffText : string
}.

Section WithEngine.
Context {E : RegExpEngine}.
Variable clock : nat -> string.

(** [analyzeDiff(diffText)]: what it returns, [None] for [null], and
    whether it has called [core.setFailed]. *)
Definition analyzeDiff (text : string) : option AnalysisResult * bool :=
  if String.eqb (Cli.trim text) "" then (None, false) else
  match DiffParser.parseDiff text with
  | None => (None, true)
  | Some diffFiles =>
      if (List.length diffFiles =? 0)%nat then (None, false) else
      let summary := DiffSummary.getDiffSummary diffFiles in
      let defaultPolicy := PolicyManager.createDefaultPolicy clock None in
      match Evaluator.evaluateRules diffFiles
              (rules defaultPolicy) with
      | Ok result =>
          (Some {| decision := Types.decision result;
                   violations := Types.violations result;
                   summary := summary;
                   diffText := text |}, false)
      | Throw _ => (None, true)
      end
  end.

End WithEngine.

Inductive Conclusion : Type := success | failure | neutral.

(** [createStatusCheck]: the conclusion of the check run. *)
Definition conclusion (d : Decision) (failOnWarn : bool) : Conclusion :=
  if Severity_eqb d block then failure
  else if Severity_eqb d warn && failOnWarn then failure
  else if Severity_eqb d warn then neutral
  else success.

(** The end of [run]: whether the job is marked as failed. *)
Definition fails (d : Decision) (failOnWarn : bool) : bool :=
  if Severity_eqb d block then true
  else if Severity_eqb d warn && failOnWarn then true
  else false.

End Action.

(** ** Whether a rule reports a file *)

Module Kinds.
Import Js Types Evaluator.

Section WithEngine.
Context {E : RegExpEngine}.

(** [evaluateRule(rule, file)] returns a violation. *)
Definition reports (r : Rule) (f : DiffParser.DiffFile) : bool :=
  match evaluateRule r f with
  | Ok (_ :: _) => true
  | _ => false
  end.

End WithEngine.

End Kinds.

(** An enabled rule of a given kind, for the examples. *)
Module KindExamples.
Import Js Types.

Definition rule_of (k : RuleKind) : Rule :=
  {| id := "r"; name := "Rule"; description := None; enabled := true;
     r_severity := warn; kind := k |}.

End KindExamples.

(** * Properties of the diff parser *)

Section ParserFacts.
Import Js DiffParser.

Lemma wf_initial : wf initial.
Proof.
  split; simpl; try constructor; intros; discriminate.
Qed.

Lemma wf_update_file st f g :
  wf st ->
  (forall o, Forall (fun h => h < List.length (hunkHeap st)) (o_hunks o) ->
             Forall (fun h => h < List.length (hunkHeap st)) (o_hunks (g o))) ->
  wf (update_file f g st).
Proof.
  intros [Hf Hcf Hch Hh] Hg. split; simpl.
  - by rewrite length_alter.
  - intros f' Hf'. rewrite length_alter. by apply Hcf.
  - exact Hch.
  - apply Forall_alter; [exact Hh|]. intros o _. apply Hg.
Qed.

Lemma wf_update_hunk st h g : wf st -> wf (update_hunk h g st).
Proof.
  intros [Hf Hcf Hch Hh]. split; simpl; rewrite ?length_alter; assumption.
Qed.

Lemma wf_push_hunk st f h :
  wf st -> currentHunk st = Some h -> wf (push_hunk f h st).
Proof.
  intros Hwf Hh. apply wf_update_file; [exact Hwf|].
  intros o Ho. simpl. apply Forall_app. split; [exact Ho|].
  constructor; [|constructor]. by apply (wf_currentHunk st Hwf).
Qed.

Lemma wf_push_file st f :
  wf st -> currentFile st = Some f -> wf (push_file f st).
Proof.
  intros [Hf Hcf Hch Hh] Hc. split; simpl; try assumption.
  apply Forall_app. split; [exact Hf|].
  constructor; [|constructor]. by apply Hcf.
Qed.

Lemma wf_open_file st oldP newP :
  wf st -> wf (open_file (new_file oldP newP) st).
Proof.
  intros [Hf Hcf Hch Hh]. split; simpl.
  - rewrite length_app. simpl. eapply Forall_impl; [exact Hf|].
    simpl. intros. lia.
  - intros f [= <-]. rewrite length_app. simpl. lia.
  - intros h [=].
  - apply Forall_app. split; [exact Hh|].
    constructor; [|constructor]. unfold new_file. simpl. constructor.
Qed.

Lemma wf_open_hunk st k : wf st -> wf (open_hunk k st).
Proof.
  intros [Hf Hcf Hch Hh]. split; simpl; try assumption.
  - intros h [= <-]. rewrite length_app. simpl. lia.
  - eapply Forall_impl; [exact Hh|]. simpl. intros o Ho.
    eapply Forall_impl; [exact Ho|]. simpl. intros. rewrite length_app.
    simpl. lia.
Qed.

Lemma wf_set_changeType st f t : wf st -> wf (set_changeType f t st).
Proof. intros. apply wf_update_file; auto. Qed.

Lemma wf_count_added st f : wf st -> wf (count_added f st).
Proof. intros. apply wf_update_file; auto. Qed.

Lemma wf_count_removed st f : wf st -> wf (count_removed f st).
Proof. intros. apply wf_update_file; auto. Qed.

Lemma wf_push_line st h t line : wf st -> wf (push_line h t line st).
Proof. apply wf_update_hunk. Qed.

Lemma wf_step st line : wf st -> wf (step st line).
Proof.
  intros Hwf. unfold step.
  repeat case_match; subst;
    repeat first
      [ assumption
      | apply wf_open_file
      | apply wf_open_hunk
      | apply wf_set_changeType
      | apply wf_count_added
      | apply wf_count_removed
      | apply wf_push_line
      | apply wf_push_file; [|simpl; eassumption]
      | apply wf_push_hunk; [|simpl; eassumption] ].
Qed.

Lemma wf_fold lines st : wf st -> wf (fold_left step lines st).
Proof.
  revert st. induction lines as [|l ls IH]; simpl; intros st H; [exact H|].
  apply IH, wf_step, H.
Qed.

Lemma wf_finish st : wf st -> wf (finish st).
Proof.
  intros Hwf. unfold finish.
  repeat case_match; subst;
    repeat first
      [ assumption
      | apply wf_push_file; [|simpl; eassumption]
      | apply wf_push_hunk; [|simpl; eassumption] ].
Qed.

Lemma wf_run lines : wf (run lines).
Proof. apply wf_finish, wf_fold, wf_initial. Qed.

(** In a well-formed state every reference can be read. *)
Lemma read_files_wf st : wf st -> is_Some (read_files st).
Proof.
  intros [Hf _ _ Hh]. unfold read_files. apply mapM_is_Some.
  eapply Forall_impl; [exact Hf|]. simpl. intros f Hlt.
  apply lookup_lt_is_Some in Hlt. destruct Hlt as [o Ho].
  unfold compose, read_file. rewrite Ho. simpl.
  assert (Ho' : Forall (fun h => h < List.length (hunkHeap st)) (o_hunks o)).
  { rewrite Forall_forall in Hh. apply Hh.
    eapply list_elem_of_lookup_2, Ho. }
  assert (Hs : is_Some (mapM (fun h => hunkHeap st !! h) (o_hunks o))).
  { apply mapM_is_Some. eapply Forall_impl; [exact Ho'|]. simpl.
    intros h Hh'. by apply lookup_lt_is_Some. }
  destruct Hs as [hs ->]. simpl. eauto.
Qed.

(** A line without the file marker leaves a state without open file as
    it is. *)
Lemma step_no_marker st line :
  startsWith line "diff --git" = false ->
  currentFile st = None ->
  step st line = st.
Proof.
  intros Hm Hc. unfold step. rewrite Hm, Hc.
  repeat case_match; first [reflexivity | congruence].
Qed.

Lemma fold_no_marker lines st :
  forallb (fun line => negb (startsWith line "diff --git")) lines = true ->
  currentFile st = None ->
  fold_left step lines st = st.
Proof.
  revert st. induction lines as [|l ls IH]; simpl; intros st Hall Hc.
  - reflexivity.
  - apply andb_prop in Hall. destruct Hall as [Hl Hls].
    apply negb_true_iff in Hl.
    rewrite step_no_marker by assumption. by apply IH.
Qed.

End ParserFacts.

(** ** Conservation of the line counters on well-formed headers *)

Section ParserConservation.
Import Js DiffParser.
Implicit Types (H : list DiffHunk) (hs : list nat) (t : LineType).

Lemma count_in_app t ls ls' :
  count_in t (ls ++ ls') = (count_in t ls + count_in t ls')%Z.
Proof. unfold count_in. rewrite List.filter_app, length_app. lia. Qed.

Lemma total_snoc t H hs h :
  total t H (hs ++ [h]) = (total t H hs + hcount t H h)%Z.
Proof. unfold total. induction hs as [|h' hs IH]; simpl; lia. Qed.

Lemma total_ext t H H' hs :
  Forall (fun h => H' !! h = H !! h) hs -> total t H' hs = total t H hs.
Proof.
  unfold total, hcount. induction 1 as [|h hs Hh _ IH]; simpl; [reflexivity|].
  by rewrite Hh, IH.
Qed.

Lemma total_heap_snoc t H k hs :
  Forall (fun h => h < List.length H) hs ->
  total t (H ++ [k]) hs = total t H hs.
Proof.
  intros Hlt. apply total_ext. eapply Forall_impl; [exact Hlt|].
  simpl. intros h Hh. by apply lookup_app_l.
Qed.

Lemma total_alter t H g h hs :
  h ∉ hs -> total t (alter g h H) hs = total t H hs.
Proof.
  intros Hnot. apply total_ext. apply Forall_forall. intros h' Hin.
  apply list_lookup_alter_ne. intros ->. by apply Hnot.
Qed.

Lemma hcount_heap_snoc t H k h :
  h < List.length H -> hcount t (H ++ [k]) h = hcount t H h.
Proof. intros Hlt. unfold hcount. by rewrite lookup_app_l. Qed.

Lemma hcount_new t H k : hcount t (H ++ [k]) (List.length H) = count_in t (lines k).
Proof.
  unfold hcount. rewrite lookup_app_r by lia.
  by rewrite Nat.sub_diag.
Qed.

(** The count of the hunk that [push_line] extends. *)
Lemma hcount_push t H h t' line :
  h < List.length H ->
  hcount t
    (alter (fun k =>
       {| oldStart := oldStart k; oldLines := oldLines k;
          newStart := newStart k; newLines := newLines k;
          lines := lines k ++
            [ {| type := t'; content := substring_from 1 line;
                 lineNumber := None |} ] |}) h H) h
  = (hcount t H h + if LineType_eqb t' t then 1 else 0)%Z.
Proof.
  intros Hlt. unfold hcount. rewrite list_lookup_alter_eq.
  apply lookup_lt_is_Some in Hlt as [k ->]. simpl.
  rewrite count_in_app. unfold count_in at 2. simpl.
  by destruct (LineType_eqb t' t).
Qed.

Lemma counted_initial : counted initial.
Proof.
  split; [apply wf_initial|intros h [=]|].
  intros i o t Hi. simpl in Hi. by destruct i.
Qed.

(** A change of the type of the open file. *)
Lemma counted_set_changeType st f c :
  counted st -> counted (set_changeType f c st).
Proof.
  intros [Hwf Hopen Hfiles]. split.
  - by apply wf_set_changeType.
  - simpl. intros h Hh. destruct (Hopen h Hh) as [Hf Hall].
    split; [exact Hf|]. apply Forall_alter; [exact Hall|]. by simpl.
  - intros i o t Hi Ht. simpl in Hi.
    unfold open_count. simpl currentFile. simpl currentHunk. simpl hunkHeap.
    destruct (decide (f = i)) as [->|Hne].
    + rewrite list_lookup_alter_eq in Hi.
      destruct (fileHeap st !! i) as [o'|] eqn:Ho'; [|discriminate].
      injection Hi as <-. specialize (Hfiles i o' t Ho' Ht).
      destruct t; simpl in *; try congruence; exact Hfiles.
    + rewrite list_lookup_alter_ne in Hi by exact Hne.
      exact (Hfiles i o t Hi Ht).
Qed.

(** A matching file header: the open hunk goes to the open file, and a
    new file is open with no hunk. *)
Lemma counted_file_header st oldP newP :
  counted st ->
  counted
    (open_file (new_file oldP newP)
       match currentFile st, currentHunk st with
       | Some f, Some h => push_file f (push_hunk f h st)
       | _, _ => st
       end).
Proof.
  intros Hc. pose proof Hc as [Hwf Hopen Hfiles]. split.
  - apply wf_open_file.
    destruct (currentFile st) as [f|] eqn:Hf;
      destruct (currentHunk st) as [h|] eqn:Hh; try exact Hwf.
    apply wf_push_file; [by apply wf_push_hunk|exact Hf].
  - intros h. unfold open_file. simpl. discriminate.
  - intros i o t Hi Ht.
    assert (Hno : open_count t
      (open_file (new_file oldP newP)
         match currentFile st, currentHunk st with
         | Some f, Some h => push_file f (push_hunk f h st)
         | _, _ => st
         end) i = 0%Z) by (unfold open_count; simpl; reflexivity).
    rewrite Hno, Z.add_0_r.
    destruct (currentFile st) as [f|] eqn:Hf;
      destruct (currentHunk st) as [h|] eqn:Hh; simpl in Hi |- *.
    + apply lookup_app_Some in Hi as [Hi|[_ Hi]].
      * destruct (decide (f = i)) as [->|Hne].
        -- rewrite list_lookup_alter_eq in Hi.
           destruct (fileHeap st !! i) as [o'|] eqn:Ho'; [|discriminate].
           injection Hi as <-. specialize (Hfiles i o' t Ho' Ht).
           unfold open_count in Hfiles. rewrite Hf, Hh in Hfiles.
           rewrite bool_decide_eq_true_2 in Hfiles by reflexivity.
           simpl o_hunks. rewrite total_snoc.
           destruct t; simpl in *; try congruence; exact Hfiles.
        -- rewrite list_lookup_alter_ne in Hi by exact Hne.
           specialize (Hfiles i o t Hi Ht).
           unfold open_count in Hfiles. rewrite Hf, Hh in Hfiles.
           rewrite bool_decide_eq_false_2 in Hfiles by exact Hne. lia.
      * rewrite length_alter in Hi.
        apply list_lookup_singleton_Some in Hi as [_ <-].
        destruct t; simpl; try congruence; reflexivity.
    + apply lookup_app_Some in Hi as [Hi|[_ Hi]].
      * specialize (Hfiles i o t Hi Ht).
        unfold open_count in Hfiles. rewrite Hf, Hh in Hfiles. lia.
      * apply list_lookup_singleton_Some in Hi as [_ <-].
        destruct t; simpl; try congruence; reflexivity.
    + apply lookup_app_Some in Hi as [Hi|[_ Hi]].
      * specialize (Hfiles i o t Hi Ht).
        unfold open_count in Hfiles. rewrite Hf in Hfiles. lia.
      * apply list_lookup_singleton_Some in Hi as [_ <-].
        destruct t; simpl; try congruence; reflexivity.
    + apply lookup_app_Some in Hi as [Hi|[_ Hi]].
      * specialize (Hfiles i o t Hi Ht).
        unfold open_count in Hfiles. rewrite Hf in Hfiles. lia.
      * apply list_lookup_singleton_Some in Hi as [_ <-].
        destruct t; simpl; try congruence; reflexivity.
Qed.

Lemma new_hunk_lines g : lines (new_hunk g) = [].
Proof. by destruct g as [[[g1 g2] g3] g4]. Qed.

(** A matching hunk header: the open hunk goes to the open file, and a
    new, empty hunk is open. *)
Lemma counted_hunk_header st g :
  counted st ->
  counted
    (let st1 :=
       match currentHunk st, currentFile st with
       | Some h, Some f => push_hunk f h st
       | _, _ => st
       end in
     match currentFile st1 with
     | Some _ => open_hunk (new_hunk g) st1
     | None => st1
     end).
Proof.
  intros Hc. pose proof Hc as [Hwf Hopen Hfiles].
  pose proof (wf_hunks st Hwf) as Hvalid. rewrite Forall_lookup in Hvalid.
  destruct (currentFile st) as [f|] eqn:Hf; cycle 1.
  { destruct (currentHunk st); simpl; rewrite Hf; exact Hc. }
  destruct (currentHunk st) as [h|] eqn:Hh; simpl; rewrite Hf.
  - (* an open hunk is saved first *)
    pose proof (wf_currentHunk st Hwf h Hh) as Hlt.
    split.
    + apply wf_open_hunk. by apply wf_push_hunk.
    + simpl. intros h' [= <-]. split; [by rewrite Hf|].
      apply Forall_lookup. intros i o Hi.
      assert (Ho : Forall (fun x => x < List.length (hunkHeap st)) (o_hunks o)).
      { destruct (decide (f = i)) as [->|Hne].
        - rewrite list_lookup_alter_eq in Hi.
          destruct (fileHeap st !! i) as [o'|] eqn:Ho'; [|discriminate].
          injection Hi as <-. simpl. apply Forall_app. split; [by eapply Hvalid|].
          by repeat constructor.
        - rewrite list_lookup_alter_ne in Hi by exact Hne. by eapply Hvalid. }
      intros Hin. rewrite Forall_forall in Ho. apply Ho in Hin. lia.
    + intros i o t Hi Ht. simpl in Hi.
      unfold open_count. simpl currentFile. simpl currentHunk. simpl hunkHeap.
      rewrite Hf, hcount_new, new_hunk_lines.
      replace (if bool_decide (f = i) then count_in t [] else 0%Z) with 0%Z
        by (by destruct (bool_decide (f = i))).
      rewrite Z.add_0_r.
      destruct (decide (f = i)) as [->|Hne].
      * rewrite list_lookup_alter_eq in Hi.
        destruct (fileHeap st !! i) as [o'|] eqn:Ho'; [|discriminate].
        injection Hi as <-. specialize (Hfiles i o' t Ho' Ht).
        unfold open_count in Hfiles. rewrite Hf, Hh in Hfiles.
        rewrite bool_decide_eq_true_2 in Hfiles by reflexivity.
        simpl o_hunks. rewrite total_heap_snoc.
        -- rewrite total_snoc.
           destruct t; simpl in *; try congruence; exact Hfiles.
        -- apply Forall_app. split; [by eapply Hvalid|].
           by repeat constructor.
      * rewrite list_lookup_alter_ne in Hi by exact Hne.
        specialize (Hfiles i o t Hi Ht).
        unfold open_count in Hfiles. rewrite Hf, Hh in Hfiles.
        rewrite bool_decide_eq_false_2 in Hfiles by exact Hne.
        rewrite total_heap_snoc by (by eapply Hvalid). lia.
  - (* no hunk was open *)
    split.
    + by apply wf_open_hunk.
    + simpl. intros h' [= <-]. split; [by rewrite Hf|].
      apply Forall_lookup. intros i o Hi Hin.
      pose proof (Hvalid i o Hi) as Ho. rewrite Forall_forall in Ho.
      apply Ho in Hin. lia.
    + intros i o t Hi Ht. simpl in Hi.
      unfold open_count. simpl currentFile. simpl currentHunk. simpl hunkHeap.
      rewrite Hf, hcount_new, new_hunk_lines.
      replace (if bool_decide (f = i) then count_in t [] else 0%Z) with 0%Z
        by (by destruct (bool_decide (f = i))).
      specialize (Hfiles i o t Hi Ht).
      unfold open_count in Hfiles. rewrite Hf, Hh in Hfiles.
      rewrite total_heap_snoc by (by eapply Hvalid). lia.
Qed.

(** A content line of kind [t']: the state [st'] has the line in the open
    hunk, and the counter of kind [t'] of the open file, if there is one,
    is one higher. *)
Lemma counted_content st st' h f t' line :
  counted st ->
  currentHunk st = Some h -> currentFile st = Some f ->
  hunkHeap st' = hunkHeap (push_line h t' line st) ->
  files st' = files st ->
  currentFile st' = Some f -> currentHunk st' = Some h ->
  List.length (fileHeap st') = List.length (fileHeap st) ->
  (forall i o', fileHeap st' !! i = Some o' ->
     exists o, fileHeap st !! i = Some o /\ o_hunks o' = o_hunks o /\
       forall t, t <> context ->
         o_count t o'
         = (o_count t o
            + if bool_decide (f = i)
              then (if LineType_eqb t' t then 1 else 0) else 0)%Z) ->
  counted st'.
Proof.
  intros [Hwf Hopen Hfiles] Hh Hf Hheap Hfs Hf' Hh' Hlen Hrel.
  pose proof (wf_hunks st Hwf) as Hvalid. rewrite Forall_lookup in Hvalid.
  pose proof (wf_currentHunk st Hwf h Hh) as Hlt.
  destruct (Hopen h Hh) as [_ Hnot]. rewrite Forall_lookup in Hnot.
  unfold push_line, update_hunk in Hheap. cbn [hunkHeap] in Hheap.
  split; [split|..].
  - rewrite Hfs, Hlen. apply Hwf.
  - intros x. rewrite Hf', Hlen, <- Hf. apply Hwf.
  - intros x. rewrite Hh', Hheap, length_alter, <- Hh. apply Hwf.
  - apply Forall_lookup. intros i o' Hi.
    destruct (Hrel i o' Hi) as (o & Ho & -> & _).
    rewrite Hheap, length_alter. by eapply Hvalid.
  - intros x. rewrite Hh'. intros [= <-]. split; [by rewrite Hf'|].
    apply Forall_lookup. intros i o' Hi.
    destruct (Hrel i o' Hi) as (o & Ho & -> & _). by eapply Hnot.
  - intros i o' t Hi Ht.
    destruct (Hrel i o' Hi) as (o & Ho & Hhunks & Hcount).
    rewrite (Hcount t Ht), Hhunks, (Hfiles i o t Ho Ht).
    unfold open_count. rewrite Hf', Hh', Hf, Hh, Hheap.
    rewrite total_alter by (by eapply Hnot).
    destruct (bool_decide (f = i)); [|lia].
    rewrite hcount_push by exact Hlt. lia.
Qed.

Lemma counted_added st h f line :
  counted st -> currentHunk st = Some h -> currentFile st = Some f ->
  counted (count_added f (push_line h added line st)).
Proof.
  intros Hc Hh Hf.
  apply (counted_content st _ h f added line Hc Hh Hf); try reflexivity;
    try assumption.
  - simpl. by rewrite length_alter.
  - simpl. intros i o' Hi. destruct (decide (f = i)) as [->|Hne].
    + rewrite list_lookup_alter_eq in Hi.
      destruct (fileHeap st !! i) as [o|]; [|discriminate].
      injection Hi as <-. exists o. repeat split.
      intros t Ht. rewrite bool_decide_eq_true_2 by reflexivity.
      destruct t; simpl; try congruence; lia.
    + rewrite list_lookup_alter_ne in Hi by exact Hne. exists o'.
      repeat split; [exact Hi|]. intros t _.
      rewrite bool_decide_eq_false_2 by exact Hne. lia.
Qed.

Lemma counted_removed st h f line :
  counted st -> currentHunk st = Some h -> currentFile st = Some f ->
  counted (count_removed f (push_line h removed line st)).
Proof.
  intros Hc Hh Hf.
  apply (counted_content st _ h f removed line Hc Hh Hf); try reflexivity;
    try assumption.
  - simpl. by rewrite length_alter.
  - simpl. intros i o' Hi. destruct (decide (f = i)) as [->|Hne].
    + rewrite list_lookup_alter_eq in Hi.
      destruct (fileHeap st !! i) as [o|]; [|discriminate].
      injection Hi as <-. exists o. repeat split.
      intros t Ht. rewrite bool_decide_eq_true_2 by reflexivity.
      destruct t; simpl; try congruence; lia.
    + rewrite list_lookup_alter_ne in Hi by exact Hne. exists o'.
      repeat split; [exact Hi|]. intros t _.
      rewrite bool_decide_eq_false_2 by exact Hne. lia.
Qed.

Lemma counted_context st h f line :
  counted st -> currentHunk st = Some h -> currentFile st = Some f ->
  counted (push_line h context line st).
Proof.
  intros Hc Hh Hf.
  apply (counted_content st _ h f context line Hc Hh Hf); try reflexivity;
    try assumption.
  simpl. intros i o' Hi. exists o'. repeat split; [exact Hi|].
  intros t Ht. destruct (bool_decide (f = i)), t; simpl; try congruence; lia.
Qed.

Lemma counted_step st line :
  header_ok line = true -> counted st -> counted (step st line).
Proof.
  intros Hok Hc. unfold header_ok in Hok. apply andb_prop in Hok as [Hd Hh].
  unfold step.
  destruct (startsWith line "diff --git").
  { apply bool_decide_eq_true in Hd as [[oldP newP] Hm]. rewrite Hm.
    exact (counted_file_header st oldP newP Hc). }
  destruct (startsWith line "index "); [exact Hc|].
  destruct (startsWith line "new file mode").
  { destruct (currentFile st); [by apply counted_set_changeType|exact Hc]. }
  destruct (startsWith line "deleted file mode").
  { destruct (currentFile st); [by apply counted_set_changeType|exact Hc]. }
  destruct (startsWith line "rename from"); [exact Hc|].
  destruct (startsWith line "rename to"); [exact Hc|].
  destruct (startsWith line "@@").
  { apply bool_decide_eq_true in Hh as [g Hm]. rewrite Hm.
    exact (counted_hunk_header st g Hc). }
  destruct (currentHunk st) as [h|] eqn:Hch; [|exact Hc].
  destruct (currentFile st) as [f|] eqn:Hcf; [|exact Hc].
  repeat case_match;
    first [ exact Hc
          | by apply counted_added
          | by apply counted_removed
          | by apply (counted_context st h f) ].
Qed.

Lemma counted_fold lines st :
  well_formed_headers lines = true -> counted st ->
  counted (fold_left step lines st).
Proof.
  unfold well_formed_headers. revert st.
  induction lines as [|l ls IH]; simpl; intros st Hok Hc; [exact Hc|].
  apply andb_prop in Hok as [Hl Hls]. by apply IH, counted_step.
Qed.

(** After the last flush every counter is the number of lines of the
    listed hunks. *)
Lemma finish_counts st i o t :
  counted st -> fileHeap (finish st) !! i = Some o -> t <> context ->
  o_count t o = total t (hunkHeap (finish st)) (o_hunks o).
Proof.
  intros [Hwf Hopen Hfiles]. unfold finish.
  destruct (currentHunk st) as [h|] eqn:Hh;
    destruct (currentFile st) as [f|] eqn:Hf; simpl; try rewrite Hf; simpl.
  - intros Hi Ht. destruct (decide (f = i)) as [->|Hne].
    + rewrite list_lookup_alter_eq in Hi.
      destruct (fileHeap st !! i) as [o'|] eqn:Ho'; [|discriminate].
      injection Hi as <-. specialize (Hfiles i o' t Ho' Ht).
      unfold open_count in Hfiles. rewrite Hf, Hh in Hfiles.
      rewrite bool_decide_eq_true_2 in Hfiles by reflexivity.
      simpl o_hunks. rewrite total_snoc.
      destruct t; simpl in *; try congruence; exact Hfiles.
    + rewrite list_lookup_alter_ne in Hi by exact Hne.
      specialize (Hfiles i o t Hi Ht).
      unfold open_count in Hfiles. rewrite Hf, Hh in Hfiles.
      rewrite bool_decide_eq_false_2 in Hfiles by exact Hne. lia.
  - intros Hi Ht. specialize (Hfiles i o t Hi Ht).
    unfold open_count in Hfiles. rewrite Hf in Hfiles. lia.
  - intros Hi Ht. specialize (Hfiles i o t Hi Ht).
    unfold open_count in Hfiles. rewrite Hf, Hh in Hfiles. lia.
  - intros Hi Ht. specialize (Hfiles i o t Hi Ht).
    unfold open_count in Hfiles. rewrite Hf in Hfiles. lia.
Qed.

Lemma count_in_hunks t H hs ks :
  mapM (fun h => H !! h) hs = Some ks ->
  count_in t (concat (map lines ks)) = total t H hs.
Proof.
  rewrite mapM_Some. induction 1 as [|h k hs ks Hk _ IH]; [reflexivity|].
  simpl. rewrite count_in_app, IH. unfold hcount. by rewrite Hk.
Qed.

Lemma read_file_counts st f file t :
  read_file st f = Some file ->
  exists o, fileHeap st !! f = Some o /\
    count_lines t file = total t (hunkHeap st) (o_hunks o) /\
    addedLines file = o_addedLines o /\
    removedLines file = o_removedLines o.
Proof.
  unfold read_file. destruct (fileHeap st !! f) as [o|]; [|discriminate].
  simpl. destruct (mapM _ (o_hunks o)) as [ks|] eqn:Hks; [|discriminate].
  simpl. intros [= <-]. exists o. repeat split.
  apply (count_in_hunks t _ _ _ Hks).
Qed.

(** The counters of every returned file, on well-formed headers. *)
Lemma parseDiff_conservation_all (diffText : string) (result : list DiffFile) :
  well_formed_headers (split_lines diffText) = true ->
  parseDiff diffText = Some result ->
  forall file, file ∈ result ->
    addedLines file = count_lines added file /\
    removedLines file = count_lines removed file.
Proof.
  intros Hok Hres file Hin. unfold parseDiff, run, read_files in Hres.
  set (st := fold_left step (split_lines diffText) initial) in *.
  assert (Hc : counted st) by (apply counted_fold, counted_initial; exact Hok).
  apply mapM_Some in Hres.
  apply list_elem_of_lookup in Hin as [n Hn].
  destruct (Forall2_lookup_r _ _ _ _ _ Hres Hn) as (f & _ & Hf).
  split.
  - destruct (read_file_counts _ _ _ added Hf) as (o & Ho & -> & -> & _).
    by apply (finish_counts st f o added Hc Ho).
  - destruct (read_file_counts _ _ _ removed Hf) as (o & Ho & -> & _ & ->).
    by apply (finish_counts st f o removed Hc Ho).
Qed.

(** X1. Conservation. For a text in which every line that starts with
    [diff --git] is a file header and every line that starts with [@@] is
    a hunk header, each returned file counts as many added and removed
    lines as its hunks hold. *)
Theorem parseDiff_conservation (diffText : string) (result : list DiffFile) :
  well_formed_headers (split_lines diffText) = true ->
  parseDiff diffText = Some result ->
  forall file, file ∈ result ->
    addedLines file = count_lines added file /\
    removedLines file = count_lines removed file.
Proof. apply parseDiff_conservation_all. Qed.

Lemma parseDiff_conservation_witness :
  well_formed_headers (split_lines Examples.modify_text) = true /\
  parseDiff Examples.modify_text = Some [Examples.modify_file] /\
  addedLines Examples.modify_file
  = count_lines added Examples.modify_file /\
  removedLines Examples.modify_file
  = count_lines removed Examples.modify_file.
Proof.
  assert (Hparse : parseDiff Examples.modify_text
                   = Some [Examples.modify_file])
    by (vm_compute; reflexivity).
  split; [reflexivity|]. split; [exact Hparse|].
  apply (parseDiff_conservation Examples.modify_text [Examples.modify_file]
           eq_refl Hparse).
  by left.
Defined.

End ParserConservation.

(** * Properties of the rule evaluator *)

Section ResultFacts.
Import Js.
Context {A B : Type}.
Implicit Types (f : A -> result B) (xs : list A).

Lemma mapR_cons f x xs :
  mapR f (x :: xs) =
  match f x with
  | Ok y =>
      match mapR f xs with
      | Ok ys => Ok (y :: ys)
      | Throw e => Throw e
      end
  | Throw e => Throw e
  end.
Proof. unfold mapR. simpl. destruct (f x); reflexivity. Qed.

Lemma mapR_Ok f xs ys :
  mapR f xs = Ok ys <-> Forall2 (fun x y => f x = Ok y) xs ys.
Proof.
  revert ys. induction xs as [|x xs IH]; intros ys.
  - split.
    + intros [= <-]. constructor.
    + intros H. inversion H. reflexivity.
  - rewrite mapR_cons. split.
    + destruct (f x) as [y|e] eqn:Hx; [|discriminate].
      destruct (mapR f xs) as [ys'|e] eqn:Hxs; [|discriminate].
      intros [= <-]. constructor; [exact Hx|]. by apply IH.
    + intros H. inversion H as [|x' y xs' ys' Hx Hxs]; subst.
      rewrite Hx. apply IH in Hxs. rewrite Hxs. reflexivity.
Qed.

Lemma mapR_Throw f xs e :
  mapR f xs = Throw e -> exists x, x ∈ xs /\ f x = Throw e.
Proof.
  induction xs as [|x xs IH]; [discriminate|].
  rewrite mapR_cons.
  destruct (f x) as [y|e'] eqn:Hx.
  - destruct (mapR f xs) as [ys|e'] eqn:Hxs; [discriminate|].
    intros [= <-]. destruct (IH eq_refl) as (x' & Hin & Hx').
    exists x'. split; [by right|exact Hx'].
  - intros [= <-]. exists x. split; [by left|exact Hx].
Qed.

(** When [f] raises one kind of exception only, one raising element is
    enough for the map to raise it. *)
Lemma mapR_raises f xs x e0 :
  (forall x' e, f x' = Throw e -> e = e0) ->
  x ∈ xs -> f x = Throw e0 -> mapR f xs = Throw e0.
Proof.
  intros Hkind Hin Hx. induction xs as [|x' xs IH].
  - inversion Hin.
  - rewrite mapR_cons. destruct (f x') as [y|e] eqn:Hx'.
    + apply elem_of_cons in Hin as [->|Hin]; [congruence|].
      rewrite (IH Hin). reflexivity.
    + by rewrite (Hkind _ _ Hx').
Qed.

Lemma mapR_ext f g xs :
  (forall x, x ∈ xs -> f x = g x) -> mapR f xs = mapR g xs.
Proof.
  induction xs as [|x xs IH]; intros H; [reflexivity|].
  rewrite !mapR_cons, H by (by left).
  rewrite IH; [reflexivity|]. intros. apply H. by right.
Qed.

End ResultFacts.

Section EvaluatorFacts.
Import Js Types Evaluator.
Context {E : RegExpEngine}.
Implicit Types (r : Rule) (f : DiffParser.DiffFile).

Lemma compile_Throw p e : compile p = Throw e -> e = SyntaxError.
Proof. unfold compile. destruct (RegExp_new p); congruence. Qed.

Lemma mapR_compile_Throw ps e : mapR compile ps = Throw e -> e = SyntaxError.
Proof.
  intros H. apply mapR_Throw in H as (p & _ & Hp). eapply compile_Throw, Hp.
Qed.

Lemma mapR_compile_invalid ps :
  existsb (fun p => negb (is_Ok (compile p))) ps = true ->
  mapR compile ps = Throw SyntaxError.
Proof.
  intros H. apply existsb_exists in H as (p & Hin & Hp).
  apply (mapR_raises _ _ p).
  - intros. by eapply compile_Throw.
  - by apply list_elem_of_In.
  - destruct (compile p) as [re|e] eqn:Hc; [discriminate|].
    by rewrite (compile_Throw _ _ Hc).
Qed.

(** The only exception of a matcher is the one of [new RegExp]. *)
Lemma evaluateRule_Throw r f e : evaluateRule r f = Throw e -> e = SyntaxError.
Proof.
  unfold evaluateRule, evaluateSensitiveFileRule, evaluateLargeChangeRule,
    evaluateSuspiciousKeywordsRule, evaluatePotentialSecretRule,
    evaluateLargeMigrationRule, evaluatePathPatternRule,
    evaluateLinePatternRule, evaluateFileSizeRule.
  destruct (enabled r); simpl; [|discriminate].
  destruct (kind r); simpl; try (repeat case_match; discriminate).
  all: try (destruct (mapR compile _) as [res|e'] eqn:Hc; simpl;
            [repeat case_match; discriminate
            | intros [= <-]; eapply mapR_compile_Throw, Hc]).
  all: destruct (compile _) as [re|e'] eqn:Hc; simpl;
       [repeat case_match; discriminate
       | intros [= <-]; eapply compile_Throw, Hc].
Qed.

(** An enabled rule with an invalid pattern raises on every file. *)
Lemma evaluateRule_invalid r f :
  enabled r = true -> has_invalid_pattern r = true ->
  evaluateRule r f = Throw SyntaxError.
Proof.
  unfold has_invalid_pattern, rule_patterns, evaluateRule,
    evaluateSensitiveFileRule, evaluatePotentialSecretRule,
    evaluateLargeMigrationRule, evaluatePathPatternRule,
    evaluateLinePatternRule.
  intros -> H. simpl.
  destruct (kind r); simpl in *; try discriminate.
  1-3: by rewrite (mapR_compile_invalid _ H).
  all: rewrite orb_false_r in H;
       destruct (compile pattern) as [re|e] eqn:Hc; [discriminate|];
       by rewrite (compile_Throw _ _ Hc).
Qed.

Lemma evaluateRule_disabled r f : enabled r = false -> evaluateRule r f = Ok [].
Proof. unfold evaluateRule. by intros ->. Qed.

Lemma evaluateRule_custom r f : is_custom r = true -> evaluateRule r f = Ok [].
Proof.
  unfold is_custom, evaluateRule. destruct (kind r); try discriminate.
  intros _. by destruct (enabled r).
Qed.

Lemma evaluateFile_Throw rules f e :
  evaluateFile rules f = Throw e -> e = SyntaxError.
Proof.
  unfold evaluateFile.
  destruct (mapR _ rules) as [vss|e'] eqn:H; simpl; [discriminate|].
  intros [= <-]. apply mapR_Throw in H as (r & _ & Hr).
  eapply evaluateRule_Throw, Hr.
Qed.

(** A rule that yields no violation on [f] can be taken out of the list
    without changing what the inner loop computes for [f]. *)
Lemma evaluateFile_skip pre r post f :
  evaluateRule r f = Ok [] ->
  evaluateFile (pre ++ r :: post) f = evaluateFile (pre ++ post) f.
Proof.
  intros Hr. unfold evaluateFile.
  induction pre as [|r' pre IH]; cbn [app].
  - rewrite mapR_cons, Hr. destruct (mapR _ post); reflexivity.
  - rewrite !mapR_cons. destruct (evaluateRule r' f) as [vs|e]; [|reflexivity].
    destruct (mapR _ (pre ++ r :: post)) as [a|ea];
      destruct (mapR _ (pre ++ post)) as [b|eb];
      simpl in *; congruence.
Qed.

Lemma evaluateRules_files_ext files rules rules' :
  (forall f, f ∈ files -> evaluateFile rules f = evaluateFile rules' f) ->
  evaluateRules files rules = evaluateRules files rules'.
Proof.
  intros H. unfold evaluateRules. by rewrite (mapR_ext _ _ _ H).
Qed.

Lemma evaluateFile_filter_custom rules f :
  evaluateFile (List.filter (fun r => negb (is_custom r)) rules) f
  = evaluateFile rules f.
Proof.
  induction rules as [|r rules IH]; [reflexivity|].
  cbn [List.filter]. destruct (is_custom r) eqn:Hc; cbn [negb].
  - rewrite IH. symmetry.
    apply (evaluateFile_skip [] r rules f), evaluateRule_custom, Hc.
  - unfold evaluateFile in *. rewrite !mapR_cons.
    destruct (evaluateRule r f); [|reflexivity].
    destruct (mapR _ (List.filter _ rules)); destruct (mapR _ rules);
      simpl in *; congruence.
Qed.

End EvaluatorFacts.

Section EvaluatorProperties.
Import Js Types Evaluator.
Context {E : RegExpEngine}.
Implicit Types (r : Rule) (f : DiffParser.DiffFile).

Lemma has_severity_true s (vs : list RuleViolation) :
  has_severity s vs = true <-> exists v, v ∈ vs /\ severity v = s.
Proof.
  unfold has_severity. rewrite existsb_exists. split.
  - intros (v & Hin & Hs). exists v. split; [by apply list_elem_of_In|].
    destruct (severity v), s; simpl in Hs; congruence.
  - intros (v & Hin & <-). exists v. split; [by apply list_elem_of_In|].
    by destruct (severity v).
Qed.

Lemma has_severity_false s (vs : list RuleViolation) :
  has_severity s vs = false <-> ~ exists v, v ∈ vs /\ severity v = s.
Proof.
  rewrite <- has_severity_true. destruct (has_severity s vs); split;
    congruence.
Qed.

(** The elements of the concatenated results of a map that returned. *)
Lemma elem_of_concat_mapR {A B} (g : A -> result (list B)) xs yss v :
  mapR g xs = Ok yss ->
  v ∈ concat yss <-> exists x ys, x ∈ xs /\ g x = Ok ys /\ v ∈ ys.
Proof.
  rewrite mapR_Ok. intros H. induction H as [|x ys xs yss Hx _ IH]; simpl.
  - split; [intros Hin; inversion Hin|].
    intros (x & ys & Hin & _). inversion Hin.
  - rewrite elem_of_app, IH. split.
    + intros [Hv|(x' & ys' & Hin & Hx' & Hv)].
      * exists x, ys. split; [by left|]. by split.
      * exists x', ys'. split; [by right|]. by split.
    + intros (x' & ys' & Hin & Hx' & Hv).
      apply elem_of_cons in Hin as [->|Hin].
      * left. congruence.
      * right. by exists x', ys'.
Qed.

Lemma evaluateRules_Ok files rules res :
  evaluateRules files rules = Ok res ->
  exists vss, mapR (evaluateFile rules) files = Ok vss /\
    res = {| decision := decide_on (concat vss); violations := concat vss |}.
Proof.
  unfold evaluateRules.
  destruct (mapR (evaluateFile rules) files) as [vss|e]; simpl;
    [|discriminate].
  intros [= <-]. by exists vss.
Qed.

Lemma evaluateFile_Ok rules f vs :
  evaluateFile rules f = Ok vs ->
  exists vss, mapR (fun r => evaluateRule r f) rules = Ok vss /\
    vs = concat vss.
Proof.
  unfold evaluateFile.
  destruct (mapR _ rules) as [vss|e]; simpl; [|discriminate].
  intros [= <-]. by exists vss.
Qed.

(** C2. Whenever [evaluateRules] returns, its decision is [block] exactly
    when some collected violation has severity [block]; otherwise it is
    [warn] exactly when some violation has severity [warn]; otherwise it is
    [allow].  The violations are those of all pairs of a file and a rule,
    so one blocking violation of any file decides the whole result. *)
Theorem evaluateRules_decision files rules res :
  evaluateRules files rules = Ok res ->
  let blocks := exists v, v ∈ violations res /\ severity v = block in
  let warns := exists v, v ∈ violations res /\ severity v = warn in
  (decision res = block <-> blocks) /\
  (decision res = warn <-> ~ blocks /\ warns) /\
  (decision res = allow <-> ~ blocks /\ ~ warns) /\
  (forall v, v ∈ violations res <->
     exists f r vs,
       f ∈ files /\ r ∈ rules /\ evaluateRule r f = Ok vs /\ v ∈ vs) /\
  (forall f r vs v,
     f ∈ files -> r ∈ rules -> evaluateRule r f = Ok vs -> v ∈ vs ->
     severity v = block -> decision res = block).
Proof.
  intros Hres. apply evaluateRules_Ok in Hres as (vss & Hvss & ->). simpl.
  assert (Hmem : forall v, v ∈ concat vss <->
     exists f r vs,
       f ∈ files /\ r ∈ rules /\ evaluateRule r f = Ok vs /\ v ∈ vs).
  { intros v. rewrite (elem_of_concat_mapR _ _ _ _ Hvss). split.
    - intros (f & vs & Hf & Hvs & Hv).
      apply evaluateFile_Ok in Hvs as (vss' & Hvss' & ->).
      apply (elem_of_concat_mapR _ _ _ _ Hvss') in Hv
        as (r & vs' & Hr & Hvs' & Hv).
      by exists f, r, vs'.
    - intros (f & r & vs & Hf & Hr & Hvs & Hv).
      destruct (evaluateFile rules f) as [vs'|e] eqn:Hfile.
      + exists f, vs'. split; [exact Hf|]. split; [exact Hfile|].
        apply evaluateFile_Ok in Hfile as (vss' & Hvss' & ->).
        apply (elem_of_concat_mapR _ _ _ _ Hvss'). by exists r, vs.
      + exfalso. apply mapR_Ok in Hvss.
        apply list_elem_of_lookup in Hf as (i & Hi).
        destruct (Forall2_lookup_l _ _ _ _ _ Hvss Hi) as (y & _ & Hy).
        congruence. }
  unfold decide_on.
  assert (Hglobal : forall f r vs v,
     f ∈ files -> r ∈ rules -> evaluateRule r f = Ok vs -> v ∈ vs ->
     severity v = block ->
     exists v, v ∈ concat vss /\ severity v = block).
  { intros f r vs v Hf Hr Hvs Hv Hs. exists v. split; [|exact Hs].
    apply Hmem. by exists f, r, vs. }
  destruct (has_severity block (concat vss)) eqn:Hb;
    [apply has_severity_true in Hb | apply has_severity_false in Hb];
    (destruct (has_severity warn (concat vss)) eqn:Hw;
     [apply has_severity_true in Hw | apply has_severity_false in Hw]).
  all: repeat split; try congruence; try tauto; try exact (proj1 (Hmem _));
    try exact (proj2 (Hmem _)).
  all: intros f r vs v Hf Hr Hvs Hv Hs; exfalso; apply Hb; eauto.
Qed.

(** What [report] puts into the one violation it builds. *)
Lemma elem_of_report r f fallback v :
  v ∈ report r f fallback ->
  rule v = id r /\ file v = DiffParser.path f /\
  severity v = r_severity r /\
  message v = Some (or_else (description r) fallback).
Proof. intros Hv. apply list_elem_of_singleton in Hv as ->. by simpl. Qed.

Lemma or_else_description r d fallback :
  description r = Some d -> d <> "" -> or_else (description r) fallback = d.
Proof.
  intros -> Hd. simpl. destruct (String.eqb_spec d ""); congruence.
Qed.

(** C7, as amended. A matcher that returns yields at most one violation
    for a file, whatever the number of matches.  That violation names the
    rule, the file and the rule's severity.  Its message is the rule's
    description when that is a non-empty string; only without such a
    description is it the summary of the matches: the list of the keywords
    found, or the number of lines that matched a secret pattern or the
    line pattern. *)
Theorem evaluateRule_at_most_one r f vs :
  evaluateRule r f = Ok vs ->
  (List.length vs <= 1)%nat /\
  (forall v, v ∈ vs ->
     rule v = id r /\ file v = DiffParser.path f /\
     severity v = r_severity r /\
     exists fallback,
       message v = Some (or_else (description r) fallback) /\
       match kind r with
       | suspicious_keywords ks =>
           fallback =
             ("Suspicious keywords found: "
              ++ join ", " (found_keywords ks f))%string
       | potential_secret ps =>
           exists res, mapR compile ps = Ok res /\
             fallback =
               ("Potential secrets detected: "
               ++ number_to_string
                    (Z.of_nat (List.length (found_secrets res f)))
               ++ " occurrence(s)")%string
       | line_pattern p mt =>
           exists re, compile p = Ok re /\
             fallback =
               ("Line pattern matched: "
               ++ number_to_string
                    (Z.of_nat (List.length (found_lines re mt f)))
               ++ " occurrence(s)")%string
       | _ => True
       end) /\
  (forall d v,
     description r = Some d -> d <> "" -> v ∈ vs -> message v = Some d).
Proof.
  intros Hvs.
  assert (Hshape : vs = [] \/ exists fallback, vs = report r f fallback /\
    match kind r with
    | suspicious_keywords ks =>
        fallback =
          ("Suspicious keywords found: "
              ++ join ", " (found_keywords ks f))%string
    | potential_secret ps =>
        exists res, mapR compile ps = Ok res /\
          fallback =
            ("Potential secrets detected: "
            ++ number_to_string (Z.of_nat (List.length (found_secrets res f)))
            ++ " occurrence(s)")%string
    | line_pattern p mt =>
        exists re, compile p = Ok re /\
          fallback =
            ("Line pattern matched: "
            ++ number_to_string (Z.of_nat (List.length (found_lines re mt f)))
            ++ " occurrence(s)")%string
    | _ => True
    end).
  { revert Hvs.
    unfold evaluateRule, evaluateSensitiveFileRule, evaluateLargeChangeRule,
      evaluateSuspiciousKeywordsRule, evaluatePotentialSecretRule,
      evaluateLargeMigrationRule, evaluatePathPatternRule,
      evaluateLinePatternRule, evaluateFileSizeRule.
    destruct (enabled r); simpl; [|intros [= <-]; by left].
    destruct (kind r) eqn:Hk; simpl.
    - destruct (mapR compile patterns); simpl; [|discriminate].
      case_match; intros [= <-]; eauto.
    - case_match; intros [= <-]; eauto.
    - case_match; intros [= <-]; eauto.
    - destruct (mapR compile patterns) as [res|] eqn:Hc; simpl;
        [|discriminate].
      case_match; intros [= <-]; eauto 6.
    - destruct (mapR compile migrationPatterns); simpl; [|discriminate].
      case_match; intros [= <-]; eauto.
    - destruct (compile pattern); simpl; [|discriminate].
      case_match; intros [= <-]; eauto.
    - destruct (compile pattern) as [re|] eqn:Hc; simpl; [|discriminate].
      case_match; intros [= <-]; eauto 6.
    - case_match; intros [= <-]; eauto.
    - intros [= <-]. by left. }
  destruct Hshape as [->|(fallback & -> & Hfb)].
  - split; [simpl; lia|]. split; intros; exfalso; eapply not_elem_of_nil;
      eassumption.
  - split; [simpl; lia|]. split.
    + intros v Hv. apply elem_of_report in Hv as (? & ? & ? & ?).
      repeat (split; [assumption|]). by exists fallback.
    + intros d v Hd Hne Hv. apply elem_of_report in Hv as (_ & _ & _ & ->).
      by rewrite (or_else_description r d fallback Hd Hne).
Qed.

(** C1, as amended. Let some configured pattern of rule [r] be no valid
    regular expression.  If [r] is disabled, [evaluateRules] computes what
    it computes without [r]: the rule contributes nothing and the other
    rules are unaffected.  If [r] is enabled and is one of the rules, the
    call returns only for an empty file list (decision [allow], no
    violation); with at least one file the [SyntaxError] of the RegExp
    constructor ends the whole call and no result is returned. *)
Theorem invalid_pattern_rule files r :
  has_invalid_pattern r = true ->
  (enabled r = false ->
   forall pre post,
     evaluateRules files (pre ++ r :: post)
     = evaluateRules files (pre ++ post)) /\
  (enabled r = true ->
   forall rules, r ∈ rules ->
     evaluateRules files rules =
     match files with
     | [] => Ok {| decision := allow; violations := [] |}
     | _ :: _ => Throw SyntaxError
     end).
Proof.
  intros Hbad. split.
  - intros Hoff pre post. apply evaluateRules_files_ext. intros f _.
    apply evaluateFile_skip, evaluateRule_disabled, Hoff.
  - intros Hon rules Hin. destruct files as [|f files]; [reflexivity|].
    unfold evaluateRules. rewrite mapR_cons.
    assert (Hf : evaluateFile rules f = Throw SyntaxError).
    { unfold evaluateFile.
      rewrite (mapR_raises (fun r' => evaluateRule r' f) rules r SyntaxError).
      - reflexivity.
      - intros r' e. apply evaluateRule_Throw.
      - exact Hin.
      - by apply evaluateRule_invalid. }
    by rewrite Hf.
Qed.

(** C10. A rule of type [custom] yields no violation and raises nothing,
    enabled or not, and the rule list without its custom rules gives the
    same result, hence the same decision, on every file list. *)
Theorem custom_rules_are_skipped files rules :
  (forall i n d en s ev cfg f,
     evaluateRule
       {| id := i; name := n; description := d; enabled := en;
          r_severity := s; kind := custom ev cfg |} f = Ok []) /\
  evaluateRules files (List.filter (fun r => negb (is_custom r)) rules)
  = evaluateRules files rules.
Proof.
  split.
  - intros. by apply evaluateRule_custom.
  - apply evaluateRules_files_ext. intros f _.
    apply evaluateFile_filter_custom.
Qed.

(** Disabled-rule no-op. A rule with [enabled = false] yields no violation
    and raises nothing, whatever the file and whatever its patterns. *)
Theorem disabled_rule_never_reports r f :
  enabled r = false -> evaluateRule r f = Ok [].
Proof. apply evaluateRule_disabled. Qed.

(** Scenario 4. A file with 1500 added and 200 removed lines, evaluated
    against the large-change rule of the default catalogue, gives exactly
    one violation, of severity [warn], and the decision [warn]. *)
Theorem large_change_scenario :
  nth_error DefaultRules.defaultRules 1 = Some Examples.default_size_rule /\
  evaluateRules [Examples.large_file] [Examples.default_size_rule]
  = Ok {| decision := warn;
          violations :=
            [ {| rule := "large-change-default"; file := "large.js";
                 severity := warn;
                 message :=
                   Some "Warns on changes larger than 1000 lines of code";
                 line := None; column := None |} ] |}.
Proof. split; reflexivity. Qed.

End EvaluatorProperties.

Section EvaluatorExamples.
Import Js Types Evaluator Examples.

(** C1, counterexample. With the pattern ["("], which JavaScript
    refuses, in an enabled rule, [evaluateRules] does not return: the call raises
    [SyntaxError], although the other rule alone yields a blocking
    violation for the same file. *)
Lemma invalid_pattern_aborts_evaluation :
  RegExp_new (RegExpEngine := plain_engine) "(" = None /\
  evaluateRules (E := plain_engine) [env_file] [broken_rule true; env_rule]
  = Throw SyntaxError /\
  evaluateRules (E := plain_engine) [env_file] [env_rule]
  = Ok {| decision := block;
          violations :=
            [ {| rule := "env"; file := ".env"; severity := block;
                 message := Some "Modification of sensitive file detected";
                 line := None; column := None |} ] |}.
Proof. repeat split; vm_compute; reflexivity. Qed.

Lemma invalid_pattern_rule_witness :
  has_invalid_pattern (E := plain_engine) (broken_rule false) = true /\
  has_invalid_pattern (E := plain_engine) (broken_rule true) = true /\
  evaluateRules (E := plain_engine) [env_file]
    ([] ++ broken_rule false :: [env_rule])
  = evaluateRules (E := plain_engine) [env_file] ([] ++ [env_rule]) /\
  evaluateRules (E := plain_engine) [env_file] [env_rule; broken_rule true]
  = Throw SyntaxError.
Proof.
  split; [reflexivity|]. split; [reflexivity|]. split.
  - apply (invalid_pattern_rule (E := plain_engine) [env_file]
             (broken_rule false) eq_refl); reflexivity.
  - apply (invalid_pattern_rule (E := plain_engine) [env_file]
             (broken_rule true) eq_refl); [reflexivity|].
    apply list_elem_of_In. simpl. tauto.
Defined.

Lemma evaluateRules_decision_witness :
  evaluateRules (E := plain_engine) [large_file; env_file]
    [size_rule; env_rule]
  = Ok {| decision := block;
          violations :=
            [ {| rule := "size"; file := "large.js"; severity := warn;
                 message :=
                   Some "Large change detected: 1700 lines modified (threshold: 1000)";
                 line := None; column := None |};
              {| rule := "env"; file := ".env"; severity := block;
                 message := Some "Modification of sensitive file detected";
                 line := None; column := None |} ] |} /\
  exists v, v ∈
    [ {| rule := "size"; file := "large.js"; severity := warn;
         message :=
           Some "Large change detected: 1700 lines modified (threshold: 1000)";
         line := None; column := None |};
      {| rule := "env"; file := ".env"; severity := block;
         message := Some "Modification of sensitive file detected";
         line := None; column := None |} ] /\ severity v = block.
Proof.
  split; [vm_compute; reflexivity|].
  apply (evaluateRules_decision (E := plain_engine) [large_file; env_file]
           [size_rule; env_rule] _ eq_refl).
  reflexivity.
Defined.

(** C7, counterexample. The keywords rule of the default catalogue finds
    two keywords in the file and reports one violation whose message is
    the rule's description: neither the keywords nor their number are in
    it. *)
Lemma description_replaces_summary :
  nth_error DefaultRules.defaultRules 2 = Some default_keywords_rule /\
  found_keywords
    match kind default_keywords_rule with
    | suspicious_keywords ks => ks
    | _ => []
    end script_file = ["eval("; "innerHTML"] /\
  evaluateRule (E := plain_engine) default_keywords_rule script_file
  = Ok [ {| rule := "suspicious-keywords-default"; file := "script.js";
            severity := warn;
            message := Some "Warns on potentially dangerous code patterns";
            line := None; column := None |} ].
Proof. repeat split; vm_compute; reflexivity. Qed.

Lemma disabled_rule_never_reports_witness :
  enabled (broken_rule false) = false /\
  evaluateRule (E := plain_engine) (broken_rule false) env_file = Ok [].
Proof.
  split; [reflexivity|].
  apply (disabled_rule_never_reports (E := plain_engine)). reflexivity.
Defined.

Lemma evaluateRule_at_most_one_witness :
  evaluateRule (E := plain_engine) plain_keywords_rule script_file
  = Ok [keywords_violation] /\
  (List.length [keywords_violation] <= 1)%nat.
Proof.
  split; [vm_compute; reflexivity|].
  apply (evaluateRule_at_most_one (E := plain_engine) plain_keywords_rule
           script_file [keywords_violation] eq_refl).
Defined.

End EvaluatorExamples.

Section ParserProperties.
Import Js DiffParser.

(** C6. [parseDiff] returns a list for every text, and the empty list for
    a text none of whose lines starts with [diff --git]. *)
Theorem parseDiff_total_and_empty_without_marker (diffText : string) :
  (exists result, parseDiff diffText = Some result) /\
  (forallb (fun line => negb (startsWith line "diff --git"))
     (split_lines diffText) = true ->
   parseDiff diffText = Some []).
Proof.
  split.
  - apply read_files_wf, wf_run.
  - intros Hno. unfold parseDiff, run.
    rewrite (fold_no_marker _ initial Hno eq_refl). reflexivity.
Qed.

Lemma parseDiff_prose_witness :
  forallb (fun line => negb (startsWith line "diff --git"))
    (split_lines (text_of ["Dear team,"; "+ nothing to see"; "@@ -1 +1 @@"]))
  = true /\
  parseDiff (text_of ["Dear team,"; "+ nothing to see"; "@@ -1 +1 @@"])
  = Some [].
Proof.
  split; [reflexivity|].
  apply (parseDiff_total_and_empty_without_marker
           (text_of ["Dear team,"; "+ nothing to see"; "@@ -1 +1 @@"])).
  reflexivity.
Defined.

(** C3, the code at a failing input. A malformed hunk header after an
    open hunk pushes that hunk onto the file and leaves it open, so the
    end of the input pushes it again: the file counts 2 added lines and
    its hunks hold 4. *)
Lemma parseDiff_count_differs_from_hunks :
  exists file,
    parseDiff
      (text_of ["diff --git a/x b/x"; "@@ -1 +1 @@"; "+a"; "@@ bad"; "+b"])
    = Some [file] /\
    addedLines file = 2%Z /\
    count_lines added file = 4%Z.
Proof. eexists. repeat split; vm_compute; reflexivity. Qed.

(** The same double push follows a line that starts with [diff --git]
    and is no file header: the open file and hunk are saved and stay
    open. *)
Lemma parseDiff_unmatched_marker_repeats_file :
  exists file,
    parseDiff (text_of ["diff --git a/x b/x"; "@@ -1 +1 @@"; "+a"; "diff --git"])
    = Some [file; file] /\
    addedLines file = 1%Z /\
    count_lines added file = 2%Z.
Proof. eexists. repeat split; vm_compute; reflexivity. Qed.

(** C4, the code at a failing input. The line [+b] follows the malformed
    header [@@ bad] and is recorded, in the hunk that was open before the
    header. *)
Lemma parseDiff_records_after_malformed_header :
  parseDiff
    (text_of ["diff --git a/x b/x"; "@@ -1,1 +1,2 @@"; " a"; "@@ bad"; "+b"])
  = Some
      [ {| path := "x"; oldPath := None; changeType := modify;
           addedLines := 1; removedLines := 0;
           hunks :=
             [ {| oldStart := 1; oldLines := 1; newStart := 1; newLines := 2;
                  lines :=
                    [ {| type := context; content := "a";
                         lineNumber := None |};
                      {| type := added; content := "b";
                         lineNumber := None |} ] |};
               {| oldStart := 1; oldLines := 1; newStart := 1; newLines := 2;
                  lines :=
                    [ {| type := context; content := "a";
                         lineNumber := None |};
                      {| type := added; content := "b";
                         lineNumber := None |} ] |} ] |} ].
Proof. vm_compute. reflexivity. Qed.

(** Without a hunk open before it, the malformed header does what C4
    says: the lines after it are recorded nowhere. *)
Lemma parseDiff_ignores_after_first_malformed_header :
  parseDiff
    (text_of ["diff --git a/file.js b/file.js"; "--- a/file.js";
              "+++ b/file.js"; "@@ invalid hunk header @@"; "+some line"; ""])
  = Some
      [ {| path := "file.js"; oldPath := None; changeType := modify;
           addedLines := 0; removedLines := 0; hunks := [] |} ].
Proof. vm_compute. reflexivity. Qed.

(** C5, the code at a failing input. The file [x] has no hunk when the
    header of [y] arrives: it is dropped, and only [y] is returned. *)
Lemma parseDiff_drops_file_without_hunk :
  parseDiff (text_of ["diff --git a/x b/x"; "diff --git a/y b/y"])
  = Some
      [ {| path := "y"; oldPath := None; changeType := modify;
           addedLines := 0; removedLines := 0; hunks := [] |} ].
Proof. vm_compute. reflexivity. Qed.

(** The end of the input saves such a file, as the tests expect of a diff
    without changes. *)
Lemma parseDiff_keeps_last_file_without_hunk :
  parseDiff
    (text_of ["diff --git a/file.js b/file.js";
              "index abc1234..abc1234 100644"; "--- a/file.js";
              "+++ b/file.js"; ""])
  = Some
      [ {| path := "file.js"; oldPath := None; changeType := modify;
           addedLines := 0; removedLines := 0; hunks := [] |} ].
Proof. vm_compute. reflexivity. Qed.

(** Scenario 1, the parser's part. The diff that adds [.env] with two
    lines yields one file of type [add] with two added and no removed
    lines. *)
Lemma parseDiff_env_scenario :
  parseDiff Examples.env_text = Some [Examples.env_file].
Proof. vm_compute. reflexivity. Qed.

End ParserProperties.

(** * Properties of the policy manager *)

Section LoadProperties.
Import Js Types PolicyManager.
Variable JSON_parse : string -> option Json.value.

(** C9, as amended. For a document that is not [null], [loadPolicy]
    raises its format error exactly when the id, the name or the version
    of the document is falsy (absent, [null], [false], [0] or the empty
    string) or its rules are no array, and returns the document itself
    otherwise.  A [null] document raises a [TypeError], and a text that
    [JSON.parse] refuses raises its [SyntaxError]. *)
Theorem loadPolicy_format_error (json : PolicyInput) :
  match json with
  | JsonText s =>
      match JSON_parse s with
      | Some data => loadPolicy JSON_parse json
                     = loadPolicy JSON_parse (JsonObject data)
      | None => loadPolicy JSON_parse json = Throw SyntaxError
      end
  | JsonObject Json.Null => loadPolicy JSON_parse json = Throw TypeError
  | JsonObject data =>
      let complete :=
        Json.truthy (Json.get data "id")
        && Json.truthy (Json.get data "name")
        && Json.truthy (Json.get data "version")
        && Json.isArray (Json.get data "rules") in
      (loadPolicy JSON_parse json = Throw invalid_format
       <-> complete = false) /\
      (loadPolicy JSON_parse json = Ok data <-> complete = true)
  end.
Proof.
  destruct json as [s|data].
  - unfold loadPolicy. destruct (JSON_parse s); reflexivity.
  - unfold loadPolicy, read. destruct data; try reflexivity; simpl.
    all: repeat match goal with
         | |- context [Json.truthy ?v] => destruct (Json.truthy v); simpl
         | |- context [Json.isArray ?v] => destruct (Json.isArray v); simpl
         end.
    all: split; split; congruence.
Qed.

End LoadProperties.

Section LoadExamples.
Import Js Types PolicyManager Examples.

(** C9, counterexample. The document has an id, a name, a version and a
    rules array, and [loadPolicy] raises the format error: the id is the
    empty string, which the test [!data.id] takes for a missing one. *)
Lemma loadPolicy_rejects_empty_id :
  Json.get empty_id_document "id" = Some (Json.Str "") /\
  Json.get empty_id_document "name" = Some (Json.Str "Team policy") /\
  Json.get empty_id_document "version" = Some (Json.Str "1.0.0") /\
  Json.get empty_id_document "rules" = Some (Json.Array []) /\
  loadPolicy no_text (JsonObject empty_id_document) = Throw invalid_format.
Proof. repeat split. Qed.

(** A [null] document raises, but not the format error. *)
Lemma loadPolicy_null_document :
  loadPolicy no_text (JsonObject Json.Null) = Throw TypeError.
Proof. reflexivity. Qed.

Lemma loadPolicy_accepts_team_document :
  loadPolicy no_text (JsonObject team_document) = Ok team_document.
Proof.
  apply (loadPolicy_format_error no_text (JsonObject team_document)).
  reflexivity.
Defined.

End LoadExamples.

Section MergeProperties.
Import Js Types PolicyManager.
Variable clock : nat -> string.
Implicit Types (m : RuleMap) (k : string) (v r : Rule) (rs : list Rule).

Lemma collect_set_all (policies : list Policy) :
  collect policies = set_all (concat (map rules policies)) [].
Proof.
  unfold collect, set_all. generalize (@nil (string * Rule)) as m.
  induction policies as [|p ps IH]; intros m; simpl; [reflexivity|].
  rewrite fold_left_app. apply IH.
Qed.

Lemma keys_map_set k v m : map fst (map_set k v m) = see (map fst m) k.
Proof.
  unfold see. induction m as [|[k' v'] m IH]; simpl; [reflexivity|].
  rewrite (String.eqb_sym k k').
  destruct (String.eqb k' k); simpl; [reflexivity|].
  rewrite IH. by destruct (existsb (String.eqb k) (map fst m)).
Qed.

Lemma keys_set_all rs m :
  map fst (set_all rs m) = fold_left see (map id rs) (map fst m).
Proof.
  unfold set_all. revert m. induction rs as [|r rs IH]; intros m; simpl;
    [reflexivity|].
  by rewrite IH, keys_map_set.
Qed.

Lemma NoDup_see acc k : NoDup acc -> NoDup (see acc k).
Proof.
  intros Hnd. unfold see.
  destruct (existsb (String.eqb k) acc) eqn:Hex; [exact Hnd|].
  apply NoDup_app. split; [exact Hnd|]. split; [|apply NoDup_singleton].
  intros x Hx Hk. apply list_elem_of_singleton in Hk as ->.
  assert (existsb (String.eqb k) acc = true); [|congruence].
  apply existsb_exists. exists k. split; [by apply list_elem_of_In|].
  apply String.eqb_refl.
Qed.

Lemma NoDup_fold_see ks acc : NoDup acc -> NoDup (fold_left see ks acc).
Proof.
  revert acc. induction ks as [|k ks IH]; intros acc H; simpl; [exact H|].
  apply IH, NoDup_see, H.
Qed.

Lemma map_get_map_set k k' v m :
  map_get k' (map_set k v m)
  = if String.eqb k k' then Some v else map_get k' m.
Proof.
  unfold map_get. induction m as [|[k0 v0] m IH]; simpl.
  - by destruct (String.eqb k k').
  - destruct (String.eqb_spec k0 k) as [->|Hne]; simpl.
    + by destruct (String.eqb k k').
    + destruct (String.eqb_spec k0 k') as [->|Hne'].
      * destruct (String.eqb_spec k k'); [congruence|reflexivity].
      * exact IH.
Qed.

Lemma last_with_id_snoc k rs r :
  last_with_id k (rs ++ [r])
  = if String.eqb (id r) k then Some r else last_with_id k rs.
Proof. unfold last_with_id. by rewrite rev_unit. Qed.

Lemma map_get_set_all k rs :
  map_get k (set_all rs []) = last_with_id k rs.
Proof.
  induction rs as [|r rs IH] using rev_ind; [reflexivity|].
  unfold set_all in *. rewrite fold_left_app. simpl.
  by rewrite map_get_map_set, last_with_id_snoc, IH.
Qed.

(** Every entry is filed under the id of its rule. *)
Lemma set_all_keys_are_ids rs m :
  Forall (fun kv => fst kv = id (snd kv)) m ->
  Forall (fun kv => fst kv = id (snd kv)) (set_all rs m).
Proof.
  unfold set_all. revert m. induction rs as [|r rs IH]; intros m Hm; simpl;
    [exact Hm|].
  apply IH. clear IH. induction Hm as [|[k v] m Hkv Hm IHm]; simpl.
  - by constructor.
  - destruct (String.eqb_spec k (id r)) as [->|Hne]; by constructor.
Qed.

Lemma elem_of_map_get k v m :
  NoDup (map fst m) -> (k, v) ∈ m <-> map_get k m = Some v.
Proof.
  unfold map_get. induction m as [|[k0 v0] m IH]; simpl; intros Hnd.
  - split; [intros H; inversion H|discriminate].
  - apply NoDup_cons in Hnd as [Hk0 Hnd]. rewrite elem_of_cons.
    destruct (String.eqb_spec k0 k) as [->|Hne]; simpl.
    + split; [|intros [= ->]; by left].
      intros [[= ->]|Hin]; [reflexivity|].
      exfalso. apply Hk0. apply list_elem_of_fmap. by exists (k, v).
    + rewrite <- (IH Hnd). split; [|by right].
      intros [[= -> ->]|Hin]; [congruence|exact Hin].
Qed.

(** The rules of a merge of at least one policy. *)
Lemma merged_rules (first : Policy) (rest : list Policy) :
  let merged := mergePolicies clock (first :: rest) in
  let given := concat (map rules (first :: rest)) in
  map id (rules merged) = first_seen (map id given) /\
  NoDup (map id (rules merged)) /\
  (forall r, r ∈ rules merged <-> last_with_id (id r) given = Some r).
Proof.
  intros merged given.
  assert (Hrules : rules merged = map snd (set_all given [])).
  { unfold merged, given. simpl rules at 1. by rewrite collect_set_all. }
  assert (Hids : Forall (fun kv => fst kv = id (snd kv)) (set_all given []))
    by (apply set_all_keys_are_ids; constructor).
  assert (Hkeys : map id (rules merged) = first_seen (map id given)).
  { rewrite Hrules. unfold first_seen.
    change (@nil string) with (map fst (@nil (string * Rule))).
    rewrite <- (keys_set_all given []).
    rewrite map_map. apply map_ext_Forall.
    eapply Forall_impl; [exact Hids|]. simpl. intros kv Hkv. by symmetry. }
  assert (Hnd : NoDup (first_seen (map id given)))
    by (apply NoDup_fold_see; constructor).
  split; [exact Hkeys|]. split; [by rewrite Hkeys|].
  intros r. rewrite <- map_get_set_all, Hrules.
  rewrite <- elem_of_map_get
    by (rewrite keys_set_all; exact Hnd).
  rewrite list_elem_of_fmap. split.
  - intros ([k v] & -> & Hin). simpl.
    rewrite Forall_forall in Hids. specialize (Hids _ Hin). simpl in Hids.
    by rewrite <- Hids.
  - intros Hin. by exists (id r, r).
Qed.

(** C8. Merging no policy gives the default policy.  Otherwise the id,
    the name, the description and the version of the result are those of
    the first policy; the ids of its rules are the ids of all given rules,
    each once, in the order in which they are first seen; and a rule is in
    the result exactly when it is the last of the given rules with its id,
    so that a later policy's rule replaces an earlier one of the same id
    in the earlier one's place. *)
Theorem mergePolicies_spec :
  mergePolicies clock [] = createDefaultPolicy clock None /\
  forall (first : Policy) (rest : list Policy),
    let merged := mergePolicies clock (first :: rest) in
    let given := concat (map rules (first :: rest)) in
    p_id merged = p_id first /\
    p_name merged = p_name first /\
    p_description merged = p_description first /\
    version merged = version first /\
    map id (rules merged) = first_seen (map id given) /\
    NoDup (map id (rules merged)) /\
    (forall r, r ∈ rules merged <-> last_with_id (id r) given = Some r).
Proof.
  split; [reflexivity|]. intros first rest merged given.
  repeat (split; [reflexivity|]). apply merged_rules.
Qed.

Lemma last_with_id_app k rs rs' r :
  last_with_id k rs' = Some r -> last_with_id k (rs ++ rs') = Some r.
Proof.
  unfold last_with_id. rewrite rev_app_distr.
  generalize (rev rs') as l. induction l as [|x l IH]; simpl; [discriminate|].
  destruct (String.eqb (id x) k); [done|exact IH].
Qed.

Lemma last_with_id_id k rs r : last_with_id k rs = Some r -> id r = k.
Proof.
  unfold last_with_id. intros H. apply find_some in H as [_ H].
  by apply String.eqb_eq.
Qed.

(** X21. Merge override. When policy [a] declares a rule with an id that
    policy [b] declares too, merging [a] then [b] yields the version of
    [b], and no other rule with that id. *)
Theorem mergePolicies_override (a b : Policy) (ra rb : Rule) :
  ra ∈ rules a ->
  last_with_id (id ra) (rules b) = Some rb ->
  rb ∈ rules (mergePolicies clock [a; b]) /\
  (forall r, r ∈ rules (mergePolicies clock [a; b]) ->
             id r = id ra -> r = rb).
Proof.
  intros _ Hb.
  destruct (merged_rules a [b]) as (_ & _ & Hin).
  assert (Hlast : last_with_id (id ra) (concat (map rules [a; b])) = Some rb).
  { simpl. rewrite app_nil_r. by apply last_with_id_app. }
  pose proof (last_with_id_id _ _ _ Hb) as Hid.
  split.
  - apply Hin. by rewrite Hid.
  - intros r Hr Hidr. apply Hin in Hr. rewrite Hidr in Hr. congruence.
Qed.

End MergeProperties.

Section MergeExamples.
Import Js Types PolicyManager Examples.

(** The rule [size] of [override_policy] takes the place of the one of
    [base_policy]; the new rule [kw] goes to the end. *)
Lemma mergePolicies_override_witness :
  size_rule ∈ rules base_policy /\
  last_with_id (id size_rule) (rules override_policy)
  = Some {| id := "size"; name := "Large change"; description := None;
            enabled := true; r_severity := block;
            kind := large_change 500 |} /\
  map id (rules (mergePolicies noon [base_policy; override_policy]))
  = ["env"; "size"; "mine"; "kw"] /\
  {| id := "size"; name := "Large change"; description := None;
     enabled := true; r_severity := block; kind := large_change 500 |}
  ∈ rules (mergePolicies noon [base_policy; override_policy]).
Proof.
  assert (H1 : size_rule ∈ rules base_policy).
  { apply list_elem_of_In. simpl. tauto. }
  split; [exact H1|]. split; [reflexivity|]. split; [reflexivity|].
  apply (mergePolicies_override noon base_policy override_policy size_rule
           _ H1 eq_refl).
Defined.

End MergeExamples.

(** * Provenance of the parser's output *)

Section ProvenanceFacts.
Import Js DiffParser Provenance.
Implicit Types (seen : list string) (st : State).

Lemma header_describes_mono seen seen' p op c :
  seen ⊆ seen' -> header_describes seen p op c ->
  header_describes seen' p op c.
Proof.
  intros Hsub (line & a & b & Hin & H). exists line, a, b.
  split; [by apply Hsub|exact H].
Qed.

Lemma line_from_mono seen seen' l :
  seen ⊆ seen' -> line_from seen l -> line_from seen' l.
Proof.
  intros Hsub (s & Hin & H). exists s. split; [by apply Hsub|exact H].
Qed.

Lemma hunk_from_mono seen seen' k :
  seen ⊆ seen' -> hunk_from seen k -> hunk_from seen' k.
Proof.
  intros Hsub [(s & g & Hin & H) Hl]. split.
  - exists s, g. split; [by apply Hsub|exact H].
  - eapply Forall_impl; [exact Hl|]. intros l. by apply line_from_mono.
Qed.

Lemma heaps_from_mono seen seen' st :
  seen ⊆ seen' -> heaps_from seen st -> heaps_from seen' st.
Proof.
  intros Hsub [Hf Hh]. split.
  - eapply Forall_impl; [exact Hf|]. intros o [Hd Hc]. split; [|exact Hc].
    by eapply header_describes_mono.
  - eapply Forall_impl; [exact Hh|]. intros k. by apply hunk_from_mono.
Qed.

(** A change of a file object that keeps the paths, sets the type to
    itself, [add] or [delete], and lowers no counter. *)
Lemma heaps_from_update_file seen st f g :
  (forall o, o_path (g o) = o_path o /\ o_oldPath (g o) = o_oldPath o /\
     (o_changeType (g o) = o_changeType o \/ o_changeType (g o) = add
      \/ o_changeType (g o) = delete) /\
     (o_addedLines o <= o_addedLines (g o))%Z /\
     (o_removedLines o <= o_removedLines (g o))%Z) ->
  heaps_from seen st -> heaps_from seen (update_file f g st).
Proof.
  intros Hg [Hf Hh]. split; [|exact Hh]. simpl.
  apply Forall_alter; [exact Hf|]. intros o _ [Hd [Ha Hr]].
  destruct (Hg o) as (Hp & Hop & Hc & Ha' & Hr').
  split; [|lia]. destruct Hd as (line & a & b & Hin & Hm & Hpa & Hopa & Hca).
  exists line, a, b. rewrite Hp, Hop.
  repeat (split; [assumption|]).
  destruct Hc as [-> | [-> | ->]]; tauto.
Qed.

Lemma heaps_from_push_hunk seen st f h :
  heaps_from seen st -> heaps_from seen (push_hunk f h st).
Proof.
  apply heaps_from_update_file. intros o. simpl.
  repeat split; try reflexivity; try lia. by left.
Qed.

Lemma heaps_from_push_file seen st f :
  heaps_from seen st -> heaps_from seen (push_file f st).
Proof. by intros [Hf Hh]. Qed.

Lemma heaps_from_push_line seen st h t line :
  line ∈ seen ->
  startsWith line (marker t) = true ->
  (t = added -> startsWith line "+++" = false) ->
  (t = removed -> startsWith line "---" = false) ->
  heaps_from seen st -> heaps_from seen (push_line h t line st).
Proof.
  intros Hin Hm Ha Hr [Hf Hh]. split; [exact Hf|]. simpl.
  apply Forall_alter; [exact Hh|]. intros k _ [Hk Hl]. split; [exact Hk|].
  simpl. apply Forall_app. split; [exact Hl|].
  constructor; [|constructor]. exists line. by repeat split.
Qed.

Lemma heaps_from_step seen st line :
  heaps_from seen st -> heaps_from (seen ++ [line]) (step st line).
Proof.
  intros H0.
  assert (Hin : line ∈ seen ++ [line])
    by (apply elem_of_app; right; by apply list_elem_of_singleton).
  assert (H : heaps_from (seen ++ [line]) st).
  { eapply heaps_from_mono; [|exact H0]. intros x Hx.
    apply elem_of_app. by left. }
  clear H0. unfold step.
  destruct (startsWith line "diff --git").
  { set (st1 := match currentFile st, currentHunk st with
                | Some f, Some h => push_file f (push_hunk f h st)
                | _, _ => st
                end).
    assert (H1 : heaps_from (seen ++ [line]) st1).
    { unfold st1. repeat case_match; try exact H.
      by apply heaps_from_push_file, heaps_from_push_hunk. }
    destruct (match_file_header line) as [[oldP newP]|] eqn:Hm; [|exact H1].
    destruct H1 as [Hf Hh]. split; [|exact Hh]. simpl.
    apply Forall_app. split; [exact Hf|]. constructor; [|constructor].
    split; [|by simpl]. exists line, oldP, newP. repeat split; try done.
    by left. }
  destruct (startsWith line "index "); [exact H|].
  destruct (startsWith line "new file mode").
  { destruct (currentFile st); [|exact H].
    apply heaps_from_update_file; [|exact H]. intros o. simpl.
    repeat split; try reflexivity; try lia. right. by left. }
  destruct (startsWith line "deleted file mode").
  { destruct (currentFile st); [|exact H].
    apply heaps_from_update_file; [|exact H]. intros o. simpl.
    repeat split; try reflexivity; try lia. right. by right. }
  destruct (startsWith line "rename from"); [exact H|].
  destruct (startsWith line "rename to"); [exact H|].
  destruct (startsWith line "@@").
  { set (st1 := match currentHunk st, currentFile st with
                | Some h, Some f => push_hunk f h st
                | _, _ => st
                end).
    assert (H1 : heaps_from (seen ++ [line]) st1).
    { unfold st1. repeat case_match; try exact H.
      by apply heaps_from_push_hunk. }
    destruct (match_hunk_header line) as [g|] eqn:Hm; [|exact H1].
    destruct (currentFile st1); [|exact H1].
    destruct H1 as [Hf Hh]. split; [exact Hf|]. simpl.
    apply Forall_app. split; [exact Hh|]. constructor; [|constructor].
    split.
    - exists line, g. by repeat split.
    - destruct g as [[[g1 g2] g3] g4]. simpl. constructor. }
  destruct (currentHunk st) as [h|]; [|exact H].
  destruct (currentFile st) as [f|]; [|exact H].
  destruct (startsWith line "+" && negb (startsWith line "+++")) eqn:Hadd.
  { apply andb_prop in Hadd as [Hp Hn]. apply negb_true_iff in Hn.
    apply heaps_from_update_file.
    - intros o. simpl. repeat split; try reflexivity; try lia. by left.
    - by apply heaps_from_push_line. }
  destruct (startsWith line "-" && negb (startsWith line "---")) eqn:Hrem.
  { apply andb_prop in Hrem as [Hp Hn]. apply negb_true_iff in Hn.
    apply heaps_from_update_file.
    - intros o. simpl. repeat split; try reflexivity; try lia. by left.
    - by apply heaps_from_push_line. }
  destruct (startsWith line " ") eqn:Hctx; [|exact H].
  by apply heaps_from_push_line.
Qed.

Lemma heaps_from_fold lines seen st :
  heaps_from seen st -> heaps_from (seen ++ lines) (fold_left step lines st).
Proof.
  revert seen st. induction lines as [|l ls IH]; intros seen st H; simpl.
  - by rewrite app_nil_r.
  - replace (seen ++ l :: ls) with ((seen ++ [l]) ++ ls)
      by (by rewrite <- app_assoc).
    apply IH, heaps_from_step, H.
Qed.

Lemma heaps_from_finish seen st :
  heaps_from seen st -> heaps_from seen (finish st).
Proof.
  intros H. unfold finish.
  repeat case_match;
    repeat first [ exact H | apply heaps_from_push_file
                 | apply heaps_from_push_hunk ].
Qed.

Lemma heaps_from_run lines : heaps_from lines (run lines).
Proof.
  apply heaps_from_finish. apply (heaps_from_fold lines [] initial).
  split; constructor.
Qed.

(** What [read_file] returns is made of a file object and of hunk objects
    of the heaps. *)
Lemma read_file_parts st f file :
  read_file st f = Some file ->
  exists o, o ∈ fileHeap st /\
    path file = o_path o /\ oldPath file = o_oldPath o /\
    changeType file = o_changeType o /\
    addedLines file = o_addedLines o /\
    removedLines file = o_removedLines o /\
    Forall (fun k => k ∈ hunkHeap st) (hunks file).
Proof.
  unfold read_file. destruct (fileHeap st !! f) as [o|] eqn:Ho; [|discriminate].
  simpl. destruct (mapM _ (o_hunks o)) as [ks|] eqn:Hks; [|discriminate].
  simpl. intros [= <-]. exists o. split; [by eapply list_elem_of_lookup_2|].
  repeat split. simpl. apply mapM_Some in Hks.
  induction Hks as [|h k hs ks Hk _ IH]; constructor; [|exact IH].
  by eapply list_elem_of_lookup_2.
Qed.

Lemma parseDiff_parts diffText result file :
  parseDiff diffText = Some result -> file ∈ result ->
  exists o, file_obj_from (split_lines diffText) o /\
    path file = o_path o /\ oldPath file = o_oldPath o /\
    changeType file = o_changeType o /\
    addedLines file = o_addedLines o /\
    removedLines file = o_removedLines o /\
    Forall (hunk_from (split_lines diffText)) (hunks file).
Proof.
  intros Hres Hin. unfold parseDiff, read_files in Hres.
  apply mapM_Some in Hres.
  apply list_elem_of_lookup in Hin as [n Hn].
  destruct (Forall2_lookup_r _ _ _ _ _ Hres Hn) as (f & _ & Hf).
  destruct (heaps_from_run (split_lines diffText)) as [Hfiles Hhunks].
  apply read_file_parts in Hf as (o & Ho & Hp & Hop & Hc & Ha & Hr & Hk).
  rewrite Forall_forall in Hfiles. rewrite Forall_forall in Hhunks.
  exists o. split; [by apply Hfiles|]. repeat (split; [assumption|]).
  eapply Forall_impl; [exact Hk|]. apply Hhunks.
Qed.

End ProvenanceFacts.

Section ProvenanceProperties.
Import Js DiffParser Provenance.

Lemma new_file_oldPath oldP newP p :
  o_oldPath (new_file oldP newP) = Some p ->
  p <> o_path (new_file oldP newP) /\
  o_changeType (new_file oldP newP) = rename.
Proof.
  unfold new_file. simpl.
  destruct (String.eqb oldP "/dev/null" || String.eqb oldP "a"); simpl;
    [by rewrite andb_false_r|].
  destruct (String.eqb newP "/dev/null" || String.eqb newP "b"); simpl;
    [by rewrite andb_false_r|].
  destruct (String.eqb_spec oldP newP) as [->|Hne]; simpl; [discriminate|].
  by intros [= <-].
Qed.

Lemma new_file_rename oldP newP :
  o_changeType (new_file oldP newP) = rename ->
  o_oldPath (new_file oldP newP) = Some oldP /\
  o_path (new_file oldP newP) = newP /\ oldP <> newP.
Proof.
  unfold new_file. simpl.
  destruct (String.eqb oldP "/dev/null" || String.eqb oldP "a"); simpl;
    [discriminate|].
  destruct (String.eqb newP "/dev/null" || String.eqb newP "b"); simpl;
    [discriminate|].
  by destruct (String.eqb_spec oldP newP) as [->|Hne].
Qed.

Lemma new_file_modify oldP newP :
  o_changeType (new_file oldP newP) = modify ->
  o_oldPath (new_file oldP newP) = None.
Proof.
  unfold new_file. simpl.
  destruct (String.eqb oldP "/dev/null" || String.eqb oldP "a"); simpl;
    [discriminate|].
  destruct (String.eqb newP "/dev/null" || String.eqb newP "b"); simpl;
    [discriminate|].
  by destruct (String.eqb_spec oldP newP) as [->|Hne].
Qed.

(** X2. File provenance. On every input, each returned file stems from a line
    of the input that matches the file-header expression: its path and
    its old path are those computed from the two paths of that header,
    and its change type is the one computed from them unless a mode line
    set it to [add] or [delete].  Its two counters are not negative. *)
Theorem parseDiff_file_from_header diffText result file :
  parseDiff diffText = Some result -> file ∈ result ->
  header_describes (split_lines diffText)
    (path file) (oldPath file) (changeType file) /\
  (0 <= addedLines file)%Z /\ (0 <= removedLines file)%Z.
Proof.
  intros Hres Hin.
  destruct (parseDiff_parts _ _ _ Hres Hin)
    as (o & [Hd [Ha Hr]] & -> & -> & -> & -> & -> & _).
  by repeat split.
Qed.

(** X3. Old path and change type. On every input, a returned file of type
    [rename] carries an old path that differs from its path, a file of
    type [modify] carries none, and an old path, whenever present,
    differs from the path. *)
Theorem parseDiff_oldPath_consistent diffText result file :
  parseDiff diffText = Some result -> file ∈ result ->
  (changeType file = rename ->
   exists p, oldPath file = Some p /\ p <> path file) /\
  (changeType file = modify -> oldPath file = None) /\
  (forall p, oldPath file = Some p -> p <> path file).
Proof.
  intros Hres Hin.
  destruct (parseDiff_parts _ _ _ Hres Hin)
    as (o & [Hd _] & -> & -> & -> & _).
  destruct Hd as (line & a & b & _ & _ & Hp & Hop & Hc).
  rewrite Hp, Hop. repeat split.
  - intros Hr. destruct Hc as [Hc|[Hc|Hc]]; try congruence.
    rewrite Hc in Hr. destruct (new_file_rename a b Hr) as (-> & -> & Hne).
    by exists a.
  - intros Hm. destruct Hc as [Hc|[Hc|Hc]]; try congruence.
    rewrite Hc in Hm. by apply new_file_modify.
  - intros p Hsome. by apply new_file_oldPath in Hsome as [Hne _].
Qed.

Lemma startsWith_drop_marker s c :
  startsWith s (String c "") = true ->
  startsWith s (String c (String c (String c ""))) = false ->
  startsWith (substring_from 1 s) (String c (String c "")) = false.
Proof.
  unfold startsWith. destruct s as [|c0 s]; simpl; [discriminate|].
  destruct (ascii_dec c c0) as [<-|]; [|discriminate].
  intros _. destruct s as [|c1 s]; simpl; [reflexivity|].
  destruct (ascii_dec c c1); [|reflexivity].
  destruct s as [|c2 s]; simpl; [reflexivity|].
  by destruct (ascii_dec c c2).
Qed.

(** X4. Hunk and line provenance. On every input, each hunk of a returned
    file has the numbers of a line of the input that matches the
    hunk-header expression, and each of its lines is a line of the input
    without its first character, which is [+], [-] or a space according
    to the kind; no line has a line number.  A [+++] line is never
    recorded as added and a [---] line never as removed: no added content
    starts with [++] and no removed content with [--]. *)
Theorem parseDiff_lines_from_input diffText result file hunk :
  parseDiff diffText = Some result -> file ∈ result -> hunk ∈ hunks file ->
  hunk_from (split_lines diffText) hunk /\
  (forall l, l ∈ lines hunk ->
     lineNumber l = None /\
     (type l = added -> startsWith (content l) "++" = false) /\
     (type l = removed -> startsWith (content l) "--" = false)).
Proof.
  intros Hres Hin Hh.
  destruct (parseDiff_parts _ _ _ Hres Hin) as (o & _ & _ & _ & _ & _ & _ & Hk).
  rewrite Forall_forall in Hk. specialize (Hk hunk Hh).
  split; [exact Hk|]. destruct Hk as [_ Hl]. rewrite Forall_forall in Hl.
  intros l Hlin. destruct (Hl l Hlin) as (s & _ & Hm & -> & Hn & Ha & Hr).
  split; [exact Hn|]. split; intros Ht; rewrite Ht in Hm; simpl in Hm.
  - apply (startsWith_drop_marker s "+" Hm (Ha Ht)).
  - apply (startsWith_drop_marker s "-" Hm (Hr Ht)).
Qed.

Lemma parseDiff_file_from_header_witness :
  parseDiff Examples.modify_text = Some [Examples.modify_file] /\
  Examples.modify_file ∈ [Examples.modify_file] /\
  header_describes (split_lines Examples.modify_text)
    "file.js" None modify.
Proof.
  assert (Hparse : parseDiff Examples.modify_text
                   = Some [Examples.modify_file])
    by (vm_compute; reflexivity).
  assert (Hin : Examples.modify_file ∈ [Examples.modify_file]) by (by left).
  split; [exact Hparse|]. split; [exact Hin|].
  apply (parseDiff_file_from_header Examples.modify_text
           [Examples.modify_file] Examples.modify_file Hparse Hin).
Defined.

Lemma parseDiff_oldPath_consistent_witness :
  parseDiff Examples.rename_text = Some [Examples.rename_file] /\
  changeType Examples.rename_file = rename /\
  exists p, oldPath Examples.rename_file = Some p /\
            p <> path Examples.rename_file.
Proof.
  assert (Hparse : parseDiff Examples.rename_text
                   = Some [Examples.rename_file])
    by (vm_compute; reflexivity).
  split; [exact Hparse|]. split; [reflexivity|].
  apply (parseDiff_oldPath_consistent Examples.rename_text
           [Examples.rename_file] Examples.rename_file Hparse);
    [by left|reflexivity].
Defined.

Lemma parseDiff_lines_from_input_witness :
  parseDiff Examples.modify_text = Some [Examples.modify_file] /\
  Examples.modify_hunk ∈ hunks Examples.modify_file /\
  hunk_from (split_lines Examples.modify_text) Examples.modify_hunk.
Proof.
  assert (Hparse : parseDiff Examples.modify_text
                   = Some [Examples.modify_file])
    by (vm_compute; reflexivity).
  assert (Hin : Examples.modify_file ∈ [Examples.modify_file]) by (by left).
  assert (Hh : Examples.modify_hunk ∈ hunks Examples.modify_file)
    by (by left).
  split; [exact Hparse|]. split; [exact Hh|].
  apply (parseDiff_lines_from_input Examples.modify_text
           [Examples.modify_file] Examples.modify_file Examples.modify_hunk
           Hparse Hin Hh).
Defined.

End ProvenanceProperties.

(** * The number of files and the summary *)

Section SummaryFacts.
Import Js DiffParser DiffSummary.

Lemma pending_step st line :
  pending (step st line)
  <= pending st + (if startsWith line "diff --git" then 1 else 0).
Proof.
  unfold step, pending.
  destruct (startsWith line "diff --git").
  { destruct (currentFile st) as [f|] eqn:Hf;
      destruct (currentHunk st) as [h|] eqn:Hh;
      destruct (match_file_header line) as [[a b]|]; simpl;
      rewrite ?length_app, ?Hf; simpl; lia. }
  destruct (currentFile st) as [f|] eqn:Hf;
    destruct (currentHunk st) as [h|] eqn:Hh;
    repeat case_match; simpl; rewrite ?Hf; simpl; try lia; congruence.
Qed.

Lemma pending_fold lines st :
  pending (fold_left step lines st)
  <= pending st + List.length (marker_lines lines).
Proof.
  revert st. induction lines as [|l ls IH]; intros st; simpl; [lia|].
  specialize (IH (step st l)). pose proof (pending_step st l) as Hs.
  unfold marker_lines in *. simpl.
  destruct (startsWith l "diff --git"); simpl; lia.
Qed.

Lemma files_finish st : List.length (files (finish st)) <= pending st.
Proof.
  unfold finish, pending.
  destruct (currentHunk st); destruct (currentFile st) eqn:Hf; simpl;
    rewrite ?Hf; simpl; rewrite ?length_app; simpl; lia.
Qed.

Lemma fold_add_acc {A} (g : A -> Z) xs acc :
  fold_left (fun sum x => (sum + g x)%Z) xs acc
  = (acc + sum_list (map g xs))%Z.
Proof.
  revert acc. induction xs as [|x xs IH]; intros acc; simpl; [lia|].
  rewrite IH. unfold sum_list. lia.
Qed.


End SummaryFacts.

Section SummaryProperties.
Import Js DiffParser DiffSummary.

(** X5. Files and headers. On every input, [parseDiff] returns at most as
    many files as the input has lines that start with [diff --git]. *)
Theorem parseDiff_length_bound diffText result :
  parseDiff diffText = Some result ->
  List.length result <= List.length (marker_lines (split_lines diffText)).
Proof.
  unfold parseDiff, read_files, run. intros Hres.
  apply length_mapM in Hres. rewrite <- Hres.
  etransitivity; [apply files_finish|].
  etransitivity; [apply pending_fold|]. simpl. lia.
Qed.

Lemma parseDiff_length_bound_witness :
  parseDiff Examples.modify_text = Some [Examples.modify_file] /\
  List.length [Examples.modify_file]
  <= List.length (marker_lines (split_lines Examples.modify_text)).
Proof.
  assert (Hparse : parseDiff Examples.modify_text
                   = Some [Examples.modify_file])
    by (vm_compute; reflexivity).
  split; [exact Hparse|].
  apply (parseDiff_length_bound Examples.modify_text _ Hparse).
Defined.


(** X7. Parser and summary. For a text with well-formed headers, the totals
    of the summary of the parsed files are the numbers of added and of
    removed lines over all hunks of all files. *)
Theorem getDiffSummary_of_parseDiff diffText result :
  well_formed_headers (split_lines diffText) = true ->
  parseDiff diffText = Some result ->
  totalAdded (getDiffSummary result) = count_in added (lines_of result) /\
  totalRemoved (getDiffSummary result) = count_in removed (lines_of result).
Proof.
  intros Hok Hres.
  assert (H : forall file, file ∈ result ->
     addedLines file = count_lines added file /\
     removedLines file = count_lines removed file)
    by (by apply (parseDiff_conservation_all diffText)).
  simpl. rewrite !fold_add_acc. unfold lines_of.
  clear Hres Hok. induction result as [|f fs IH]; [by split|].
  simpl. rewrite !count_in_app.
  destruct (H f ltac:(by left)) as [-> ->].
  destruct IH as [IHa IHr]; [intros; apply H; by right|].
  unfold sum_list in *. simpl in *.
  change (count_lines added f)
    with (count_in added (concat (map lines (hunks f)))).
  change (count_lines removed f)
    with (count_in removed (concat (map lines (hunks f)))).
  split; lia.
Qed.

Lemma getDiffSummary_of_parseDiff_witness :
  well_formed_headers (split_lines Examples.modify_text) = true /\
  parseDiff Examples.modify_text = Some [Examples.modify_file] /\
  totalAdded (getDiffSummary [Examples.modify_file]) = 1%Z /\
  totalRemoved (getDiffSummary [Examples.modify_file]) = 0%Z.
Proof.
  assert (Hparse : parseDiff Examples.modify_text
                   = Some [Examples.modify_file])
    by (vm_compute; reflexivity).
  split; [reflexivity|]. split; [exact Hparse|].
  apply (getDiffSummary_of_parseDiff Examples.modify_text
           [Examples.modify_file] eq_refl Hparse).
Defined.

End SummaryProperties.

(** * Header lines and the two expressions *)

Section HeaderFacts.
Import Js DiffParser Headers.

Lemma list_ascii_app s s' :
  list_ascii_of_string (s ++ s') =
  (list_ascii_of_string s ++ list_ascii_of_string s')%list.
Proof. induction s as [|c s IH]; simpl; [reflexivity|]. by rewrite IH. Qed.

Lemma string_app_assoc (s1 s2 s3 : string) :
  ((s1 ++ s2) ++ s3 = s1 ++ (s2 ++ s3))%string.
Proof. induction s1 as [|c s1 IH]; simpl; [reflexivity|]. by rewrite IH. Qed.

Lemma string_app_nil_r (s : string) : (s ++ "")%string = s.
Proof. induction s as [|c s IH]; simpl; [reflexivity|]. by rewrite IH. Qed.

(** The separator does not start inside the old path's tail [t] when [t]
    does not contain it. *)
Lemma separator_not_at_head c t q :
  includes (String c t) " b/" = false ->
  startsWith (String c t ++ " b/" ++ q) " b/" = false.
Proof.
  unfold startsWith. cbn [includes]. intros H.
  apply orb_false_elim in H as [H _]. revert H.
  cbn [String.prefix append].
  destruct (ascii_dec " " c) as [<-|]; [|reflexivity].
  destruct t as [|c1 t]; cbn [String.prefix append].
  { by destruct (ascii_dec "b" " "). }
  destruct (ascii_dec "b" c1) as [<-|]; [|reflexivity].
  destruct t as [|c2 t]; cbn [String.prefix append].
  { by destruct (ascii_dec "/" " "). }
  destruct (ascii_dec "/" c2) as [<-|]; [|reflexivity].
  by destruct t.
Qed.

Lemma startsWith_app (p q : string) : startsWith (p ++ q) p = true.
Proof.
  unfold startsWith. induction p as [|c p IH]; cbn [String.prefix append].
  - by destruct q.
  - by destruct (ascii_dec c c).
Qed.

Lemma substring_from_app (p q : string) :
  substring_from (String.length p) (p ++ q) = q.
Proof. induction p as [|c p IH]; [reflexivity|exact IH]. Qed.

Lemma lazy_old_path_finds t g1 q :
  includes t " b/" = false ->
  no_line_terminator t = true ->
  q <> "" -> no_line_terminator q = true ->
  lazy_old_path g1 (t ++ " b/" ++ q) = Some ((g1 ++ t)%string, q).
Proof.
  intros Hinc Ht Hq Hqt. revert g1 Hinc Ht.
  induction t as [|c t IH]; intros g1 Hinc Ht.
  - change ("" ++ " b/" ++ q)%string with (String " " ("b/" ++ q)).
    cbn [lazy_old_path].
    change (String " " ("b/" ++ q)) with (" b/" ++ q)%string.
    rewrite startsWith_app.
    change 3 with (String.length " b/"). rewrite substring_from_app.
    destruct (String.eqb_spec q "") as [->|_]; [congruence|].
    unfold no_line_terminator in Hqt. rewrite Hqt.
    by rewrite string_app_nil_r.
  - pose proof (separator_not_at_head c t q Hinc) as Hhead.
    change ((String c t ++ " b/" ++ q)%string)
      with (String c (t ++ " b/" ++ q)) in *.
    cbn [lazy_old_path]. rewrite Hhead. cbn [andb].
    unfold no_line_terminator in Ht. cbn [list_ascii_of_string forallb] in Ht.
    apply andb_prop in Ht as [Hc Ht]. apply negb_true_iff in Hc.
    rewrite Hc. cbn [includes] in Hinc.
    apply orb_false_elim in Hinc as [_ Hinc].
    rewrite IH by assumption. by rewrite string_app_assoc.
Qed.










End HeaderFacts.

Section HeaderProperties.
Import Js DiffParser Headers.

Lemma split_lines_aux_single cur s :
  forallb (fun c => negb (Ascii.eqb c LF)) (list_ascii_of_string s) = true ->
  split_lines_aux cur s = [(cur ++ s)%string].
Proof.
  revert cur. induction s as [|c s IH]; intros cur H; simpl.
  - by rewrite string_app_nil_r.
  - simpl in H. apply andb_prop in H as [Hc Hs]. apply negb_true_iff in Hc.
    rewrite Hc, IH by exact Hs. by rewrite string_app_assoc.
Qed.

Lemma no_line_terminator_no_LF s :
  no_line_terminator s = true ->
  forallb (fun c => negb (Ascii.eqb c LF)) (list_ascii_of_string s) = true.
Proof.
  unfold no_line_terminator. induction (list_ascii_of_string s) as [|c l IH];
    simpl; [done|].
  intros H. apply andb_prop in H as [Hc Hl]. rewrite (IH Hl), andb_true_r.
  unfold is_line_terminator in Hc. by destruct (Ascii.eqb c LF).
Qed.

Lemma match_file_header_line oldP newP :
  oldP <> "" -> newP <> "" ->
  no_line_terminator oldP = true -> no_line_terminator newP = true ->
  includes oldP " b/" = false ->
  match_file_header (file_header_line oldP newP) = Some (oldP, newP).
Proof.
  intros Ho Hn Hot Hnt Hinc. unfold match_file_header, file_header_line.
  rewrite startsWith_app.
  change 13 with (String.length "diff --git a/"). rewrite substring_from_app.
  destruct oldP as [|c t]; [congruence|].
  change ((String c t ++ " b/" ++ newP)%string)
    with (String c (t ++ " b/" ++ newP)).
  unfold no_line_terminator in Hot. cbn [list_ascii_of_string forallb] in Hot.
  apply andb_prop in Hot as [Hc Ht]. apply negb_true_iff in Hc. rewrite Hc.
  cbn [includes] in Hinc. apply orb_false_elim in Hinc as [_ Hinc].
  by rewrite lazy_old_path_finds.
Qed.

(** X8. File header round trip. A header line written from an old path and a
    new path is read back as these two paths whenever both are non-empty
    and free of line terminators and the old path does not contain the
    separator [" b/"]; a text that consists of this line parses to one
    file, without hunks and with zero counters, whose path, old path and
    change type are those computed from the two paths. *)
Theorem file_header_round_trip oldP newP :
  oldP <> "" -> newP <> "" ->
  no_line_terminator oldP = true -> no_line_terminator newP = true ->
  includes oldP " b/" = false ->
  match_file_header (file_header_line oldP newP) = Some (oldP, newP) /\
  parseDiff (file_header_line oldP newP)
  = Some [ {| path := o_path (new_file oldP newP);
              oldPath := o_oldPath (new_file oldP newP);
              changeType := o_changeType (new_file oldP newP);
              addedLines := 0; removedLines := 0; hunks := [] |} ].
Proof.
  intros Ho Hn Hot Hnt Hinc.
  pose proof (match_file_header_line oldP newP Ho Hn Hot Hnt Hinc) as Hm.
  split; [exact Hm|].
  assert (Hlines : split_lines (file_header_line oldP newP)
                   = [file_header_line oldP newP]).
  { unfold split_lines. rewrite split_lines_aux_single; [reflexivity|].
    unfold file_header_line. rewrite !list_ascii_app, !forallb_app.
    rewrite (no_line_terminator_no_LF _ Hot), (no_line_terminator_no_LF _ Hnt).
    reflexivity. }
  unfold parseDiff, run. rewrite Hlines. cbn [fold_left]. unfold step.
  assert (Hs : startsWith (file_header_line oldP newP) "diff --git" = true).
  { change (file_header_line oldP newP)
      with ("diff --git" ++ (" a/" ++ oldP ++ " b/" ++ newP))%string.
    apply startsWith_app. }
  rewrite Hs, Hm. reflexivity.
Qed.

(** X9. Early split. When the old path contains the separator [" b/"], the
    header line is read back with the old path cut at the first
    separator and the rest, separator included, in front of the new
    path. *)
Theorem file_header_splits_early p1 p2 newP :
  p1 <> "" -> newP <> "" ->
  no_line_terminator p1 = true -> no_line_terminator p2 = true ->
  no_line_terminator newP = true ->
  includes p1 " b/" = false ->
  match_file_header (file_header_line (p1 ++ " b/" ++ p2) newP)
  = Some (p1, (p2 ++ " b/" ++ newP)%string).
Proof.
  intros H1 Hn Ht1 Ht2 Htn Hinc.
  replace (file_header_line (p1 ++ " b/" ++ p2) newP)
    with (file_header_line p1 (p2 ++ " b/" ++ newP)).
  - apply match_file_header_line; try assumption.
    + by destruct p2.
    + unfold no_line_terminator in *.
      rewrite !list_ascii_app, !forallb_app, Ht2, Htn. reflexivity.
  - unfold file_header_line. by rewrite !string_app_assoc.
Qed.

Lemma file_header_round_trip_witness :
  match_file_header (file_header_line "src/old name.js" "src/new name.js")
  = Some ("src/old name.js", "src/new name.js").
Proof.
  apply (file_header_round_trip "src/old name.js" "src/new name.js");
    first [discriminate | reflexivity].
Defined.

Lemma file_header_splits_early_witness :
  match_file_header (file_header_line "x b/y" "x b/y")
  = Some ("x", "y b/x b/y").
Proof.
  apply (file_header_splits_early "x" "y" "x b/y");
    first [discriminate | reflexivity].
Defined.



End HeaderProperties.

(** * What [evaluateRules] returns, and when *)

Section VerdictFacts.
Import Js Types Evaluator Verdict.
Context {E : RegExpEngine}.
Implicit Types (r : Rule) (f : DiffParser.DiffFile).

Lemma mapR_compile_valid ps :
  existsb (fun p => negb (is_Ok (compile p))) ps = false ->
  exists res, mapR compile ps = Ok res.
Proof.
  induction ps as [|p ps IH]; cbn [existsb]; intros H; [by exists []|].
  apply orb_false_elim in H as [Hp Hps]. rewrite mapR_cons.
  destruct (compile p) as [re|e]; [|discriminate].
  destruct (IH Hps) as [res ->]. by eexists.
Qed.

(** A rule whose patterns compile returns on every file. *)
Lemma evaluateRule_valid r f :
  has_invalid_pattern r = false -> exists vs, evaluateRule r f = Ok vs.
Proof.
  unfold has_invalid_pattern, rule_patterns, evaluateRule,
    evaluateSensitiveFileRule, evaluateLargeChangeRule,
    evaluateSuspiciousKeywordsRule, evaluatePotentialSecretRule,
    evaluateLargeMigrationRule, evaluatePathPatternRule,
    evaluateLinePatternRule, evaluateFileSizeRule.
  intros H. destruct (enabled r); simpl; [|by eexists].
  destruct (kind r); simpl in *.
  all: try (destruct (mapR_compile_valid _ H) as [res ->]; simpl;
            case_match; by eexists).
  all: try (case_match; by eexists).
  all: try (rewrite orb_false_r in H;
            destruct (compile pattern) as [re|e]; [|discriminate]; simpl;
            case_match; by eexists).
  by eexists.
Qed.

Lemma evaluateRule_returns_iff r f :
  is_Ok (evaluateRule r f) = negb (enabled r && has_invalid_pattern r).
Proof.
  destruct (enabled r) eqn:Hen; simpl.
  - destruct (has_invalid_pattern r) eqn:Hbad; simpl.
    + by rewrite evaluateRule_invalid.
    + by destruct (evaluateRule_valid r f Hbad) as [vs ->].
  - by rewrite evaluateRule_disabled.
Qed.

Lemma mapR_is_Ok {A B} (g : A -> result B) xs :
  is_Ok (mapR g xs) = forallb (fun x => is_Ok (g x)) xs.
Proof.
  induction xs as [|x xs IH]; [reflexivity|].
  rewrite mapR_cons. cbn [forallb]. rewrite <- IH.
  destruct (g x); [|reflexivity]. by destruct (mapR g xs).
Qed.

Lemma mapR_Ok_map {A B} (g : A -> result (list B)) xs ys :
  mapR g xs = Ok ys ->
  ys = map (fun x => match g x with Ok v => v | Throw _ => [] end) xs.
Proof.
  rewrite mapR_Ok. induction 1 as [|x y xs ys Hx _ IH]; [reflexivity|].
  simpl. by rewrite Hx, IH.
Qed.

Lemma evaluateFile_returns_iff rules f :
  is_Ok (evaluateFile rules f) = patterns_valid rules.
Proof.
  unfold evaluateFile, patterns_valid.
  transitivity (is_Ok (mapR (fun r => evaluateRule r f) rules)).
  - by destruct (mapR _ rules).
  - rewrite mapR_is_Ok. induction rules as [|r rules IH]; [reflexivity|].
    cbn [forallb]. by rewrite IH, evaluateRule_returns_iff.
Qed.

Lemma evaluateFile_violations rules f vs :
  evaluateFile rules f = Ok vs ->
  vs = concat (map (fun r => violations_of r f) rules).
Proof.
  intros H. apply evaluateFile_Ok in H as (vss & Hvss & ->).
  by rewrite (mapR_Ok_map _ _ _ Hvss).
Qed.

Lemma evaluateRules_violations files rules res :
  evaluateRules files rules = Ok res ->
  violations res = all_violations files rules /\
  decision res = decide_on (all_violations files rules).
Proof.
  intros H. apply evaluateRules_Ok in H as (vss & Hvss & ->). simpl.
  assert (Heq : concat vss = all_violations files rules).
  { unfold all_violations. f_equal.
    apply mapR_Ok in Hvss.
    induction Hvss as [|f vs fs vss Hf _ IH]; [reflexivity|].
    simpl. by rewrite IH, (evaluateFile_violations _ _ _ Hf). }
  by rewrite Heq.
Qed.

Lemma evaluateRules_is_Ok files rules :
  is_Ok (evaluateRules files rules)
  = match files with [] => true | _ :: _ => patterns_valid rules end.
Proof.
  unfold evaluateRules.
  transitivity (is_Ok (mapR (evaluateFile rules) files)).
  - by destruct (mapR _ files).
  - rewrite mapR_is_Ok. destruct files as [|f fs]; [reflexivity|].
    simpl. rewrite evaluateFile_returns_iff.
    destruct (patterns_valid rules) eqn:Hv; [|reflexivity]. simpl.
    induction fs as [|f' fs IH]; [reflexivity|].
    simpl. by rewrite evaluateFile_returns_iff, Hv.
Qed.

Lemma evaluateRules_Throw files rules e :
  evaluateRules files rules = Throw e -> e = SyntaxError.
Proof.
  unfold evaluateRules.
  destruct (mapR _ files) as [vss|e'] eqn:H; simpl; [discriminate|].
  intros [= <-]. apply mapR_Throw in H as (f & _ & Hf).
  eapply evaluateFile_Throw, Hf.
Qed.

(** The result as a function of the two lists. *)
Lemma evaluateRules_value files rules :
  evaluateRules files rules =
  if match files with [] => true | _ :: _ => patterns_valid rules end
  then Ok {| decision := decide_on (all_violations files rules);
             violations := all_violations files rules |}
  else Throw SyntaxError.
Proof.
  pose proof (evaluateRules_is_Ok files rules) as Hok.
  destruct (evaluateRules files rules) as [res|e] eqn:Hres; simpl in Hok;
    rewrite <- Hok.
  - destruct (evaluateRules_violations _ _ _ Hres) as [Hv Hd].
    destruct res as [d vs]. simpl in *. by subst.
  - by rewrite (evaluateRules_Throw _ _ _ Hres).
Qed.

Lemma decide_on_app (vs vs' : list RuleViolation) :
  decide_on (vs ++ vs') = stricter (decide_on vs) (decide_on vs').
Proof.
  unfold decide_on, has_severity. rewrite !existsb_app.
  destruct (existsb _ vs), (existsb _ vs'), (existsb _ vs), (existsb _ vs');
    reflexivity.
Qed.

Lemma all_violations_app files files' rules :
  all_violations (files ++ files') rules
  = all_violations files rules ++ all_violations files' rules.
Proof. unfold all_violations. by rewrite map_app, concat_app. Qed.

Lemma violations_of_shape r f :
  violations_of r f = [] \/
  enabled r = true /\ is_custom r = false /\
  exists fallback, violations_of r f = report r f fallback.
Proof.
  unfold violations_of, is_custom, evaluateRule, evaluateSensitiveFileRule,
    evaluateLargeChangeRule, evaluateSuspiciousKeywordsRule,
    evaluatePotentialSecretRule, evaluateLargeMigrationRule,
    evaluatePathPatternRule, evaluateLinePatternRule, evaluateFileSizeRule.
  destruct (enabled r); simpl; [|by left].
  destruct (kind r) eqn:Hk; simpl.
  all: try (destruct (mapR compile _); simpl; [|by left]).
  all: try (destruct (compile _); simpl; [|by left]).
  all: try (match goal with
            | |- context [if ?c then Ok _ else Ok _] => destruct c
            end; [right; repeat split; by eexists|by left]).
  by left.
Qed.

End VerdictFacts.

Section VerdictProperties.
Import Js Types Evaluator Verdict.
Context {E : RegExpEngine}.
Implicit Types (r : Rule) (f : DiffParser.DiffFile).

(** X11. Totality and order. [evaluateRules] returns exactly when the file
    list is empty or no enabled rule has a pattern that fails to compile,
    and raises [SyntaxError] otherwise.  When it returns, the violations
    are those of all pairs of a file and a rule, in the order of the
    files and, for one file, in the order of the rules, and the decision
    is the reduction of this list. *)
Theorem evaluateRules_order_and_totality files rules :
  evaluateRules files rules =
  if match files with [] => true | _ :: _ => patterns_valid rules end
  then Ok {| decision := decide_on (all_violations files rules);
             violations := all_violations files rules |}
  else Throw SyntaxError.
Proof. apply evaluateRules_value. Qed.

Lemma violations_of_disabled r f : enabled r = false -> violations_of r f = [].
Proof. intros H. unfold violations_of. by rewrite evaluateRule_disabled. Qed.

Lemma all_violations_enabled files rules :
  all_violations files (List.filter enabled rules) = all_violations files rules.
Proof.
  unfold all_violations. f_equal. apply map_ext. intros f.
  induction rules as [|r rules IH]; [reflexivity|].
  cbn [List.filter]. destruct (enabled r) eqn:Hen; simpl.
  - by rewrite IH.
  - by rewrite IH, violations_of_disabled.
Qed.

Lemma patterns_valid_enabled rules :
  patterns_valid (List.filter enabled rules) = patterns_valid rules.
Proof.
  unfold patterns_valid. induction rules as [|r rules IH]; [reflexivity|].
  cbn [List.filter]. destruct (enabled r) eqn:Hen; simpl; rewrite ?Hen, IH;
    reflexivity.
Qed.

(** X12. Disabled rules. Taking the disabled rules out of the list changes
    nothing: same violations and decision, or same exception. *)
Theorem evaluateRules_enabled_only files rules :
  evaluateRules files (List.filter enabled rules) = evaluateRules files rules.
Proof.
  rewrite !evaluateRules_value.
  by rewrite all_violations_enabled, patterns_valid_enabled.
Qed.

(** X13. Files one after the other. Evaluating two file lists put together is
    evaluating the first, then the second: an exception of either ends
    the call, otherwise the violations are those of the first followed by
    those of the second and the decision is the stricter of the two. *)
Theorem evaluateRules_app files files' rules :
  evaluateRules (files ++ files') rules =
  (r1 ← evaluateRules files rules;
   r2 ← evaluateRules files' rules;
   Ok {| decision := stricter (decision r1) (decision r2);
         violations := violations r1 ++ violations r2 |}).
Proof.
  rewrite !evaluateRules_value, all_violations_app, decide_on_app.
  destruct files as [|f fs]; destruct files' as [|f' fs']; simpl;
    destruct (patterns_valid rules); simpl; try reflexivity.
  all: rewrite ?app_nil_r; try reflexivity.
  all: by destruct (decide_on _).
Qed.







Lemma elem_of_all_violations files rules v :
  v ∈ all_violations files rules ->
  exists f r, f ∈ files /\ r ∈ rules /\ v ∈ violations_of r f.
Proof.
  unfold all_violations. intros Hv.
  apply list_elem_of_In, in_concat in Hv as (vs & Hvs & Hv).
  apply in_map_iff in Hvs as (f & <- & Hf).
  apply in_concat in Hv as (vs' & Hvs' & Hv).
  apply in_map_iff in Hvs' as (r & <- & Hr).
  exists f, r. by rewrite !list_elem_of_In.
Qed.

Lemma length_all_violations files rules :
  List.length (all_violations files rules)
  <= List.length files * List.length (List.filter enabled rules).
Proof.
  unfold all_violations.
  assert (Hrow : forall f,
    List.length (concat (map (fun r => violations_of r f) rules))
    <= List.length (List.filter enabled rules)).
  { intros f. induction rules as [|r rules IH]; [simpl; lia|].
    cbn [map concat List.filter]. rewrite length_app.
    destruct (violations_of_shape r f) as [-> | (-> & _ & fb & ->)].
    - destruct (enabled r); simpl; lia.
    - simpl. lia. }
  induction files as [|f fs IH]; simpl; [lia|].
  rewrite length_app. specialize (Hrow f). lia.
Qed.

(** X15. Provenance and number of the violations. Every violation that
    [evaluateRules] returns names an enabled rule of the list that is not
    of type [custom] and the path of a file of the list, has the severity
    of that rule and neither line nor column; there are at most as many
    violations as pairs of a file and an enabled rule. *)
Theorem evaluateRules_violations_from_rules files rules res :
  evaluateRules files rules = Ok res ->
  (forall v, v ∈ violations res ->
     exists f r,
       f ∈ files /\ r ∈ rules /\ enabled r = true /\ is_custom r = false /\
       rule v = id r /\ file v = DiffParser.path f /\
       severity v = r_severity r /\ line v = None /\ column v = None) /\
  List.length (violations res)
  <= List.length files * List.length (List.filter enabled rules).
Proof.
  intros Hres. destruct (evaluateRules_violations _ _ _ Hres) as [-> _].
  split; [|apply length_all_violations].
  intros v Hv. apply elem_of_all_violations in Hv as (f & r & Hf & Hr & Hv).
  exists f, r. split; [exact Hf|]. split; [exact Hr|].
  destruct (violations_of_shape r f) as [H|(Hen & Hc & fb & H)];
    rewrite H in Hv; [by apply not_elem_of_nil in Hv|].
  apply list_elem_of_singleton in Hv as ->. by repeat split.
Qed.

(** X16. A decision needs a rule. When [evaluateRules] returns [warn] or
    [block], some enabled rule of the list has that severity; a list
    whose enabled rules all have severity [allow] always gives
    [allow]. *)
Theorem evaluateRules_decision_from_rule files rules res :
  evaluateRules files rules = Ok res ->
  decision res <> allow ->
  exists r, r ∈ rules /\ enabled r = true /\ r_severity r = decision res.
Proof.
  intros Hres Hd. destruct (evaluateRules_violations _ _ _ Hres) as [_ Hdec].
  rewrite Hdec in *. unfold decide_on in *.
  assert (Hsev : forall s, has_severity s (all_violations files rules) = true ->
     exists r, r ∈ rules /\ enabled r = true /\ r_severity r = s).
  { intros s Hs. apply has_severity_true in Hs as (v & Hv & <-).
    apply elem_of_all_violations in Hv as (f & r & _ & Hr & Hv).
    exists r. split; [exact Hr|].
    destruct (violations_of_shape r f) as [H|(Hen & _ & fb & H)];
      rewrite H in Hv; [by apply not_elem_of_nil in Hv|].
    apply list_elem_of_singleton in Hv as ->. by split. }
  destruct (has_severity block _) eqn:Hb; [by apply Hsev|].
  destruct (has_severity warn _) eqn:Hw; [by apply Hsev|].
  congruence.
Qed.

End VerdictProperties.

Section VerdictExamples.
Import Js Types Evaluator Verdict Examples.


Lemma evaluateRules_violations_from_rules_witness :
  evaluateRules (E := plain_engine) [large_file; env_file]
    [size_rule; env_rule; broken_rule false]
  = Ok Examples.two_violations /\
  List.length (violations Examples.two_violations) <= 2 * 2.
Proof.
  assert (H : evaluateRules (E := plain_engine) [large_file; env_file]
                [size_rule; env_rule; broken_rule false]
              = Ok Examples.two_violations) by (vm_compute; reflexivity).
  split; [exact H|].
  apply (evaluateRules_violations_from_rules (E := plain_engine) _ _ _ H).
Defined.

Lemma evaluateRules_decision_from_rule_witness :
  evaluateRules (E := plain_engine) [large_file; env_file]
    [size_rule; env_rule; broken_rule false]
  = Ok Examples.two_violations /\
  decision Examples.two_violations <> allow /\
  exists r, r ∈ [size_rule; env_rule; broken_rule false] /\
    enabled r = true /\ r_severity r = decision Examples.two_violations.
Proof.
  assert (H : evaluateRules (E := plain_engine) [large_file; env_file]
                [size_rule; env_rule; broken_rule false]
              = Ok Examples.two_violations) by (vm_compute; reflexivity).
  assert (Hd : decision Examples.two_violations <> allow) by discriminate.
  split; [exact H|]. split; [exact Hd|].
  apply (evaluateRules_decision_from_rule (E := plain_engine) _ _ _ H Hd).
Defined.

End VerdictExamples.

(** * Validation, loading and merging of policies *)

Section ValidateFacts.
Import Js Types PolicyManager Validate.
#[local] Arguments Json.get : simpl never.

Lemma unless_nil v msg : unless v msg = [] <-> Json.truthy v = true.
Proof. unfold unless. by destruct (Json.truthy v). Qed.

Lemma read_value data k :
  data <> Json.Null -> read data k = Ok (Json.get data k).
Proof. by destruct data. Qed.

Lemma validate_rule_Throw i rule e :
  validate_rule i rule = Throw e <-> e = TypeError /\ rule = Json.Null.
Proof.
  unfold validate_rule, read.
  destruct rule; simpl; split; try discriminate; try (by intros [_ [=]]).
  - by intros [= <-].
  - by intros [-> _].
Qed.

Lemma validate_rules_Throw i rules e :
  validate_rules i rules = Throw e <-> e = TypeError /\ Json.Null ∈ rules.
Proof.
  revert i e. induction rules as [|rule rest IH]; intros i e; simpl.
  - split; [discriminate|]. intros [_ H]. by apply not_elem_of_nil in H.
  - destruct (validate_rule i rule) as [es|e'] eqn:Hr; simpl.
    + assert (rule <> Json.Null).
      { intros ->. discriminate. }
      destruct (validate_rules (S i) rest) as [es'|e''] eqn:Hrest; simpl.
      * split; [discriminate|]. intros [-> Hin].
        apply elem_of_cons in Hin as [Hin|Hin]; [congruence|].
        pose proof (proj2 (IH (S i) TypeError) (conj eq_refl Hin)).
        congruence.
      * destruct (proj1 (IH (S i) e'') Hrest) as [-> Hin].
        split; [intros [= <-]; split; [done|by right]|by intros [-> _]].
    + apply validate_rule_Throw in Hr as [-> ->].
      split; [intros [= <-]; split; [done|by left]|by intros [-> _]].
Qed.

(** The body of [validatePolicy] once the four reads have succeeded. *)
Lemma validatePolicy_value data :
  data <> Json.Null ->
  validatePolicy data =
  (rule_errors ←
     match Json.get data "rules" with
     | Some (Json.Array rs) => validate_rules 0 rs
     | _ => Ok ["Policy must have a rules array"]
     end;
   let errors :=
     unless (Json.get data "id") "Policy must have an id"
     ++ unless (Json.get data "name") "Policy must have a name"
     ++ unless (Json.get data "version") "Policy must have a version"
     ++ rule_errors in
   Ok {| valid := (List.length errors =? 0)%nat; errors := errors |}).
Proof.
  intros H. unfold validatePolicy. by rewrite !read_value.
Qed.

Lemma get_rule_value r :
  Json.get (rule_value r) "id" = Some (Json.Str (id r)) /\
  Json.get (rule_value r) "name" = Some (Json.Str (name r)) /\
  Json.truthy (Json.get (rule_value r) "type") = true /\
  Json.truthy (Json.get (rule_value r) "severity") = true.
Proof.
  unfold rule_value, Json.get.
  destruct (description r), (r_severity r), (kind r); simpl;
    repeat split; reflexivity.
Qed.

Lemma validate_rule_typed i r :
  exists es, validate_rule i (rule_value r) = Ok es /\
    (List.length es =? 0)%nat
    = negb (String.eqb (id r) "") && negb (String.eqb (name r) "").
Proof.
  destruct (get_rule_value r) as (Hid & Hname & Htype & Hsev).
  unfold validate_rule. rewrite !read_value by done.
  eexists. split; [reflexivity|].
  unfold unless at 3 4. rewrite Htype, Hsev, Hid, Hname. simpl.
  unfold unless. simpl.
  by destruct (String.eqb (id r) ""), (String.eqb (name r) "").
Qed.

Lemma validate_rules_typed i rs :
  exists es, validate_rules i (map rule_value rs) = Ok es /\
    (List.length es =? 0)%nat
    = forallb (fun r => negb (String.eqb (id r) "")
                        && negb (String.eqb (name r) "")) rs.
Proof.
  revert i. induction rs as [|r rs IH]; intros i; [by exists []|].
  cbn [map validate_rules forallb].
  destruct (validate_rule_typed i r) as (e & -> & He).
  destruct (IH (S i)) as (es & -> & Hes). simpl.
  eexists. split; [reflexivity|]. rewrite <- He, <- Hes, length_app.
  by destruct e, es.
Qed.

Lemma get_policy_value p :
  Json.get (policy_value p) "id" = Some (Json.Str (p_id p)) /\
  Json.get (policy_value p) "name" = Some (Json.Str (p_name p)) /\
  Json.get (policy_value p) "version" = Some (Json.Str (version p)) /\
  Json.get (policy_value p) "rules"
  = Some (Json.Array (map rule_value (rules p))).
Proof.
  unfold policy_value, Json.get.
  destruct (p_description p); simpl; repeat split; reflexivity.
Qed.

(** The body of [loadPolicy] on a parsed document that is not [null]. *)
Lemma loadPolicy_value parse data :
  data <> Json.Null ->
  loadPolicy parse (JsonObject data) =
  if negb (Json.truthy (Json.get data "id")) then Throw invalid_format else
  if negb (Json.truthy (Json.get data "name")) then Throw invalid_format else
  if negb (Json.truthy (Json.get data "version")) then Throw invalid_format
  else if negb (Json.isArray (Json.get data "rules"))
  then Throw invalid_format else Ok data.
Proof.
  intros H. unfold loadPolicy.
  change (mbind ?k (Ok data)) with (k data). cbv beta.
  rewrite !read_value by done. simpl.
  by destruct (Json.truthy (Json.get data "id")),
    (Json.truthy (Json.get data "name")),
    (Json.truthy (Json.get data "version")).
Qed.

(** A typed policy validates to [well_named]. *)
Lemma validatePolicy_policy_value p :
  exists errs,
    validatePolicy (policy_value p)
    = Ok {| valid := well_named p; errors := errs |}.
Proof.
  destruct (get_policy_value p) as (Hid & Hname & Hver & Hrules).
  rewrite validatePolicy_value by done. rewrite Hrules.
  destruct (validate_rules_typed 0 (rules p)) as (es & -> & Hes).
  simpl mbind. eexists. f_equal. f_equal.
  rewrite Hid, Hname, Hver. unfold unless, well_named. simpl.
  rewrite <- Hes.
  by destruct (String.eqb (p_id p) ""), (String.eqb (p_name p) ""),
    (String.eqb (version p) ""), es.
Qed.

End ValidateFacts.

Section ValidateProperties.
Import Js Types PolicyManager Validate.
Variable JSON_parse : string -> option Json.value.
#[local] Arguments Json.get : simpl never.

(** X26. What validates also loads. A document for which [validatePolicy]
    returns [valid: true] is returned by [loadPolicy] as it is. *)
Theorem validatePolicy_implies_loadPolicy data res :
  validatePolicy data = Ok res -> valid res = true ->
  loadPolicy JSON_parse (JsonObject data) = Ok data.
Proof.
  intros Hv Hvalid.
  assert (Hd : data <> Json.Null) by (by intros ->).
  rewrite validatePolicy_value in Hv by done.
  rewrite loadPolicy_value by done.
  destruct (Json.get data "rules") as [[|b|n|s|rs|fs]|] eqn:Hrules;
    simpl in Hv;
    try (injection Hv as <-; simpl in Hvalid;
         rewrite Nat.eqb_eq, !length_app in Hvalid; simpl in Hvalid; lia).
  destruct (validate_rules 0 rs) as [es|e]; simpl in Hv; [|discriminate].
  injection Hv as <-. simpl in Hvalid.
  rewrite Nat.eqb_eq, !length_app in Hvalid.
  assert (H1 : unless (Json.get data "id") "Policy must have an id" = [])
    by (apply length_zero_iff_nil; lia).
  assert (H2 : unless (Json.get data "name") "Policy must have a name" = [])
    by (apply length_zero_iff_nil; lia).
  assert (H3 : unless (Json.get data "version")
                 "Policy must have a version" = [])
    by (apply length_zero_iff_nil; lia).
  apply unless_nil in H1, H2, H3.
  simpl. by rewrite H1, H2, H3.
Qed.

(** X27. When the validator raises. [validatePolicy] raises exactly when the
    document is [null] or its rules are an array with a [null] element,
    and what it raises is a [TypeError]; on every other document it
    returns its list of errors. *)
Theorem validatePolicy_raises_iff data e :
  validatePolicy data = Throw e <->
  e = TypeError /\
  (data = Json.Null \/
   exists rs,
     Json.get data "rules" = Some (Json.Array rs) /\ Json.Null ∈ rs).
Proof.
  assert (data = Json.Null \/ data <> Json.Null) as [->|Hd]
    by (destruct data; first [by left|by right]).
  { split; [intros [= <-]; split; [done|by left]|by intros [-> _]]. }
  rewrite validatePolicy_value by done.
  destruct (Json.get data "rules") as [[|b|n|s|rs|fs]|] eqn:Hrules; simpl;
    try (split; [discriminate|]; intros [_ [?|(rs' & [=] & _)]]; done).
  destruct (validate_rules 0 rs) as [es|e'] eqn:Hv; simpl.
  - split; [discriminate|]. intros [-> [?|(rs' & [= <-] & Hin)]]; [done|].
    pose proof (proj2 (validate_rules_Throw 0 rs TypeError)
                  (conj eq_refl Hin)). congruence.
  - apply validate_rules_Throw in Hv as [-> Hin].
    split; [intros [= <-]; split; [done|right; by exists rs]
           |by intros [-> _]].
Qed.

(** X28. Typed policies. For a policy as the types describe it, neither
    function raises a [TypeError]: [validatePolicy] returns, with
    [valid: true] exactly when the id, the name and the version of the
    policy and the id and the name of every rule are non-empty, and
    [loadPolicy] returns the policy exactly when its id, name and version
    are non-empty, and raises the format error otherwise. *)
Theorem validatePolicy_typed (p : Policy) :
  (exists errs,
     validatePolicy (policy_value p)
     = Ok {| valid := well_named p; errors := errs |}) /\
  loadPolicy JSON_parse (JsonObject (policy_value p)) =
  if negb (String.eqb (p_id p) "") && negb (String.eqb (p_name p) "")
     && negb (String.eqb (version p) "")
  then Ok (policy_value p) else Throw invalid_format.
Proof.
  split; [apply validatePolicy_policy_value|].
  destruct (get_policy_value p) as (Hid & Hname & Hver & Hrules).
  rewrite loadPolicy_value by done.
  rewrite Hid, Hname, Hver, Hrules. simpl.
  by destruct (String.eqb (p_id p) ""), (String.eqb (p_name p) ""),
    (String.eqb (version p) "").
Qed.

End ValidateProperties.

Section MergeFacts.
Import Js Types PolicyManager Validate.
Implicit Types (m : RuleMap) (k : string) (v r : Rule) (rs : list Rule).

Lemma set_all_app rs rs' m : set_all (rs ++ rs') m = set_all rs' (set_all rs m).
Proof. unfold set_all. apply fold_left_app. Qed.

(** Setting a key the map does not have adds the entry at the end. *)
Lemma map_set_fresh k v m :
  k ∉ map fst m -> map_set k v m = m ++ [(k, v)].
Proof.
  induction m as [|[k' v'] m IH]; simpl; intros Hk; [reflexivity|].
  apply not_elem_of_cons in Hk as [Hne Hk].
  destruct (String.eqb_spec k' k) as [->|_]; [done|]. by rewrite IH.
Qed.

(** Filing the values of a map again, in its order, rebuilds the map. *)
Lemma set_all_values m :
  NoDup (map fst m) -> Forall (fun kv => fst kv = id (snd kv)) m ->
  set_all (map snd m) [] = m.
Proof.
  induction m as [|[k v] m IH] using rev_ind; [reflexivity|].
  rewrite !map_app. simpl. intros Hnd Hids.
  apply NoDup_app in Hnd as (Hnd & Hk & _).
  apply Forall_app in Hids as [Hids Hkv].
  apply Forall_inv in Hkv. simpl in Hkv.
  rewrite set_all_app, IH by done. simpl. rewrite <- Hkv.
  apply map_set_fresh. intros Hin. apply (Hk k Hin). by left.
Qed.

Lemma set_all_invariant rs :
  NoDup (map fst (set_all rs [])) /\
  Forall (fun kv => fst kv = id (snd kv)) (set_all rs []).
Proof.
  split.
  - rewrite keys_set_all. apply NoDup_fold_see. constructor.
  - apply set_all_keys_are_ids. constructor.
Qed.

Lemma rules_mergePolicies clock (p : Policy) (ps : list Policy) :
  rules (mergePolicies clock (p :: ps))
  = map snd (set_all (concat (map rules (p :: ps))) []).
Proof. simpl rules at 1. by rewrite collect_set_all. Qed.

Lemma last_with_id_elem k rs r : last_with_id k rs = Some r -> r ∈ rs.
Proof.
  unfold last_with_id. intros H. apply find_some in H as [H _].
  apply in_rev in H. by apply list_elem_of_In.
Qed.

(** Every rule of a merge is a rule of one of the merged policies. *)
Lemma merged_rule_given clock (p : Policy) (ps : list Policy) r :
  r ∈ rules (mergePolicies clock (p :: ps)) ->
  exists q, q ∈ p :: ps /\ r ∈ rules q.
Proof.
  intros Hr. apply (merged_rules clock p ps) in Hr.
  apply last_with_id_elem, list_elem_of_In, in_concat in Hr
    as (l & Hl & Hr).
  apply in_map_iff in Hl as (q & <- & Hq).
  exists q. by rewrite !list_elem_of_In.
Qed.

Lemma well_named_spec (p : Policy) :
  well_named p = true <->
  p_id p <> "" /\ p_name p <> "" /\ version p <> "" /\
  forall r, r ∈ rules p -> id r <> "" /\ name r <> "".
Proof.
  unfold well_named. rewrite !andb_true_iff, !negb_true_iff, forallb_forall.
  rewrite !String.eqb_neq. split.
  - intros [[[H1 H2] H3] H4]. repeat split; try done.
    all: apply list_elem_of_In, H4 in H;
      apply andb_true_iff in H as [Hi Hn];
      rewrite negb_true_iff, String.eqb_neq in Hi, Hn; done.
  - intros (H1 & H2 & H3 & H4). repeat split; try done.
    intros r Hr. apply list_elem_of_In, H4 in Hr as [Hi Hn].
    by rewrite andb_true_iff, !negb_true_iff, !String.eqb_neq.
Qed.

Lemma well_named_mergePolicies clock (policies : list Policy) :
  Forall (fun p => well_named p = true) policies ->
  well_named (mergePolicies clock policies) = true.
Proof.
  destruct policies as [|p ps]; [reflexivity|]. intros Hall.
  pose proof (Forall_inv Hall) as Hp. apply well_named_spec in Hp
    as (H1 & H2 & H3 & _).
  apply well_named_spec. repeat split; try done.
  all: apply merged_rule_given in H as (q & Hq & Hr);
    rewrite Forall_forall in Hall; apply Hall in Hq;
    apply well_named_spec in Hq as (_ & _ & _ & Hq); by apply Hq.
Qed.

Lemma valid_policy_value (p : Policy) :
  (exists res, validatePolicy (policy_value p) = Ok res /\ valid res = true)
  <-> well_named p = true.
Proof.
  destruct (validatePolicy_policy_value p) as [errs Hv]. split.
  - intros (res & Hres & Hvalid). rewrite Hv in Hres.
    injection Hres as <-. exact Hvalid.
  - intros H. eexists. split; [exact Hv|exact H].
Qed.

End MergeFacts.

Section MergeAlgebra.
Import Js Types PolicyManager Validate.
Variables clock clock' : nat -> string.
Variable JSON_parse : string -> option Json.value.

(** X22. Merging in steps. Merging the result of a merge with further
    policies gives what merging all the policies at once gives: the same
    rules in the same order, the same id, name, description, version and
    creation date. *)
Theorem mergePolicies_nested (p : Policy) (ps qs : list Policy) :
  mergePolicies clock' (mergePolicies clock (p :: ps) :: qs)
  = mergePolicies clock' ((p :: ps) ++ qs).
Proof.
  assert (Hc : collect (mergePolicies clock (p :: ps) :: qs)
               = collect ((p :: ps) ++ qs)).
  { rewrite !collect_set_all, map_cons, concat_cons, map_app, concat_app.
    rewrite !set_all_app. f_equal. rewrite rules_mergePolicies.
    destruct (set_all_invariant (concat (map rules (p :: ps))))
      as [Hnd Hids].
    by apply set_all_values. }
  transitivity
    {| p_id := p_id p; p_name := p_name p;
       p_description := p_description p; version := version p;
       rules := map snd (collect (mergePolicies clock (p :: ps) :: qs));
       createdAt := createdAt p; updatedAt := Some (clock' 0) |};
    [reflexivity|].
  rewrite Hc. reflexivity.
Qed.

(** X23. One policy. The rules of the merge of a single policy are the rules
    of that policy exactly when no two of them share an id; the other
    fields are kept, except the date of the update. *)
Theorem mergePolicies_single (p : Policy) :
  let merged := mergePolicies clock [p] in
  (rules merged = rules p <-> NoDup (map id (rules p))) /\
  p_id merged = p_id p /\ p_name merged = p_name p /\
  p_description merged = p_description p /\ version merged = version p /\
  createdAt merged = createdAt p /\ updatedAt merged = Some (clock 0).
Proof.
  intros merged. split; [|by repeat split].
  split.
  - intros <-. apply (merged_rules clock p []).
  - intros Hnd. unfold merged. rewrite rules_mergePolicies.
    cbn [map concat]. rewrite app_nil_r.
    set (m := map (fun r => (id r, r)) (rules p)).
    assert (Hvals : map snd m = rules p).
    { unfold m. rewrite map_map. simpl. apply map_id. }
    rewrite <- Hvals at 1. rewrite set_all_values; [exact Hvals| |].
    + unfold m. by rewrite map_map.
    + unfold m. apply Forall_forall. intros kv Hkv.
      apply list_elem_of_fmap in Hkv as (r & -> & _). reflexivity.
Qed.

(** X24. Validity is kept. When every given policy validates, so does their
    merge; this includes the merge of no policy, the default policy. *)
Theorem mergePolicies_valid (policies : list Policy) :
  Forall (fun p => exists res,
            validatePolicy (policy_value p) = Ok res /\ valid res = true)
         policies ->
  exists res,
    validatePolicy (policy_value (mergePolicies clock policies)) = Ok res /\
    valid res = true.
Proof.
  intros Hall. apply valid_policy_value, well_named_mergePolicies.
  eapply Forall_impl; [exact Hall|]. intros p. apply valid_policy_value.
Qed.

(** X25. The default policy. Whatever the project id and the clock, the
    default policy validates and [loadPolicy] accepts it; its id is
    [default] when the project id is absent or empty. *)
Theorem createDefaultPolicy_valid (projectId : option string) :
  let policy := createDefaultPolicy clock projectId in
  (exists res,
     validatePolicy (policy_value policy) = Ok res /\ valid res = true) /\
  loadPolicy JSON_parse (JsonObject (policy_value policy))
  = Ok (policy_value policy) /\
  (p_id policy = "default" <-> projectId = None \/ projectId = Some "").
Proof.
  intros policy.
  assert (Hid : p_id policy <> "").
  { unfold policy, createDefaultPolicy, createPolicy. simpl.
    destruct projectId as [s|]; [|done]. by destruct (String.eqb s ""). }
  assert (Hnamed : well_named policy = true).
  { unfold policy, createDefaultPolicy.
    destruct projectId as [s|]; [destruct (String.eqb s "")|];
      reflexivity. }
  split; [by apply valid_policy_value|]. split.
  - rewrite loadPolicy_value by done.
    destruct (get_policy_value policy) as (-> & -> & -> & ->).
    apply well_named_spec in Hnamed as (H1 & H2 & H3 & _).
    apply String.eqb_neq in H1, H2, H3.
    cbn [Json.truthy Json.isArray]. by rewrite H1, H2, H3.
  - unfold policy, createDefaultPolicy, createPolicy. simpl.
    destruct projectId as [s|]; [|split; [by left|done]].
    destruct (String.eqb_spec s "") as [->|Hne].
    + split; [by right|done].
    + split; [discriminate|]. intros [?|[= ?]]; done.
Qed.

End MergeAlgebra.

(** * The callers: command line and GitHub action *)

Section CallerProperties.
Import Js Types.
Context {E : RegExpEngine}.
Variable clock : nat -> string.

(** X29. Command line and action agree. In local mode, that is without the
    online mode or after it has failed, the exit code of [checkCommand]
    is the one of the decision that [analyzeDiff] of the action returns
    for the same text; where [analyzeDiff] returns [null], it is 1 if the
    action was marked as failed and 0 if not. *)
Theorem checkCommand_matches_analyzeDiff (text : string) :
  let code :=
    match Action.analyzeDiff clock text with
    | (Some res, _) => Cli.exit_code (Action.decision res)
    | (None, failed) => if failed then 1%Z else 0%Z
    end in
  Cli.checkCommand clock (Ok text) None = code /\
  forall e, Cli.checkCommand clock (Ok text) (Some (Throw e)) = code.
Proof.
  unfold Cli.checkCommand, Action.analyzeDiff, Cli.evaluateRules.
  destruct (String.eqb (Cli.trim text) ""); [by split|].
  destruct (DiffParser.parseDiff text) as [files|]; [|by split].
  destruct (List.length files =? 0)%nat; [by split|].
  by destruct (Evaluator.evaluateRules files _).
Qed.

(** X30. No header, no analysis. For a text none of whose lines starts with
    [diff --git], [checkCommand] in local mode exits with 0 and
    [analyzeDiff] returns [null] without marking the action as failed,
    whatever the regular expression engine does. *)
Theorem callers_pass_text_without_header (text : string) :
  forallb (fun line => negb (startsWith line "diff --git"))
    (split_lines text) = true ->
  Cli.checkCommand clock (Ok text) None = 0%Z /\
  Action.analyzeDiff clock text = (None, false).
Proof.
  intros Hno.
  assert (Hp : DiffParser.parseDiff text = Some []).
  { unfold DiffParser.parseDiff, DiffParser.run.
    by rewrite (fold_no_marker _ DiffParser.initial Hno eq_refl). }
  unfold Cli.checkCommand, Action.analyzeDiff. rewrite Hp. simpl.
  by destruct (String.eqb (Cli.trim text) "").
Qed.

(** Status check and job. The check run concludes [failure] exactly when
    the job is marked as failed, [neutral] exactly for a warning without
    [fail-on-warn] and [success] exactly for [allow]; whenever the job is
    marked as failed, the command line exits with a code other than 0 for
    the same decision. *)
Theorem conclusion_matches_failure (d : Decision) (failOnWarn : bool) :
  (Action.conclusion d failOnWarn = Action.failure
   <-> Action.fails d failOnWarn = true) /\
  (Action.conclusion d failOnWarn = Action.neutral
   <-> d = warn /\ failOnWarn = false) /\
  (Action.conclusion d failOnWarn = Action.success <-> d = allow) /\
  (Action.fails d failOnWarn = true -> Cli.exit_code d <> 0%Z).
Proof.
  destruct d, failOnWarn; simpl; repeat split; intros; try done.
  all: try (destruct H; done).
Qed.

End CallerProperties.

Section PolicyExamples.
Import Js Types PolicyManager Validate Examples.

Lemma validatePolicy_implies_loadPolicy_witness :
  validatePolicy team_document = Ok {| valid := true; errors := [] |} /\
  loadPolicy no_text (JsonObject team_document) = Ok team_document.
Proof.
  assert (H : validatePolicy team_document
              = Ok {| valid := true; errors := [] |}) by reflexivity.
  split; [exact H|].
  apply (validatePolicy_implies_loadPolicy no_text team_document _ H).
  reflexivity.
Defined.

Lemma mergePolicies_valid_witness :
  Forall (fun p => exists res,
            validatePolicy (policy_value p) = Ok res /\ valid res = true)
         [base_policy; override_policy] /\
  exists res,
    validatePolicy
      (policy_value (mergePolicies noon [base_policy; override_policy]))
    = Ok res /\
    valid res = true.
Proof.
  assert (H : Forall (fun p => exists res,
                 validatePolicy (policy_value p) = Ok res /\ valid res = true)
              [base_policy; override_policy]).
  { repeat constructor; eexists; split; vm_compute; reflexivity. }
  split; [exact H|].
  apply (mergePolicies_valid noon [base_policy; override_policy] H).
Defined.

Lemma callers_pass_text_without_header_witness :
  forallb (fun line => negb (startsWith line "diff --git"))
    (split_lines
       (DiffParser.text_of ["Dear team,"; "+ nothing to see"; "@@ -1 +1 @@"]))
  = true /\
  Cli.checkCommand (E := Evaluator.plain_engine) noon
    (Ok (DiffParser.text_of ["Dear team,"; "+ nothing to see"; "@@ -1 +1 @@"]))
    None = 0%Z /\
  Action.analyzeDiff (E := Evaluator.plain_engine) noon
    (DiffParser.text_of ["Dear team,"; "+ nothing to see"; "@@ -1 +1 @@"])
  = (None, false).
Proof.
  split; [reflexivity|].
  apply (callers_pass_text_without_header (E := Evaluator.plain_engine) noon
           (DiffParser.text_of
              ["Dear team,"; "+ nothing to see"; "@@ -1 +1 @@"])).
  reflexivity.
Defined.

End PolicyExamples.

(** * How the kinds of rules relate *)

Section KindFacts.
Import Js Types Evaluator Kinds.
Context {E : RegExpEngine}.

Lemma lower_ascii_idempotent c : lower_ascii (lower_ascii c) = lower_ascii c.
Proof. by destruct c as [[] [] [] [] [] [] [] []]. Qed.

Lemma toLowerCase_idempotent s : toLowerCase (toLowerCase s) = toLowerCase s.
Proof.
  induction s as [|c s IH]; [reflexivity|].
  simpl. by rewrite lower_ascii_idempotent, IH.
Qed.

Lemma reports_of_if (b : bool) r f fallback :
  match (if b then Ok (report r f fallback) else Ok []) with
  | Ok (_ :: _) => true
  | _ => false
  end = b.
Proof. by destruct b. Qed.

(** Something was found in a list filtered twice. *)
Lemma found_existsb {A B} (g : A -> B) (P Q : A -> bool) (l : list A) :
  (0 <? List.length (map g (List.filter P (List.filter Q l))))%nat
  = existsb (fun x => Q x && P x) l.
Proof.
  induction l as [|x l IH]; [reflexivity|].
  cbn [List.filter existsb]. destruct (Q x); simpl; [|exact IH].
  destruct (P x); simpl; [reflexivity|exact IH].
Qed.

Lemma length_filter_map {A B} (g : A -> B) (P : B -> bool) (l : list A) :
  List.length (List.filter P (map g l))
  = List.length (List.filter (fun x => P (g x)) l).
Proof.
  induction l as [|x l IH]; [reflexivity|].
  simpl. destruct (P (g x)); simpl; by rewrite IH.
Qed.

End KindFacts.

Section KindProperties.
Import Js Types Evaluator Kinds.
Context {E : RegExpEngine}.
Implicit Types (f : DiffParser.DiffFile).

(** X17. Include and exclude. Of two enabled path-pattern rules with the same
    valid pattern, one of type [include] and one of type [exclude],
    exactly one reports a given file: the first when the pattern matches
    the path, the second when it does not. *)
Theorem path_pattern_include_exclude (r r' : Rule) f p re :
  enabled r = true -> enabled r' = true ->
  kind r = path_pattern p include -> kind r' = path_pattern p exclude ->
  compile p = Ok re ->
  reports r f = RegExp_test re (DiffParser.path f) /\
  reports r' f = negb (reports r f).
Proof.
  intros Hen Hen' Hk Hk' Hp.
  unfold reports, evaluateRule, evaluatePathPatternRule.
  rewrite Hen, Hen', Hk, Hk', Hp. simpl.
  by destruct (RegExp_test re (DiffParser.path f)).
Qed.

(** X18. A migration rule is a conjunction. An enabled large-migration rule
    reports a file exactly when a sensitive-file rule with its patterns
    and a large-change rule with its threshold both report it. *)
Theorem large_migration_is_conjunction (rm rs rl : Rule) f t ps :
  enabled rm = true -> enabled rs = true -> enabled rl = true ->
  kind rm = large_migration t ps -> kind rs = sensitive_file ps ->
  kind rl = large_change t ->
  reports rm f = reports rs f && reports rl f.
Proof.
  intros Hm Hs Hl Hkm Hks Hkl.
  unfold reports, evaluateRule, evaluateLargeMigrationRule,
    evaluateSensitiveFileRule, evaluateLargeChangeRule.
  rewrite Hm, Hs, Hl, Hkm, Hks, Hkl. cbn [negb].
  destruct (mapR compile ps) as [res|e]; simpl; [|reflexivity].
  destruct (existsb _ res); simpl; [|reflexivity].
  by destruct (t <? _)%Z.
Qed.

(** X19. The scope of a line pattern. For a valid pattern, an enabled
    line-pattern rule of type [added] reports a file exactly when the
    pattern matches the content of an added line, one of type [removed]
    when it matches a removed line, and one of type [both] when it
    matches any recorded line, context lines included; so [both] reports
    whenever [added] or [removed] does.  A potential-secret rule with
    this pattern alone reports exactly when the rule of type [added]
    does. *)
Theorem line_pattern_scopes (ra rr rb rs : Rule) f p re :
  enabled ra = true -> enabled rr = true -> enabled rb = true ->
  enabled rs = true ->
  kind ra = line_pattern p added -> kind rr = line_pattern p removed ->
  kind rb = line_pattern p both -> kind rs = potential_secret [p] ->
  compile p = Ok re ->
  let matched l := RegExp_test re (DiffParser.content l) in
  reports ra f = existsb (fun l => is_added l && matched l) (all_lines f) /\
  reports rr f = existsb (fun l => is_removed l && matched l) (all_lines f) /\
  reports rb f = existsb matched (all_lines f) /\
  reports rs f = reports ra f /\
  (reports ra f || reports rr f = true -> reports rb f = true).
Proof.
  intros Ha Hr Hb Hs Hka Hkr Hkb Hks Hp matched.
  assert (Hra : reports ra f
                = existsb (fun l => is_added l && matched l) (all_lines f)).
  { unfold reports, evaluateRule, evaluateLinePatternRule, found_lines.
    rewrite Ha, Hka, Hp. simpl. rewrite reports_of_if.
    apply found_existsb. }
  assert (Hrr : reports rr f
                = existsb (fun l => is_removed l && matched l) (all_lines f)).
  { unfold reports, evaluateRule, evaluateLinePatternRule, found_lines.
    rewrite Hr, Hkr, Hp. simpl. rewrite reports_of_if.
    apply found_existsb. }
  assert (Hrb : reports rb f = existsb matched (all_lines f)).
  { unfold reports, evaluateRule, evaluateLinePatternRule, found_lines.
    rewrite Hb, Hkb, Hp. simpl. rewrite reports_of_if.
    rewrite (found_existsb _ _ (fun _ => true)). reflexivity. }
  split; [exact Hra|]. split; [exact Hrr|]. split; [exact Hrb|]. split.
  - rewrite Hra.
    unfold reports, evaluateRule, evaluatePotentialSecretRule, found_secrets.
    rewrite Hs, Hks. cbn [negb]. rewrite mapR_cons, Hp. simpl.
    rewrite reports_of_if, !length_map, length_filter_map.
    rewrite <- (length_map (fun l : DiffParser.DiffLine => l)).
    rewrite found_existsb. unfold matched. clear.
    induction (all_lines f) as [|l ls IH]; [reflexivity|].
    cbn [existsb]. by rewrite IH, orb_false_r.
  - rewrite Hra, Hrr, Hrb, orb_true_iff, !existsb_exists.
    intros [(l & Hl & H)|(l & Hl & H)]; exists l; split; try done;
      by apply andb_true_iff in H as [_ H].
Qed.

(** X20. Keywords ignore case. An enabled suspicious-keywords rule reports the
    same files when its keywords are replaced by their lower-case
    forms. *)
Theorem keywords_ignore_case (r r' : Rule) f ks :
  enabled r = true -> enabled r' = true ->
  kind r = suspicious_keywords ks ->
  kind r' = suspicious_keywords (map toLowerCase ks) ->
  reports r f = reports r' f.
Proof.
  intros Hen Hen' Hk Hk'.
  unfold reports, evaluateRule, evaluateSuspiciousKeywordsRule, found_keywords.
  rewrite Hen, Hen', Hk, Hk'. simpl. rewrite !reports_of_if.
  rewrite length_filter_map. do 2 f_equal.
  apply List.filter_ext. intros k. by rewrite toLowerCase_idempotent.
Qed.

End KindProperties.

Section KindExamplesSection.
Import Js Types Evaluator Kinds Examples KindExamples.

Lemma path_pattern_include_exclude_witness :
  reports (E := plain_engine) (rule_of (path_pattern "env" include)) env_file
  = true /\
  reports (E := plain_engine) (rule_of (path_pattern "env" exclude)) env_file
  = negb (reports (E := plain_engine)
            (rule_of (path_pattern "env" include)) env_file).
Proof.
  apply (path_pattern_include_exclude (E := plain_engine)
           (rule_of (path_pattern "env" include))
           (rule_of (path_pattern "env" exclude))
           env_file "env" "env" eq_refl eq_refl eq_refl eq_refl eq_refl).
Defined.

Lemma large_migration_is_conjunction_witness :
  reports (E := plain_engine) (rule_of (large_migration 1000 ["large"]))
    large_file
  = reports (E := plain_engine) (rule_of (sensitive_file ["large"])) large_file
    && reports (E := plain_engine) (rule_of (large_change 1000)) large_file.
Proof.
  apply (large_migration_is_conjunction (E := plain_engine)
           (rule_of (large_migration 1000 ["large"]))
           (rule_of (sensitive_file ["large"]))
           (rule_of (large_change 1000))
           large_file 1000 ["large"]
           eq_refl eq_refl eq_refl eq_refl eq_refl eq_refl).
Defined.

Lemma line_pattern_scopes_witness :
  reports (E := plain_engine) (rule_of (potential_secret ["console"]))
    modify_file
  = reports (E := plain_engine) (rule_of (line_pattern "console" added))
      modify_file.
Proof.
  apply (line_pattern_scopes (E := plain_engine)
           (rule_of (line_pattern "console" added))
           (rule_of (line_pattern "console" removed))
           (rule_of (line_pattern "console" both))
           (rule_of (potential_secret ["console"]))
           modify_file "console" "console"
           eq_refl eq_refl eq_refl eq_refl eq_refl eq_refl eq_refl eq_refl
           eq_refl).
Defined.

Lemma keywords_ignore_case_witness :
  reports (E := plain_engine)
    (rule_of (suspicious_keywords ["EVAL("; "Fetch("])) script_file
  = reports (E := plain_engine)
      (rule_of (suspicious_keywords (map toLowerCase ["EVAL("; "Fetch("])))
      script_file.
Proof.
  apply (keywords_ignore_case (E := plain_engine)
           (rule_of (suspicious_keywords ["EVAL("; "Fetch("]))
           (rule_of (suspicious_keywords (map toLowerCase ["EVAL("; "Fetch("])))
           script_file ["EVAL("; "Fetch("] eq_refl eq_refl eq_refl eq_refl).
Defined.

End KindExamplesSection.
